(** * depster-griefer-bot: fleet supervisor and per-agent behaviour engine

    A shallow embedding of the two revisions of the bot server that the
    repository holds:

      - [Overhaul1]: the file headed "Gemini Overhaul"     (src/unnamed/part_000)
      - [Overhaul2]: the file headed "Gemini Overhaul 2.0" (src/depster.js)

    Functions that differ between the revisions take the revision as their
    first argument and branch on it exactly where the two sources differ.

    Modelling conventions.
      - Vectors on the block grid ([Vec3]) have integer coordinates; entity
        positions ([Vec3q]) have rational coordinates.  Euclidean distances are
        compared through their squares, which orders them as the distances
        themselves; rounding of JavaScript doubles is not modelled.
      - Angles are real numbers ([R]).
      - A JavaScript [Map] is an association list in insertion order with the
        semantics of [has], [get], [set] and [delete].
      - Event handlers run to completion: an [async] handler is modelled as
        one uninterrupted run, each [await]ed remote action taking effect (or
        failing) at the point of the call.
      - What the remote world answers is not decided by the program: a remote
        oracle tells, for the n-th remote call of a unit, whether the call is
        rejected. *)

From Stdlib Require Import List String Ascii ZArith QArith Qround Bool Lia Arith.
From Stdlib Require Import DecimalString DecimalNat Finite.
From Stdlib Require Import Reals Lra Lqa Qreals.

(** [lra] on rationals and on reals. *)
Ltac qlra := Lqa.lra.
Ltac rlra := Lra.lra.
Import ListNotations.

Local Open Scope string_scope.
Local Open Scope list_scope.
Local Open Scope Z_scope.

(** ** Revisions *)

Inductive Revision : Type :=
| Overhaul1   (* src/unnamed/part_000 *)
| Overhaul2.  (* src/depster.js *)

(** ** Vectors *)

(** [Vec3] on the block grid. *)
Record Vec3 : Type := vec3 { vx : Z; vy : Z; vz : Z }.

Definition Vec3_eqb (a b : Vec3) : bool :=
  (vx a =? vx b) && (vy a =? vy b) && (vz a =? vz b).

Definition plus (a b : Vec3) : Vec3 :=
  vec3 (vx a + vx b) (vy a + vy b) (vz a + vz b).

Definition minus (a b : Vec3) : Vec3 :=
  vec3 (vx a - vx b) (vy a - vy b) (vz a - vz b).

Definition scaled (a : Vec3) (k : Z) : Vec3 :=
  vec3 (vx a * k) (vy a * k) (vz a * k).

Definition offset (a : Vec3) (dx dy dz : Z) : Vec3 :=
  vec3 (vx a + dx) (vy a + dy) (vz a + dz).

(** [Vec3] holding an entity position. *)
Record Vec3q : Type := vec3q { qx : Q; qy : Q; qz : Q }.

Definition offsetq (a : Vec3q) (dx dy dz : Z) : Vec3q :=
  vec3q (qx a + inject_Z dx) (qy a + inject_Z dy) (qz a + inject_Z dz).

Definition floored (a : Vec3q) : Vec3 :=
  vec3 (Qfloor (qx a)) (Qfloor (qy a)) (Qfloor (qz a)).

Definition ofGrid (a : Vec3) : Vec3q :=
  vec3q (inject_Z (vx a)) (inject_Z (vy a)) (inject_Z (vz a)).

(** Square of [a.distanceTo(b)]. *)
Definition distSq (a b : Vec3q) : Q :=
  let dx := (qx b - qx a)%Q in
  let dy := (qy b - qy a)%Q in
  let dz := (qz b - qz a)%Q in
  (dx * dx + dy * dy + dz * dz)%Q.

Definition Qltb (x y : Q) : bool := negb (Qle_bool y x).

(** [a.distanceTo(b) > m]: a distance is never negative, so it exceeds every
    negative bound; otherwise the squares are compared. *)
Definition distanceExceeds (a b : Vec3q) (m : Q) : bool :=
  Qltb m 0 || Qltb (m * m) (distSq a b).

(** [for (let x = lo; x <= hi; x++)] *)
Definition upto (lo hi : Z) : list Z :=
  map (fun i => lo + Z.of_nat i) (seq 0 (Z.to_nat (hi - lo + 1))).

(** ** Trap offset set *)

Inductive OffsetType : Type := floor | wall | roof.

(** [{ pos, type }] *)
Record TrapOffset : Type := trapOffset { pos : Vec3; type : OffsetType }.

(** The three pushes of depster.js, lines 210-230. *)
Definition trapOffsets : list TrapOffset :=
  flat_map (fun x =>
    flat_map (fun z =>
      if (x =? 0) && (z =? 0) then []
      else [trapOffset (vec3 x (-1) z) floor]) (upto (-1) 1)) (upto (-1) 1)
  ++
  flat_map (fun y =>
    [ trapOffset (vec3 (-1) y (-1)) wall; trapOffset (vec3 (-1) y 1) wall;
      trapOffset (vec3 1 y (-1)) wall;    trapOffset (vec3 1 y 1) wall;
      trapOffset (vec3 0 y (-1)) wall;    trapOffset (vec3 0 y 1) wall;
      trapOffset (vec3 (-1) y 0) wall;    trapOffset (vec3 1 y 0) wall ])
    (upto 0 1)
  ++
  flat_map (fun x =>
    flat_map (fun z => [trapOffset (vec3 x 2 z) roof]) (upto (-1) 1))
    (upto (-1) 1).

(** The same loops in part_000 (lines 236-256) push bare vectors. *)
Definition trapOffsets1 : list Vec3 :=
  flat_map (fun x =>
    flat_map (fun z =>
      if (x =? 0) && (z =? 0) then [] else [vec3 x (-1) z]) (upto (-1) 1))
    (upto (-1) 1)
  ++
  flat_map (fun y =>
    [ vec3 (-1) y (-1); vec3 (-1) y 1; vec3 1 y (-1); vec3 1 y 1;
      vec3 0 y (-1); vec3 0 y 1; vec3 (-1) y 0; vec3 1 y 0 ])
    (upto 0 1)
  ++
  flat_map (fun x => flat_map (fun z => [vec3 x 2 z]) (upto (-1) 1))
    (upto (-1) 1).

(** The offsets a revision iterates over in [trapLogic]. *)
Definition offsetsOf (rev : Revision) : list Vec3 :=
  match rev with
  | Overhaul1 => trapOffsets1
  | Overhaul2 => map pos trapOffsets
  end.

(** ** JavaScript values, objects and maps *)

(** [!!s] for a string. *)
Definition truthyStr (s : string) : bool := negb (s =? "")%string.

(** [a || b] where [a] is a string or [undefined]/[null]. *)
Definition orElse (a : option string) (b : string) : string :=
  match a with
  | Some s => if truthyStr s then s else b
  | None => b
  end.

Definition showZ (z : Z) : string := NilZero.string_of_int (Z.to_int z).
Definition showNat (n : nat) : string := NilZero.string_of_uint (Nat.to_uint n).
Definition showBool (b : bool) : string := if b then "true" else "false".
Definition newline : string := String (ascii_of_nat 10) EmptyString.

Inductive Value : Type :=
| VUndefined
| VNull
| VBool (b : bool)
| VNum (r : R)
| VStr (s : string).

Definition truthy (v : Value) : bool :=
  match v with
  | VUndefined | VNull => false
  | VBool b => b
  | VNum r => if Req_EM_T r 0%R then false else true
  | VStr s => truthyStr s
  end.

(** [v === 'text'] *)
Definition isStr (v : Value) (text : string) : bool :=
  match v with
  | VStr s => (s =? text)%string
  | _ => false
  end.

(** A [Map] with string keys, in insertion order. *)
Definition JsMap (V : Type) : Type := list (string * V).

Section JsMapOps.
Context {V : Type}.

Fixpoint map_get (k : string) (m : JsMap V) : option V :=
  match m with
  | [] => None
  | (k', v) :: rest => if (k' =? k)%string then Some v else map_get k rest
  end.

Definition map_has (k : string) (m : JsMap V) : bool :=
  match map_get k m with Some _ => true | None => false end.

(** [set] keeps the position of a key already present and appends a new one. *)
Fixpoint map_set (k : string) (v : V) (m : JsMap V) : JsMap V :=
  match m with
  | [] => [(k, v)]
  | (k', v') :: rest =>
      if (k' =? k)%string then (k, v) :: rest else (k', v') :: map_set k v rest
  end.

Fixpoint map_delete (k : string) (m : JsMap V) : JsMap V :=
  match m with
  | [] => []
  | (k', v') :: rest =>
      if (k' =? k)%string then rest else (k', v') :: map_delete k rest
  end.

Definition map_keys (m : JsMap V) : list string := map fst m.
Definition map_values (m : JsMap V) : list V := map snd m.
End JsMapOps.

(** An object literal: its own properties in creation order. *)
Definition Obj : Type := JsMap Value.

Definition setProp (k : string) (v : Value) (o : Obj) : Obj := map_set k v o.

Definition getProp (k : string) (o : Obj) : Value :=
  match map_get k o with
  | Some v => v
  | None => VUndefined
  end.

(** [{ ...o, ...data }] *)
Definition spread (o data : Obj) : Obj :=
  fold_left (fun acc kv => setProp (fst kv) (snd kv) acc) data o.

(** ** Errors and texts *)

Inductive JsError : Type :=
| ReferenceError (identifier : string)   (* read of an identifier no scope binds *)
| TypeError (what : string)
| RemoteError (call : nat).              (* a remote call that was rejected *)

(** Text of a log line or status. *)
Inductive Text : Type :=
| Str (s : string)
| ClearmapText (angle : R)   (* `Initializing clearmap protocol at angle ${angle.toFixed(2)}.` *)
| StackText (e : JsError)    (* e.stack, or String(e) *)
| ValueText (v : Value)      (* `${v}` *)
| InspectText (e : JsError)  (* the error as console.error renders a further argument *)
| Cat (a b : Text).          (* concatenation of template parts *)

(** ** Messages a worker posts to the main thread *)

Inductive MsgBody : Type :=
| auth_link (link user_code : string)
| authenticated (nickname : string) (initialUsername : option string)
| status_update (status : string)
| log_msg (text : Text)
| error_msg (error : Text)
| other_msg (type : string).

(** [{ ...msg, bot }]; [None] is a falsy message. *)
Record WorkerMsg : Type := workerMsg { body : MsgBody; bot : option string }.

(** ** Main thread: the fleet supervisor *)

Definition WorkerId : Type := nat.

(** What [spawnWorkerFor(username, isAuthWorker)] closes over. *)
Record Unit : Type := mkUnit {
  u_worker : WorkerId;
  username : string;
  isAuthWorker : bool
}.

(** Value held by [activeWorkers].  depster.js stores
    [{ worker, finalUsername }]; part_000 stores the worker alone, which is
    the same record with [finalUsername] never set. *)
Record WorkerInfo : Type := workerInfo {
  worker : WorkerId;
  finalUsername : option string
}.

(** What the main thread sends to the dashboard. *)
Inductive IoEvent : Type :=
| io_auth_link (msg : WorkerMsg) (username : string)
| io_log (bot : string) (text : Text) (type : string)
| io_bot_authenticated (tempUsername : option string) (finalUsername : string)
| io_bot_status_update (username status : string)
| io_bot_online (username status : string)
| io_bot_offline (username : string)
| io_initial_accounts (names : list string).

Record Main : Type := mkMain {
  activeWorkers : JsMap WorkerInfo;
  spawned : list Unit;                 (* workers created, oldest first *)
  emitted : list IoEvent;              (* io.emit and console output, oldest first *)
  posted : list (WorkerId * Obj);      (* worker.postMessage, oldest first *)
  timers : list (Z * string);          (* setTimeout(respawn of key, delay) *)
  terminated : list WorkerId           (* worker.terminate() *)
}.

Definition setActiveWorkers (m : JsMap WorkerInfo) (s : Main) : Main :=
  mkMain m (spawned s) (emitted s) (posted s) (timers s) (terminated s).

Definition emit (e : IoEvent) (s : Main) : Main :=
  mkMain (activeWorkers s) (spawned s) (emitted s ++ [e]) (posted s) (timers s)
         (terminated s).

Definition postMessage (w : WorkerId) (msg : Obj) (s : Main) : Main :=
  mkMain (activeWorkers s) (spawned s) (emitted s) (posted s ++ [(w, msg)])
         (timers s) (terminated s).

Definition setTimeout (key : string) (delay : Z) (s : Main) : Main :=
  mkMain (activeWorkers s) (spawned s) (emitted s) (posted s)
         (timers s ++ [(delay, key)]) (terminated s).

Definition terminate (w : WorkerId) (s : Main) : Main :=
  mkMain (activeWorkers s) (spawned s) (emitted s) (posted s) (timers s)
         (terminated s ++ [w]).

(** [console.log]: the stream wrapper forwards the line to the dashboard. *)
Definition console_logT (text : Text) (s : Main) : Main :=
  emit (io_log "System" (Cat text (Str newline)) "info") s.

Definition console_log (text : string) (s : Main) : Main :=
  console_logT (Str text) s.

(** [console.error]: the line goes to the dashboard with type 'error'. *)
Definition console_errorT (text : Text) (s : Main) : Main :=
  emit (io_log "System" (Cat text (Str newline)) "error") s.

Definition initialMain : Main := mkMain [] [] [] [] [] [].

(** [spawnWorkerFor(username, isAuthWorker)] up to the handler wiring. *)
Definition spawnWorkerFor (rev : Revision) (username : string)
    (isAuthWorker : bool) (s : Main) : Main :=
  if map_has username (activeWorkers s) then
    console_log ("[main] Worker for " ++ username ++ " already running.") s
  else
    let w := List.length (spawned s) in
    let s1 :=
      mkMain (map_set username (workerInfo w None) (activeWorkers s))
             (spawned s ++ [mkUnit w username isAuthWorker])
             (emitted s) (posted s) (timers s) (terminated s) in
    console_log ("[main] Spawned worker for: " ++ username ++ " (isAuth: "
                 ++ showBool isAuthWorker ++ ")") s1.

(** [case 'authenticated'] of [worker.on('message')]. *)
Definition onAuthenticated (rev : Revision) (u : Unit)
    (nickname : string) (initialUsername : option string) (s : Main) : Main :=
  match rev with
  | Overhaul1 =>
      let finalUsername := nickname in
      let s1 :=
        if negb (username u =? finalUsername)%string
           && map_has (username u) (activeWorkers s) then
          match map_get (username u) (activeWorkers s) with
          | Some workerRef =>
              setActiveWorkers
                (map_set finalUsername workerRef
                   (map_delete (username u) (activeWorkers s))) s
          | None => s
          end
        else s in
      let s2 := emit (io_bot_authenticated (Some (username u)) finalUsername) s1 in
      emit (io_log finalUsername (Str "Authenticated successfully.") "info") s2
  | Overhaul2 =>
      let finalUsername := nickname in
      let s1 :=
        match initialUsername with
        | Some initial =>
            match map_get initial (activeWorkers s) with
            | Some workerEntry =>
                (* workerEntry.finalUsername = finalUsername: the entry is the
                   object the map holds *)
                let workerEntry' :=
                  workerInfo (worker workerEntry) (Some finalUsername) in
                let m1 := map_set initial workerEntry' (activeWorkers s) in
                if isAuthWorker u then
                  setActiveWorkers
                    (map_set finalUsername workerEntry' (map_delete initial m1)) s
                else setActiveWorkers m1 s
            | None => s
            end
        | None => s
        end in
      let s2 := emit (io_bot_authenticated initialUsername finalUsername) s1 in
      let s3 := console_log ("[main] Authed usrname: " ++ finalUsername) s2 in
      console_log ("[main] txtfileusername: "
                   ++ match initialUsername with Some i => i | None => "undefined" end)
                  s3
  end.

(** [worker.on('message')] of the worker created for [u]. *)
Definition onMessage (rev : Revision) (u : Unit) (msg : option WorkerMsg)
    (s : Main) : Main :=
  match msg with
  | None => s
  | Some m =>
      let botName := orElse (bot m) (username u) in
      match body m with
      | auth_link link user_code =>
          let s1 := emit (io_auth_link m botName) s in
          emit (io_log botName (Str ("Auth required. Code: " ++ user_code)) "info") s1
      | authenticated nickname initialUsername =>
          onAuthenticated rev u nickname initialUsername s
      | status_update status =>
          match rev with
          | Overhaul1 => emit (io_bot_status_update botName status) s
          | Overhaul2 =>
              let botToUpdate :=
                match map_get botName (activeWorkers s) with
                | Some e => Some e
                | None =>
                    find (fun w =>
                            match finalUsername w with
                            | Some f => (f =? botName)%string
                            | None => false
                            end) (map_values (activeWorkers s))
                end in
              match botToUpdate with
              | Some e =>
                  emit (io_bot_status_update (orElse (finalUsername e) botName)
                                             status) s
              | None => s
              end
          end
      | log_msg text => emit (io_log botName text "info") s
      | error_msg error =>
          emit (io_log botName (Cat (Str "ERROR: ") error) "error") s
      | other_msg type => if truthyStr type then s else s
      end
  end.

(** The loop of [worker.on('exit')]: first entry that holds the worker. *)
Definition findExited (w : WorkerId) (m : JsMap WorkerInfo)
  : option (string * WorkerInfo) :=
  find (fun kv => (worker (snd kv) =? w)%nat) m.

(** Delay of the respawn timer, in milliseconds. *)
Definition respawnDelay : Z := 5000.

(** [worker.on('exit')] of the worker created for [u]. *)
Definition onExit (rev : Revision) (u : Unit) (code : Z) (s : Main) : Main :=
  match findExited (u_worker u) (activeWorkers s) with
  | Some (exitedBotKey, exitedBotInfo) =>
      if truthyStr exitedBotKey then
        let s1 := setActiveWorkers (map_delete exitedBotKey (activeWorkers s)) s in
        let s3 :=
          match rev with
          | Overhaul1 =>
              let s2 := emit (io_bot_offline exitedBotKey) s1 in
              console_log ("[main] Worker for " ++ exitedBotKey
                           ++ " exited with code " ++ showZ code ++ ".") s2
          | Overhaul2 =>
              let offlineUsername :=
                orElse (finalUsername exitedBotInfo) exitedBotKey in
              let s2 := emit (io_bot_offline offlineUsername) s1 in
              console_log ("[main] Worker for " ++ offlineUsername ++ " (initial: "
                           ++ exitedBotKey ++ ") exited with code " ++ showZ code
                           ++ ".") s2
          end in
        if negb (code =? 0) && negb (isAuthWorker u) then
          setTimeout exitedBotKey respawnDelay s3
        else s3
      else s
  | None => s
  end.

(** The callback of the respawn timer. *)
Definition onRespawnTimer (rev : Revision) (exitedBotKey : string) (s : Main)
  : Main :=
  spawnWorkerFor rev exitedBotKey false
    (console_log ("[main] Respawning worker for " ++ exitedBotKey ++ "...") s).

(** [worker.on('error')]: [console.error(`[main] Worker error for ${username}:`, err)]
    writes the text, a space and the rendered error. *)
Definition onError (u : Unit) (err : JsError) (s : Main) : Main :=
  console_errorT (Cat (Str ("[main] Worker error for " ++ username u ++ ":"))
                      (Cat (Str " ") (InspectText err))) s.

(** [(index / workers.length) * 2 * Math.PI] *)
Definition sweepAngle (index length : nat) : R :=
  (INR index / INR length * 2 * PI)%R.

Definition clearmapMessage (angle : R) : Obj :=
  [("type", VStr "command"); ("command", VStr "clearmap"); ("angle", VNum angle)].

(** [workers.forEach((worker, index) => ...)] *)
Fixpoint forEachIndexed (workers : list WorkerId) (index length : nat)
    (s : Main) : Main :=
  match workers with
  | [] => s
  | w :: rest =>
      forEachIndexed rest (S index) length
        (postMessage w (clearmapMessage (sweepAngle index length)) s)
  end.

(** [for (const { worker } of activeWorkers.values()) worker.postMessage(msg)] *)
Definition postAll (msg : Obj) (s : Main) : Main :=
  fold_left (fun acc w => postMessage (worker w) msg acc)
            (map_values (activeWorkers s)) s.

(** [socket.on('send-command')]; [None] is a falsy [data]. *)
Definition onSendCommand (rev : Revision) (data : option Obj) (s : Main) : Main :=
  match data with
  | None => s
  | Some data =>
      if negb (truthy (getProp "command" data)) then s
      else
        let s1 :=
          console_logT (Cat (Str "[main] Received command '")
                             (Cat (ValueText (getProp "command" data))
                                  (Str "' from dashboard."))) s in
        if isStr (getProp "command" data) "clearmap" then
          let workers := map worker (map_values (activeWorkers s1)) in
          forEachIndexed workers 0 (List.length workers) s1
        else
          postAll (spread [("type", VStr "command")] data) s1
  end.

(** [socket.on('send-chat')] *)
Definition onSendChat (message : Value) (s : Main) : Main :=
  postAll [("type", VStr "command"); ("command", VStr "chat"); ("message", message)]
    (console_logT (Cat (Str "[main] Broadcasting chat from dashboard: ")
                       (ValueText message)) s).

(** [socket.on('disconnect-all')] *)
Definition onDisconnectAll (s : Main) : Main :=
  fold_left (fun acc w => terminate (worker w) acc)
            (map_values (activeWorkers s))
            (console_log "[main] Disconnecting all bots via dashboard command." s).

(** [socket.on('spawn-auth-bot')]; [rnd] is [Math.floor(Math.random() * 10000)]. *)
Definition onSpawnAuthBot (rev : Revision) (rnd : nat) (s : Main) : Main :=
  let tempUsername := ("AuthBot-" ++ showNat rnd)%string in
  emit (io_bot_online tempUsername "Authenticating...")
       (spawnWorkerFor rev tempUsername true s).

(** [io.on('connection')] up to the socket wiring. *)
Definition onConnection (rev : Revision) (s : Main) : Main :=
  let s1 := console_log "[Server] Web client connected" s in
  match rev with
  | Overhaul1 => emit (io_initial_accounts (map_keys (activeWorkers s1))) s1
  | Overhaul2 =>
      emit (io_initial_accounts
              (flat_map (fun w => match finalUsername w with
                                  | Some f => if truthyStr f then [f] else []
                                  | None => []
                                  end) (map_values (activeWorkers s1)))) s1
  end.

(** [readAccountsFile().forEach(u => spawnWorkerFor(u, false))] *)
Definition startup (rev : Revision) (accounts : list string) : Main :=
  fold_left (fun s u => spawnWorkerFor rev u false s) accounts initialMain.

(** What the main thread reacts to. *)
Inductive MainInput : Type :=
| in_connection
| in_spawn_auth_bot (rnd : nat)
| in_send_command (data : option Obj)
| in_send_chat (message : Value)
| in_disconnect_all
| in_worker_message (w : WorkerId) (msg : option WorkerMsg)
| in_worker_exit (w : WorkerId) (code : Z)
| in_worker_error (w : WorkerId) (err : JsError)
| in_respawn_timer (key : string).

(** One handler run on the control thread.  A worker event reaches the
    handlers wired for that worker at its spawn. *)
Definition step (rev : Revision) (s : Main) (i : MainInput) : Main :=
  match i with
  | in_connection => onConnection rev s
  | in_spawn_auth_bot rnd => onSpawnAuthBot rev rnd s
  | in_send_command data => onSendCommand rev data s
  | in_send_chat message => onSendChat message s
  | in_disconnect_all => onDisconnectAll s
  | in_worker_message w msg =>
      match nth_error (spawned s) w with
      | Some u => onMessage rev u msg s
      | None => s
      end
  | in_worker_exit w code =>
      match nth_error (spawned s) w with
      | Some u => onExit rev u code s
      | None => s
      end
  | in_worker_error w err =>
      match nth_error (spawned s) w with
      | Some u => onError u err s
      | None => s
      end
  | in_respawn_timer key => onRespawnTimer rev key s
  end.

Definition run (rev : Revision) (s : Main) (inputs : list MainInput) : Main :=
  fold_left (step rev) inputs s.

(** States the main thread can be in: the start-up state and every state a
    handler run leads to. *)
Inductive reachable (rev : Revision) : Main -> Prop :=
| reachable_startup (accounts : list string) :
    reachable rev (startup rev accounts)
| reachable_step (s : Main) (i : MainInput) :
    reachable rev s -> reachable rev (step rev s i).

(** ** Worker thread: configuration and the remote world *)

Record Config : Type := mkConfig {
  protectedNames : list string;
  cps : Q;
  clickDelay : Q;
  scanRadius : Q;
  maxDig : Q;
  trapBlock : string
}.

Definition sharedConfig (rev : Revision) : Config :=
  mkConfig
    ["light_gray_concrete"; "smooth_quartz_slab"; "water"; "barrier"; "bedrock"]
    (match rev with Overhaul1 => 13 | Overhaul2 => 20 end)%Q
    (match rev with Overhaul1 => 1000 / 13 | Overhaul2 => 1000 / 20 end)%Q
    8%Q
    8%Q
    "dirt".

Inductive BoundingBox : Type := box_block | box_empty.

Record BlockData : Type := blockData {
  b_name : string;
  b_type : Z;
  b_boundingBox : BoundingBox
}.

(** What [bot.blockAt] returns: the block and the grid position it sits at. *)
Record Block : Type := mkBlock { position : Vec3; data : BlockData }.

Definition name (b : Block) : string := b_name (data b).
Definition blockType (b : Block) : Z := b_type (data b).
Definition boundingBox (b : Block) : BoundingBox := b_boundingBox (data b).

(** The loaded part of the world; [None] where no chunk is loaded. *)
Definition World : Type := Vec3 -> option BlockData.

Definition setBlock (w : World) (p : Vec3) (d : BlockData) : World :=
  fun q => if Vec3_eqb q p then Some d else w q.

(** [bot.blockAt(point)] at a grid point, and at any point (floored). *)
Definition blockAt (w : World) (p : Vec3) : option Block :=
  option_map (mkBlock p) (w p).

Definition blockAtq (w : World) (p : Vec3q) : option Block :=
  blockAt w (floored p).

Record Entity : Type := mkEntity { e_position : Vec3q }.
Record Player : Type := mkPlayer { entity : option Entity }.

Record Item : Type := mkItem { i_type : Z; i_count : Z }.

Inductive Goal : Type :=
| GoalFollow (e : Entity) (range : Q)
| GoalBlock (x y z : Q)
| GoalXZ (x z : R).

(** Calls into the game client. *)
Inductive Action : Type :=
| act_setGoal (g : Goal) (dynamic : bool)
| act_stop
| act_lookAt (point : Vec3q)
| act_dig (b : Block)
| act_equip (item : Item)
| act_placeBlock (referenceBlock : Block) (faceVector : Vec3)
| act_setInventorySlot (slot : Z) (item : Item)
| act_chat (message : string)
| act_appendAccount (line : string).

(** What a worker is given and cannot decide itself. *)
Record Env : Type := mkEnv {
  initialUsername : string;                 (* workerData.username *)
  isAuthWorkerW : bool;                     (* workerData.isAuthWorker *)
  cfg : Config;                             (* workerData.sharedConfig *)
  blocksByName : string -> option Z;        (* mcData.blocksByName[n]?.id *)
  itemsByName : string -> option Z;         (* mcData.itemsByName[n]?.id *)
  remote : nat -> Action -> option JsError  (* rejection of the n-th call *)
}.

(** [new Set(cfg.protectedNames.map(n => mcData.blocksByName[n]?.id).filter(Boolean))] *)
Definition protectedIds (env : Env) : list Z :=
  flat_map (fun n => match blocksByName env n with
                     | Some id => if id =? 0 then [] else [id]
                     | None => []
                     end) (protectedNames (cfg env)).

(** [protectedIds.has(t)] *)
Definition setHas (ids : list Z) (t : Z) : bool := existsb (Z.eqb t) ids.

(** ** Worker thread: behaviour state *)

Inductive Mode : Type := follow | grief | trap | clearmap.

(** [bot.state] *)
Record BotState : Type := mkState {
  target : option string;
  mode : option Mode;
  lastDig : Z;
  clearMapAngle : R;
  isTrapping : bool
}.

Record Bot : Type := mkBot {
  state : BotState;
  botUsername : option string;          (* bot.username *)
  botEntity : option Entity;            (* bot.entity *)
  sprint : bool;                        (* bot.controlState.sprint *)
  goal : option Goal;                   (* goal held by the pathfinder *)
  isMoving : bool;                      (* bot.pathfinder.isMoving() *)
  players : string -> option Player;    (* bot.players[name], when truthy; a
                                           value with no entity, such as a
                                           listed player out of sight or an
                                           inherited property, has entity
                                           None *)
  world : World;
  inventory : list Item;
  creative : bool;                      (* truthiness of bot.creative *)
  sent : list WorkerMsg;                (* parentPort.postMessage, oldest first *)
  actions : list Action                 (* calls issued, oldest first *)
}.

Definition initialState : BotState := mkState None None 0 0%R false.

Definition withState (f : BotState -> BotState) (b : Bot) : Bot :=
  mkBot (f (state b)) (botUsername b) (botEntity b) (sprint b) (goal b)
        (isMoving b) (players b) (world b) (inventory b) (creative b) (sent b)
        (actions b).

Definition withSprint (v : bool) (b : Bot) : Bot :=
  mkBot (state b) (botUsername b) (botEntity b) v (goal b) (isMoving b)
        (players b) (world b) (inventory b) (creative b) (sent b) (actions b).

Definition withGoal (g : option Goal) (b : Bot) : Bot :=
  mkBot (state b) (botUsername b) (botEntity b) (sprint b) g (isMoving b)
        (players b) (world b) (inventory b) (creative b) (sent b) (actions b).

Definition withWorld (w : World) (b : Bot) : Bot :=
  mkBot (state b) (botUsername b) (botEntity b) (sprint b) (goal b) (isMoving b)
        (players b) w (inventory b) (creative b) (sent b) (actions b).

Definition withInventory (i : list Item) (b : Bot) : Bot :=
  mkBot (state b) (botUsername b) (botEntity b) (sprint b) (goal b) (isMoving b)
        (players b) (world b) i (creative b) (sent b) (actions b).

Definition pushSent (m : WorkerMsg) (b : Bot) : Bot :=
  mkBot (state b) (botUsername b) (botEntity b) (sprint b) (goal b) (isMoving b)
        (players b) (world b) (inventory b) (creative b) (sent b ++ [m])
        (actions b).

Definition pushAction (a : Action) (b : Bot) : Bot :=
  mkBot (state b) (botUsername b) (botEntity b) (sprint b) (goal b) (isMoving b)
        (players b) (world b) (inventory b) (creative b) (sent b)
        (actions b ++ [a]).

Definition setTarget (t : option string) (s : BotState) : BotState :=
  mkState t (mode s) (lastDig s) (clearMapAngle s) (isTrapping s).
Definition setMode (m : option Mode) (s : BotState) : BotState :=
  mkState (target s) m (lastDig s) (clearMapAngle s) (isTrapping s).
Definition setLastDig (t : Z) (s : BotState) : BotState :=
  mkState (target s) (mode s) t (clearMapAngle s) (isTrapping s).
Definition setClearMapAngle (a : R) (s : BotState) : BotState :=
  mkState (target s) (mode s) (lastDig s) a (isTrapping s).
Definition setIsTrapping (v : bool) (s : BotState) : BotState :=
  mkState (target s) (mode s) (lastDig s) (clearMapAngle s) v.

(** ** Worker thread: computations that may throw *)

Inductive Outcome (A : Type) : Type :=
| Done (a : A) (b : Bot)
| Raised (e : JsError) (b : Bot).
Arguments Done {A} a b.
Arguments Raised {A} e b.

Definition M (A : Type) : Type := Bot -> Outcome A.

Definition ret {A : Type} (a : A) : M A := fun b => Done a b.

Definition bind {A B : Type} (c : M A) (k : A -> M B) : M B :=
  fun b => match c b with
           | Done a b' => k a b'
           | Raised e b' => Raised e b'
           end.

Definition raise {A : Type} (e : JsError) : M A := fun b => Raised e b.

(** [try { c } catch (e) { handler(e) }] *)
Definition tryCatch {A : Type} (c : M A) (handler : JsError -> M A) : M A :=
  fun b => match c b with
           | Done a b' => Done a b'
           | Raised e b' => handler e b'
           end.

Definition get : M Bot := fun b => Done b b.
Definition modify (f : Bot -> Bot) : M unit := fun b => Done tt (f b).

Declare Scope js_scope.
Delimit Scope js_scope with js.
Notation "x <- c ;; k" := (bind c (fun x => k))
  (at level 61, c at next level, right associativity) : js_scope.
Notation "c ;; k" := (bind c (fun _ => k))
  (at level 61, right associativity) : js_scope.
Local Open Scope js_scope.

Definition finalBotOf {A : Type} (o : Outcome A) : Bot :=
  match o with Done _ b => b | Raised _ b => b end.

(** A block of the held material, as an accepted placement leaves it. *)
Definition placedBlock (env : Env) : BlockData :=
  blockData (trapBlock (cfg env))
            (match blocksByName env (trapBlock (cfg env)) with
             | Some id => id | None => 0 end)
            box_block.

Definition airBlock : BlockData := blockData "air" 0 box_empty.

(** What an accepted call changes on the worker's side. *)
Definition effect (env : Env) (a : Action) (b : Bot) : Bot :=
  match a with
  | act_setGoal g _ => withGoal (Some g) b
  | act_stop => withGoal None b
  | act_placeBlock referenceBlock faceVector =>
      withWorld (setBlock (world b) (plus (position referenceBlock) faceVector)
                          (placedBlock env)) b
  | act_dig blk => withWorld (setBlock (world b) (position blk) airBlock) b
  | act_setInventorySlot _ item => withInventory (item :: inventory b) b
  | act_lookAt _ | act_equip _ | act_chat _ | act_appendAccount _ => b
  end.

(** A call whose result is awaited (or that is synchronous): it is issued,
    then either throws or takes effect. *)
Definition call (env : Env) (a : Action) : M unit :=
  fun b =>
    let n := List.length (actions b) in
    let b1 := pushAction a b in
    match remote env n a with
    | Some e => Raised e b1
    | None => Done tt (effect env a b1)
    end.

(** [promise.catch(() => {})] without [await]: issued, never throws here. *)
Definition callDetached (a : Action) : M unit := modify (pushAction a).

(** [send(msg)] *)
Definition send (env : Env) (msg : MsgBody) : M unit :=
  fun b =>
    let botName :=
      match botUsername b with
      | Some n => if truthyStr n then n else initialUsername env
      | None => initialUsername env
      end in
    Done tt (pushSent (workerMsg msg (Some botName)) b).

Definition log (env : Env) (text : Text) : M unit := send env (log_msg text).
Definition err (env : Env) (e : JsError) : M unit :=
  send env (error_msg (StackText e)).
Definition updateStatus (env : Env) (status : string) : M unit :=
  send env (status_update status).

(** ** Worker thread: command handler *)

(** The command object as the handler reads it; [target] is a player name
    when present. *)
Record CommandMsg : Type := mkCommand {
  c_type : string;
  command : string;
  c_target : option string;
  c_angle : option R;
  c_message : string
}.

Definition upper (c : ascii) : ascii :=
  let n := nat_of_ascii c in
  if (97 <=? n)%nat && (n <=? 122)%nat then ascii_of_nat (n - 32) else c.

(** [s.charAt(0).toUpperCase() + s.slice(1)] *)
Definition capitalize (s : string) : string :=
  match s with
  | EmptyString => EmptyString
  | String c rest => String (upper c) rest
  end.

Definition modeOfCommand (c : string) : option Mode :=
  if (c =? "follow")%string then Some follow
  else if (c =? "grief")%string then Some grief
  else if (c =? "trap")%string then Some trap
  else None.

(** [resetState] *)
Definition resetState (rev : Revision) (env : Env) : M unit :=
  modify (withState (setTarget None));;
  modify (withState (setMode None));;
  modify (withState (setIsTrapping false));;
  match rev with
  | Overhaul1 => ret tt
  | Overhaul2 => modify (withSprint false)
  end;;
  call env act_stop;;
  updateStatus env "Idle".

Definition findInventoryItem (id : option Z) (b : Bot) : option Item :=
  match id with
  | Some id => find (fun it => i_type it =? id) (inventory b)
  | None => None
  end.

(** [getBlockInHand(itemName)] *)
Definition getBlockInHand (rev : Revision) (env : Env) (itemName : string)
  : M (option Item) :=
  match rev with
  | Overhaul1 =>
      b <- get;;
      match findInventoryItem (itemsByName env itemName) b with
      | Some item => ret (Some item)
      | None =>
          if creative b then
            tryCatch
              (match itemsByName env itemName with
               | None => raise (TypeError "itemsByName[itemName] is undefined")
               | Some id =>
                   call env (act_setInventorySlot 36 (mkItem id 64));;
                   log env (Str ("Gave myself a stack of " ++ itemName ++ "."));;
                   b' <- get;;
                   ret (findInventoryItem (Some id) b')
               end)
              (fun e => err env e;; ret None)
          else ret None
      end
  | Overhaul2 =>
      match itemsByName env itemName with
      | None => ret None
      | Some id =>
          b <- get;;
          match findInventoryItem (Some id) b with
          | Some item => ret (Some item)
          | None =>
              if creative b then
                tryCatch
                  (call env (act_setInventorySlot 36 (mkItem id 64));;
                   log env (Str ("Gave myself a stack of " ++ itemName ++ "."));;
                   b' <- get;;
                   ret (findInventoryItem (Some id) b'))
                  (fun e => err env e;; ret None)
              else ret None
          end
      end
  end.

(** [parentPort.on('message')]; [None] is a falsy message. *)
Definition onCommand (rev : Revision) (env : Env) (msg : option CommandMsg)
  : M unit :=
  b <- get;;
  match botEntity b, msg with
  | Some _, Some msg =>
      if negb (c_type msg =? "command")%string then ret tt
      else
        match modeOfCommand (command msg) with
        | Some m =>
            match c_target msg with
            | None => log env (Str "Target player name is required.")
            | Some targetName =>
                if negb (truthyStr targetName) then
                  log env (Str "Target player name is required.")
                else
                  match players b targetName with
                  | None =>
                      log env (Str ("Can't see target player " ++ targetName ++ "."))
                  | Some _ =>
                      resetState rev env;;
                      modify (withState (setTarget (Some targetName)));;
                      modify (withState (setMode (Some m)));;
                      log env (Str ("Executing '" ++ command msg ++ "' on "
                                    ++ targetName ++ "."));;
                      updateStatus env (capitalize (command msg) ++ "ing "
                                        ++ targetName);;
                      match rev, m with
                      | Overhaul1, trap =>
                          (* getBlockInHand is declared inside createBot and
                             is not in scope in this handler *)
                          raise (ReferenceError "getBlockInHand")
                      | _, _ => ret tt
                      end
                  end
            end
        | None =>
            if (command msg =? "clearmap")%string then
              resetState rev env;;
              modify (withState (setMode (Some clearmap)));;
              match c_angle msg with
              | Some angle =>
                  modify (withState (setClearMapAngle angle));;
                  log env (ClearmapText angle);;
                  updateStatus env "Clearing Map"
              | None => raise (TypeError "msg.angle is undefined")
              end
            else if (command msg =? "stop")%string then
              log env (Str "Stopping current action.");;
              resetState rev env
            else if (command msg =? "chat")%string then
              call env (act_chat (c_message msg))
            else ret tt
        end
  | _, _ => ret tt
  end.

(** ** Worker thread: target acquisition *)

(** [for (let d = -r; d <= r; d++)] *)
Definition uptoQ (r : Q) : list Q :=
  map (fun i => (- r + inject_Z (Z.of_nat i))%Q)
      (seq 0 (Z.to_nat (Qfloor (r + r) + 1))).

Definition offsetQ (a : Vec3q) (dx dy dz : Q) : Vec3q :=
  vec3q (qx a + dx) (qy a + dy) (qz a + dz).

(** The three nested loops of [griefLogic]: the blocks pushed, in push order. *)
Definition scanBlocks (ids : list Z) (w : World) (me targetPos : Vec3q)
    (scanRadius maxDig : Q) : list Block :=
  flat_map (fun dx =>
    flat_map (fun dy =>
      flat_map (fun dz =>
        let bpos := offsetQ targetPos dx dy dz in
        if distanceExceeds me bpos maxDig then []
        else
          match blockAtq w bpos with
          | None => []
          | Some b =>
              if (name b =? "air")%string || setHas ids (blockType b) then []
              else [b]
          end)
        (uptoQ scanRadius))
      (uptoQ scanRadius))
    (uptoQ scanRadius).

Section Sort.
Context {A : Type} (le : A -> A -> bool).

Fixpoint insertBy (x : A) (l : list A) : list A :=
  match l with
  | [] => [x]
  | y :: rest => if le x y then x :: l else y :: insertBy x rest
  end.

(** A stable sort, as [Array.prototype.sort] is. *)
Definition sortBy (l : list A) : list A := fold_right insertBy [] l.

(** The first element is not after any other. *)
Definition headFirst (l : list A) : Prop :=
  match l with
  | [] => True
  | x :: rest => forall y, In y rest -> le x y = true
  end.
End Sort.

(** [(a, b) => me.distanceTo(a.position) - me.distanceTo(b.position)] is not
    positive. *)
Definition nearerOrEqual (me : Vec3q) (a b : Block) : bool :=
  Qle_bool (distSq me (ofGrid (position a))) (distSq me (ofGrid (position b))).

(** Numbers the scope of [griefLogic] binds to a bare identifier.  depster.js
    binds none: [scanRadius], [maxDig] and [clickDelay] exist there only as
    properties of [sharedConfig], while [griefLogic] reads them as bare
    identifiers. *)
Definition bareIdentifiers : list (string * Q) := [].

Definition readIdentifier (x : string) : M Q :=
  match find (fun kv => (fst kv =? x)%string) bareIdentifiers with
  | Some kv => ret (snd kv)
  | None => raise (ReferenceError x)
  end.

Definition half : Q := (1 # 2)%Q.

(** [griefLogic(targetPos)]; [now] and [now'] are the readings of the first
    and the second [Date.now()]. *)
Definition griefLogic (rev : Revision) (env : Env) (now now' : Z)
    (targetPos : Vec3q) : M unit :=
  match rev with
  | Overhaul1 =>
      b <- get;;
      blocks <-
        match botEntity b with
        | Some me =>
            ret (sortBy (nearerOrEqual (e_position me))
                   (scanBlocks (protectedIds env) (world b) (e_position me)
                      targetPos (scanRadius (cfg env)) (maxDig (cfg env))))
        | None =>
            match uptoQ (scanRadius (cfg env)) with
            | [] => ret []
            | _ :: _ => raise (TypeError "bot.entity is undefined")
            end
        end;;
      match blocks with
      | [] => ret tt
      | blockToBreak :: _ =>
          if Qltb (inject_Z (now - lastDig (state b))) (clickDelay (cfg env))
          then ret tt
          else
            modify (withState (setLastDig now'));;
            tryCatch
              (call env (act_lookAt
                           (offsetQ (ofGrid (position blockToBreak)) half half half));;
               call env (act_dig blockToBreak))
              (fun _ => ret tt)
      end
  | Overhaul2 =>
      call env (act_setGoal (GoalBlock (qx targetPos) (qy targetPos) (qz targetPos))
                            true);;
      scanRadius <- readIdentifier "scanRadius";;
      b <- get;;
      blocks <-
        match uptoQ scanRadius with
        | [] => ret []
        | _ :: _ =>
            match botEntity b with
            | Some me =>
                maxDig <- readIdentifier "maxDig";;
                ret (sortBy (nearerOrEqual (e_position me))
                       (scanBlocks (protectedIds env) (world b) (e_position me)
                          targetPos scanRadius maxDig))
            | None => raise (TypeError "bot.entity is undefined")
            end
        end;;
      match blocks with
      | [] => ret tt
      | block :: _ =>
          clickDelay <- readIdentifier "clickDelay";;
          if Qltb (inject_Z (now - lastDig (state b))) clickDelay then ret tt
          else
            modify (withState (setLastDig now));;
            call env (act_lookAt
                        (offsetQ (ofGrid (position block)) half half half));;
            callDetached (act_dig block)
      end
  end.

(** ** Worker thread: structure planner *)

(** [adjacentOffsets] of depster.js. *)
Definition adjacentOffsets : list Vec3 :=
  [ vec3 0 (-1) 0; vec3 0 1 0; vec3 (-1) 0 0;
    vec3 1 0 0; vec3 0 0 (-1); vec3 0 0 1 ].

(** The neighbours part_000 reads for [placeAgainst], in the order of its
    [||] chain. *)
Definition placeAgainstOffsets : list Vec3 :=
  [ vec3 0 (-1) 0; vec3 1 0 0; vec3 (-1) 0 0; vec3 0 0 1; vec3 0 0 (-1) ].

(** [for (const adjOffset of adjacentOffsets)] of depster.js: place against
    the first solid neighbour that accepts, leaving the loop at the first
    accepted placement. *)
Fixpoint placeAgainstNeighbours (env : Env) (blockPos : Vec3)
    (adjs : list Vec3) : M unit :=
  match adjs with
  | [] => ret tt
  | adjOffset :: rest =>
      b <- get;;
      let referenceBlockPos := plus blockPos adjOffset in
      match blockAt (world b) referenceBlockPos with
      | Some referenceBlock =>
          match boundingBox referenceBlock with
          | box_block =>
              placed <-
                tryCatch
                  (let faceVector := scaled adjOffset (-1) in
                   call env (act_placeBlock referenceBlock faceVector);;
                   ret true)
                  (fun _ => ret false);;
              if placed then ret tt
              else placeAgainstNeighbours env blockPos rest
          | box_empty => placeAgainstNeighbours env blockPos rest
          end
      | None => placeAgainstNeighbours env blockPos rest
      end
  end.

(** [a || b || ...] over [bot.blockAt] results: the first loaded block. *)
Fixpoint firstLoaded (w : World) (ps : list Vec3) : option Block :=
  match ps with
  | [] => None
  | p :: rest =>
      match blockAt w p with
      | Some b => Some b
      | None => firstLoaded w rest
      end
  end.

(** Body of [for (const offset of trapOffsets)] for one offset. *)
Definition fillOffset (rev : Revision) (env : Env) (playerPos offset : Vec3)
  : M unit :=
  let blockPos := plus playerPos offset in
  b <- get;;
  match blockAt (world b) blockPos with
  | None => ret tt
  | Some block =>
      match rev with
      | Overhaul1 =>
          if (name block =? "air")%string then
            tryCatch
              (match firstLoaded (world b)
                       (map (plus blockPos) placeAgainstOffsets) with
               | Some placeAgainst =>
                   if negb (name placeAgainst =? "air")%string then
                     call env
                       (act_placeBlock placeAgainst
                          (scaled (minus offset
                                     (minus (position placeAgainst) playerPos))
                                  (-1)))
                   else ret tt
               | None => ret tt
               end)
              (fun _ => ret tt)
          else ret tt
      | Overhaul2 =>
          match boundingBox block with
          | box_empty => placeAgainstNeighbours env blockPos adjacentOffsets
          | box_block => ret tt
          end
      end
  end.

Fixpoint forEachOffset (rev : Revision) (env : Env) (playerPos : Vec3)
    (offsets : list Vec3) : M unit :=
  match offsets with
  | [] => ret tt
  | offset :: rest =>
      fillOffset rev env playerPos offset;;
      forEachOffset rev env playerPos rest
  end.

Definition showTarget (t : option string) : string :=
  match t with Some n => n | None => "null" end.

(** [trapLogic(targetEntity)] *)
Definition trapLogic (rev : Revision) (env : Env) (targetEntity : Entity)
  : M unit :=
  b <- get;;
  if isTrapping (state b) then ret tt
  else
    match botEntity b with
    | None => raise (TypeError "bot.entity is undefined")
    | Some me =>
        if distanceExceeds (e_position me) (e_position targetEntity) (9 # 2) then
          call env (act_setGoal (GoalFollow targetEntity (7 # 2)) true)
        else
          call env act_stop;;
          modify (withState (setIsTrapping true));;
          trapBlockItem <- getBlockInHand rev env (trapBlock (cfg env));;
          match trapBlockItem with
          | None =>
              log env (Str (match rev with
                            | Overhaul1 =>
                                "Cannot find " ++ trapBlock (cfg env)
                                ++ " to trap with."
                            | Overhaul2 =>
                                "Cannot find or get " ++ trapBlock (cfg env)
                                ++ " to trap with. Aborting."
                            end));;
              modify (withState (setIsTrapping false));;
              modify (withState (setMode None));;
              updateStatus env "Idle"
          | Some item =>
              call env (act_equip item);;
              let playerPos := floored (e_position targetEntity) in
              forEachOffset rev env playerPos (offsetsOf rev);;
              b' <- get;;
              log env (Str ("Trap for " ++ showTarget (target (state b'))
                            ++ " should be complete."));;
              modify (withState (setMode (Some follow)));;
              updateStatus env ("Following " ++ showTarget (target (state b')));;
              modify (withState (setIsTrapping false))
          end
    end.

(** ** Worker thread: tick handler *)

(** [targetName ? bot.players[targetName] : null], then [player?.entity]. *)
Definition resolveTarget (b : Bot) : option Entity :=
  match target (state b) with
  | Some targetName =>
      if truthyStr targetName then
        match players b targetName with
        | Some player => entity player
        | None => None
        end
      else None
  | None => None
  end.

(** [{ bot.state.mode = null; updateStatus('Idle'); return; }] *)
Definition goIdle (env : Env) : M unit :=
  modify (withState (setMode None));;
  updateStatus env "Idle".

(** Body of the [try] of [bot.on('physicsTick')]. *)
Definition tickBody (rev : Revision) (env : Env) (now now' : Z) : M unit :=
  b <- get;;
  match mode (state b) with
  | None => ret tt
  | Some m =>
      let player := resolveTarget b in
      match m with
      | follow =>
          match player with
          | None => goIdle env
          | Some e =>
              match rev with
              | Overhaul1 => call env (act_setGoal (GoalFollow e 2) true)
              | Overhaul2 =>
                  modify (withSprint true);;
                  call env (act_setGoal (GoalFollow e 1) true)
              end
          end
      | grief =>
          match player with
          | None => goIdle env
          | Some e =>
              match rev with
              | Overhaul1 =>
                  call env (act_setGoal
                              (GoalFollow e (maxDig (cfg env) - 1)%Q) true);;
                  griefLogic rev env now now' (e_position e)
              | Overhaul2 =>
                  modify (withSprint true);;
                  griefLogic rev env now now' (e_position e)
              end
          end
      | trap =>
          match player with
          | None => goIdle env
          | Some e => trapLogic rev env e
          end
      | clearmap =>
          match rev with
          | Overhaul1 => ret tt
          | Overhaul2 => modify (withSprint true)
          end;;
          if negb (isMoving b) then
            match botEntity b with
            | None => raise (TypeError "bot.entity is undefined")
            | Some me =>
                let angle := clearMapAngle (state b) in
                let newX := (Q2R (qx (e_position me)) + 10000 * cos angle)%R in
                let newZ := (Q2R (qz (e_position me)) + 10000 * sin angle)%R in
                call env (act_setGoal (GoalXZ newX newZ) false);;
                log env (Str "Set new distant goal in my assigned direction.")
            end
          else ret tt
      end
  end.

(** [bot.on('physicsTick')]: [try { ... } catch (e) { err(e); }] *)
Definition physicsTick (rev : Revision) (env : Env) (now now' : Z) : M unit :=
  tryCatch (tickBody rev env now now') (fun e => err env e).

(** The handler fired once per simulation step, with the clock readings of
    each step. *)
Fixpoint runTicks (rev : Revision) (env : Env) (clock : list (Z * Z)) : M unit :=
  match clock with
  | [] => ret tt
  | (now, now') :: rest =>
      physicsTick rev env now now';; runTicks rev env rest
  end.

(** [bot.once('spawn')]; the client has set [bot.username] to [name]. *)
Definition onSpawn (rev : Revision) (env : Env) (name : string) : M unit :=
  modify (fun b =>
            mkBot (state b) (Some name) (botEntity b) (sprint b) (goal b)
                  (isMoving b) (players b) (world b) (inventory b) (creative b)
                  (sent b) (actions b));;
  match rev with
  | Overhaul1 =>
      if isAuthWorkerW env then
        call env (act_appendAccount (name ++ newline));;
        send env (authenticated name None)
      else ret tt
  | Overhaul2 =>
      (if isAuthWorkerW env then call env (act_appendAccount (name ++ newline))
       else ret tt);;
      send env (authenticated name (Some (initialUsername env)))
  end;;
  log env (Str "Bot online.");;
  updateStatus env "Idle".

(** ** Predicates used in the statements *)

Definition ofType (t : OffsetType) (o : TrapOffset) : bool :=
  match t, type o with
  | floor, floor | wall, wall | roof, roof => true
  | _, _ => false
  end.

(** [-1 <= x <= 1] and [-1 <= z <= 1]. *)
Definition inSquare (v : Vec3) : bool :=
  (-1 <=? vx v) && (vx v <=? 1) && (-1 <=? vz v) && (vz v <=? 1).

(** On the column through the origin. *)
Definition onAxis (v : Vec3) : bool := (vx v =? 0) && (vz v =? 0).

(** Workers that hold an entry of the identity map, in map order. *)
Definition workersOf (m : JsMap WorkerInfo) : list WorkerId :=
  map (fun kv => worker (snd kv)) m.

(** Every worker holds at most one entry, and every entry is held by a
    worker that was created. *)
Definition wellKeyed (s : Main) : Prop :=
  NoDup (map_keys (activeWorkers s)) /\
  NoDup (workersOf (activeWorkers s)) /\
  Forall (fun w => (w < List.length (spawned s))%nat) (workersOf (activeWorkers s)).

(** The message a worker's [spawn] handler posts for [u] when the server
    names it [nickname]. *)
Definition authenticatedMsg (rev : Revision) (u : Unit) (nickname : string)
  : WorkerMsg :=
  workerMsg
    (authenticated nickname
       (match rev with
        | Overhaul1 => None
        | Overhaul2 => Some (username u)
        end))
    (Some (if truthyStr nickname then nickname else username u)).

(** ** Further notions used in the statements, and sample inputs *)

(** The command names nothing the player table holds: the target is missing,
    empty, or [bot.players[target]] is falsy. *)
Definition unresolvable (b : Bot) (msg : CommandMsg) : Prop :=
  match c_target msg with
  | None => True
  | Some t => truthyStr t = false \/ players b t = None
  end.

(** The named target is not currently visible to the unit: it is missing or
    empty, the player table holds nothing under the name, or what it holds
    has no entity. *)
Definition notVisible (b : Bot) (msg : CommandMsg) : Prop :=
  match c_target msg with
  | None => True
  | Some t =>
      truthyStr t = false \/
      match players b t with
      | Some p => entity p = None
      | None => True
      end
  end.

(** The name [send] tags a message with. *)
Definition senderName (env : Env) (b : Bot) : string :=
  match botUsername b with
  | Some n => if truthyStr n then n else initialUsername env
  | None => initialUsername env
  end.

Definition quietRemote : nat -> Action -> option JsError := fun _ _ => None.

Definition sampleEnv (rev : Revision) : Env :=
  mkEnv "Alice" false (sharedConfig rev)
        (fun n => if (n =? "bedrock")%string then Some 7 else
                  if (n =? "water")%string then Some 9 else None)
        (fun n => if (n =? "dirt")%string then Some 3 else None)
        quietRemote.

Definition noWorld : World := fun _ => None.

Definition sampleBot (st : BotState) (w : World) (inv : list Item) : Bot :=
  mkBot st (Some "Alice") (Some (mkEntity (vec3q 0 0 0))) false None false
        (fun _ => None) w inv false [] [].

Definition isIdleStatus (m : WorkerMsg) : bool :=
  match body m with
  | status_update s => (s =? "Idle")%string
  | _ => false
  end.

(** A list without repetition, decided by comparing positions. *)
Fixpoint distinctPositions (l : list Vec3) : bool :=
  match l with
  | [] => true
  | v :: rest => negb (existsb (Vec3_eqb v) rest) && distinctPositions rest
  end.

Definition isDig (a : Action) : bool :=
  match a with act_dig _ => true | _ => false end.

Definition isLookAt (a : Action) : bool :=
  match a with act_lookAt _ => true | _ => false end.

(** Number of destructive calls among the calls issued. *)
Definition digs (l : list Action) : nat := List.length (filter isDig l).

Definition looks (l : list Action) : nat := List.length (filter isLookAt l).

(** The blocks the scan of part_000 pushes for the bot at [me]. *)
Definition found (env : Env) (b : Bot) (me : Entity) (targetPos : Vec3q)
  : list Block :=
  scanBlocks (protectedIds env) (world b) (e_position me) targetPos
             (scanRadius (cfg env)) (maxDig (cfg env)).

Definition lookAtBlock (blk : Block) : Action :=
  act_lookAt (offsetQ (ofGrid (position blk)) half half half).

(** The interval since the last recorded action is shorter than
    [clickDelay]. *)
Definition tooSoon (env : Env) (b : Bot) (now : Z) : bool :=
  Qltb (inject_Z (now - lastDig (state b))) (clickDelay (cfg env)).

Definition sampleWorld : World :=
  fun p =>
    if Vec3_eqb p (vec3 2 0 0) then Some (blockData "stone" 1 box_block)
    else if Vec3_eqb p (vec3 3 0 0) then Some (blockData "stone" 1 box_block)
    else if Vec3_eqb p (vec3 0 (-1) 0) then Some (blockData "bedrock" 7 box_block)
    else Some airBlock.

Definition bob : Entity := mkEntity (vec3q (1 # 2) 0 (1 # 2)).

(** [bot.players] when Bob alone is visible. *)
Definition seeingBob : string -> option Player :=
  fun n => if (n =? "Bob")%string then Some (mkPlayer (Some bob)) else None.

(** [bot.players] when Bob is listed but out of sight: the entry has no
    entity. *)
Definition listingBob : string -> option Player :=
  fun n => if (n =? "Bob")%string then Some (mkPlayer None) else None.

(** An idle bot for which Bob is listed but out of sight. *)
Definition blindBot : Bot :=
  mkBot initialState (Some "Alice") (Some (mkEntity (vec3q 0 0 0))) false None
        false listingBob (fun _ => None) [] false [] [].

(** An idle bot that sees Bob. *)
Definition idleBot : Bot :=
  mkBot initialState (Some "Alice") (Some (mkEntity (vec3q 0 0 0))) false None
        false seeingBob (fun _ => None) [] false [] [].

(** The same bot once Bob is out of sight. *)
Definition losingSight (b : Bot) : Bot :=
  mkBot (state b) (botUsername b) (botEntity b) (sprint b) (goal b) (isMoving b)
        (fun _ => None) (world b) (inventory b) (creative b) (sent b) (actions b).

(** A bot at the origin griefing around Bob, in [sampleWorld]. *)
Definition griefBot : Bot :=
  mkBot (mkState (Some "Bob") (Some grief) 0 0%R false)
        (Some "Alice") (Some (mkEntity (vec3q 0 0 0))) false None false
        seeingBob sampleWorld [] false [] [].

Definition stoneAt2 : Block := mkBlock (vec3 2 0 0) (blockData "stone" 1 box_block).

(** The cell holds a block with a full bounding box. *)
Definition solidAt (w : World) (p : Vec3) : Prop :=
  exists d, w p = Some d /\ b_boundingBox d = box_block.

(** The cell is loaded and holds a block with an empty bounding box. *)
Definition emptyAt (w : World) (p : Vec3) : Prop :=
  exists d, w p = Some d /\ b_boundingBox d = box_empty.

(** A floor of stone at y = -1 and air everywhere else. *)
Definition platformWorld : World :=
  fun p => if vy p =? -1 then Some (blockData "stone" 1 box_block)
           else Some airBlock.

(** A bot two cells from Bob, holding dirt, told to trap Bob. *)
Definition trapBot : Bot :=
  mkBot (mkState (Some "Bob") (Some trap) 0 0%R false)
        (Some "Alice") (Some (mkEntity (vec3q (5 # 2) 0 (1 # 2)))) false None false
        seeingBob platformWorld [mkItem 3 64] false [] [].



(** A remote world that rejects every placement against the block at
    (0,-1,-1) and nothing else. *)
Definition rejectAgainstFloorCell : nat -> Action -> option JsError :=
  fun n a => match a with
             | act_placeBlock ref _ =>
                 if Vec3_eqb (position ref) (vec3 0 (-1) (-1))
                 then Some (RemoteError n) else None
             | _ => None
             end.

Definition retryEnv : Env :=
  mkEnv "Alice" false (sharedConfig Overhaul2)
        (fun _ => None)
        (fun n => if (n =? "dirt")%string then Some 3 else None)
        rejectAgainstFloorCell.

(** Cells at which the calls issued so far place a block. *)
Definition placementCells (l : list Action) : list Vec3 :=
  flat_map (fun a => match a with
                     | act_placeBlock ref face => [plus (position ref) face]
                     | _ => []
                     end) l.





(** ** Further handlers of the worker, and notions for further properties *)

(** [bot.on('end')]: the line is logged, then [process.exit(1)]; the value is
    the exit code the main thread is handed. *)
Definition onEnd (env : Env) (reason : string) : M Z :=
  log env (Str ("Disconnected: " ++ reason ++ "."));;
  ret 1.

(** [bot.on('microsoft-auth-required')] *)
Definition onAuthRequired (env : Env) (verification_uri user_code : string)
  : M unit :=
  send env (auth_link verification_uri user_code).

(** The handles of a list in the order of their first occurrence. *)
Definition firstOccurrences (l : list string) : list string :=
  fold_left (fun acc x => if existsb (String.eqb x) acc then acc else acc ++ [x])
            l [].

(** Whether a message is an [authenticated] message. *)
Definition isAuthenticated (msg : option WorkerMsg) : bool :=
  match msg with
  | Some m => match body m with authenticated _ _ => true | _ => false end
  | None => false
  end.

(** What every state of the main thread satisfies besides [wellKeyed]: a
    worker's closure sits at the index that is its id; every timer runs for
    [respawnDelay]; messages are posted to, and termination asked of, workers
    that were created. *)
Definition wellFormed (s : Main) : Prop :=
  wellKeyed s /\
  (forall w u, nth_error (spawned s) w = Some u -> u_worker u = w) /\
  Forall (fun t => fst t = respawnDelay) (timers s) /\
  Forall (fun p => (fst p < List.length (spawned s))%nat) (posted s) /\
  Forall (fun w => (w < List.length (spawned s))%nat) (terminated s).

Definition isEquip (a : Action) : bool :=
  match a with act_equip _ => true | _ => false end.

Definition isPlace (a : Action) : bool :=
  match a with act_placeBlock _ _ => true | _ => false end.

(** The main thread handling, in order, the messages a worker posted. *)
Definition deliver (rev : Revision) (u : Unit) (msgs : list WorkerMsg) (s : Main)
  : Main :=
  fold_left (fun acc m => onMessage rev u (Some m) acc) msgs s.

(** The messages of one kind a worker posted. *)
Definition statuses (l : list WorkerMsg) : list string :=
  flat_map (fun m => match body m with status_update t => [t] | _ => [] end) l.

(* ================================================================== *)
(** * Properties *)

(** ** Vectors *)

Lemma Vec3_eqb_eq a b : Vec3_eqb a b = true <-> a = b.
Proof.
  destruct a as [ax ay az], b as [bx by_ bz]. unfold Vec3_eqb; simpl.
  rewrite !andb_true_iff, !Z.eqb_eq. split.
  - intros [[-> ->] ->]. reflexivity.
  - intros [= -> -> ->]. tauto.
Qed.


(** ** Identity map *)

Section JsMapFacts.
Context {V : Type}.
Implicit Types (m : JsMap V) (k : string) (v : V).

Lemma map_get_set_same k v m : map_get k (map_set k v m) = Some v.
Proof.
  induction m as [|[k' v'] m IH]; simpl.
  - now rewrite String.eqb_refl.
  - destruct (k' =? k)%string eqn:E; simpl.
    + now rewrite String.eqb_refl.
    + now rewrite E.
Qed.

Lemma map_get_set_other k k' v m :
  k' <> k -> map_get k' (map_set k v m) = map_get k' m.
Proof.
  intros Hne. induction m as [|[k0 v0] m IH]; simpl.
  - destruct (k =? k')%string eqn:E; [|reflexivity].
    apply String.eqb_eq in E. congruence.
  - destruct (k0 =? k)%string eqn:E; simpl.
    + apply String.eqb_eq in E. subst k0.
      destruct (k =? k')%string eqn:E'; [|reflexivity].
      apply String.eqb_eq in E'. congruence.
    + destruct (k0 =? k')%string; [reflexivity|exact IH].
Qed.

Lemma map_get_In k v m : map_get k m = Some v -> In (k, v) m.
Proof.
  induction m as [|[k' v'] m IH]; simpl; [discriminate|].
  destruct (k' =? k)%string eqn:E.
  - apply String.eqb_eq in E. intros [= ->]. subst. now left.
  - intros H. right. now apply IH.
Qed.

Lemma map_delete_In kv k m : In kv (map_delete k m) -> In kv m.
Proof.
  induction m as [|[k' v'] m IH]; simpl; [tauto|].
  destruct (k' =? k)%string; simpl; intuition.
Qed.

Lemma map_set_In kv k v m : In kv (map_set k v m) -> kv = (k, v) \/ In kv m.
Proof.
  induction m as [|[k' v'] m IH]; simpl.
  - intuition.
  - destruct (k' =? k)%string; simpl; intuition.
Qed.

(** Keys are unique in every map built by [set] and [delete]. *)
Lemma map_set_keys_NoDup k v m :
  NoDup (map_keys m) -> NoDup (map_keys (map_set k v m)).
Proof.
  unfold map_keys. induction m as [|[k' v'] m IH]; simpl; intros Hnd.
  - constructor; [tauto|constructor].
  - inversion Hnd as [|? ? Hnin Hnd']; subst.
    destruct (k' =? k)%string eqn:E; simpl.
    + apply String.eqb_eq in E. subst. now constructor.
    + constructor; [|now apply IH].
      intros Hin. apply in_map_iff in Hin as [[k0 v0] [Hk Hin]].
      simpl in Hk. subst k0. apply map_set_In in Hin as [Heq|Hin].
      * inversion Heq; subst. now rewrite String.eqb_refl in E.
      * apply Hnin. apply in_map_iff. now exists (k', v0).
Qed.

Lemma map_delete_keys_NoDup k m :
  NoDup (map_keys m) -> NoDup (map_keys (map_delete k m)).
Proof.
  unfold map_keys. induction m as [|[k' v'] m IH]; simpl; intros Hnd.
  - constructor.
  - inversion Hnd as [|? ? Hnin Hnd']; subst.
    destruct (k' =? k)%string; simpl; [assumption|].
    constructor; [|now apply IH].
    intros Hin. apply Hnin. apply in_map_iff in Hin as [kv [Hk Hin]].
    apply in_map_iff. exists kv. split; [assumption|].
    now apply map_delete_In in Hin.
Qed.

Lemma map_get_delete_same k m :
  NoDup (map_keys m) -> map_get k (map_delete k m) = None.
Proof.
  unfold map_keys. induction m as [|[k' v'] m IH]; simpl; intros Hnd.
  - reflexivity.
  - inversion Hnd as [|? ? Hnin Hnd']; subst.
    destruct (k' =? k)%string eqn:E; simpl.
    + apply String.eqb_eq in E. subst k'.
      destruct (map_get k m) eqn:G; [|reflexivity].
      exfalso. apply Hnin. apply map_get_In in G.
      apply in_map_iff. now exists (k, v).
    + rewrite E. now apply IH.
Qed.

Lemma map_get_delete_other k k' m :
  k' <> k -> map_get k' (map_delete k m) = map_get k' m.
Proof.
  intros Hne. induction m as [|[k0 v0] m IH]; simpl; [reflexivity|].
  destruct (k0 =? k)%string eqn:E; simpl.
  - apply String.eqb_eq in E. subst k0.
    destruct (k =? k')%string eqn:E'; [|reflexivity].
    apply String.eqb_eq in E'. congruence.
  - destruct (k0 =? k')%string; [reflexivity|exact IH].
Qed.
End JsMapFacts.

Lemma workersOf_delete_incl k m w :
  In w (workersOf (map_delete k m)) -> In w (workersOf m).
Proof.
  unfold workersOf. intros H. apply in_map_iff in H as [kv [Hw Hin]].
  apply in_map_iff. exists kv. split; [assumption|].
  now apply map_delete_In in Hin.
Qed.

Lemma workersOf_delete_NoDup k m :
  NoDup (workersOf m) -> NoDup (workersOf (map_delete k m)).
Proof.
  unfold workersOf. induction m as [|[k' v'] m IH]; simpl; intros Hnd.
  - constructor.
  - inversion Hnd as [|? ? Hnin Hnd']; subst.
    destruct (k' =? k)%string; simpl; [assumption|].
    constructor; [|now apply IH].
    intros Hin. apply Hnin. now apply workersOf_delete_incl in Hin.
Qed.

(** Once an entry is deleted, its worker holds no entry. *)
Lemma workersOf_delete_gone k e m :
  NoDup (workersOf m) -> map_get k m = Some e ->
  ~ In (worker e) (workersOf (map_delete k m)).
Proof.
  unfold workersOf. induction m as [|[k' v'] m IH]; simpl; intros Hnd Hget.
  - discriminate.
  - inversion Hnd as [|? ? Hnin Hnd']; subst.
    destruct (k' =? k)%string eqn:E; simpl.
    + now inversion Hget; subst.
    + intros [Heq|Hin].
      * apply Hnin. rewrite Heq. apply map_get_In in Hget.
        apply in_map_iff. now exists (k, e).
      * now apply (IH Hnd' Hget).
Qed.

Lemma workersOf_set_incl k v m w :
  In w (workersOf (map_set k v m)) -> w = worker v \/ In w (workersOf m).
Proof.
  unfold workersOf. intros H. apply in_map_iff in H as [kv [Hw Hin]].
  apply map_set_In in Hin as [->|Hin]; [now left|].
  right. apply in_map_iff. now exists kv.
Qed.

Lemma workersOf_set_NoDup k v m :
  NoDup (workersOf m) -> ~ In (worker v) (workersOf m) ->
  NoDup (workersOf (map_set k v m)).
Proof.
  unfold workersOf. induction m as [|[k' v'] m IH]; simpl; intros Hnd Hfresh.
  - constructor; [tauto|constructor].
  - inversion Hnd as [|? ? Hnin Hnd']; subst.
    destruct (k' =? k)%string; simpl.
    + constructor; [tauto|assumption].
    + constructor; [|apply IH; tauto].
      intros Hin. apply workersOf_set_incl in Hin as [Heq|Hin]; [|tauto].
      apply Hfresh. now left.
Qed.

(** Writing a field of the entry a key holds leaves the workers as they are. *)
Lemma workersOf_set_same_worker k e e' m :
  map_get k m = Some e -> worker e' = worker e ->
  workersOf (map_set k e' m) = workersOf m.
Proof.
  unfold workersOf. induction m as [|[k' v'] m IH]; simpl; intros Hget Hw.
  - discriminate.
  - destruct (k' =? k)%string eqn:E; simpl.
    + inversion Hget; subst. now rewrite Hw.
    + f_equal. now apply IH.
Qed.

Lemma NoDup_map_eq {A B : Type} (f : A -> B) (l : list A) (x y : A) :
  NoDup (map f l) -> In x l -> In y l -> f x = f y -> x = y.
Proof.
  induction l as [|a l IH]; simpl; intros Hnd Hx Hy Hf; [tauto|].
  inversion Hnd as [|? ? Hnin Hnd']; subst.
  destruct Hx as [->|Hx], Hy as [->|Hy]; try reflexivity.
  - exfalso. apply Hnin. rewrite Hf. now apply in_map.
  - exfalso. apply Hnin. rewrite <- Hf. now apply in_map.
  - now apply IH.
Qed.

(** A worker that holds an entry holds it under one key only. *)
Lemma one_key_per_worker m k1 k2 e1 e2 :
  NoDup (workersOf m) ->
  map_get k1 m = Some e1 -> map_get k2 m = Some e2 ->
  worker e1 = worker e2 -> k1 = k2.
Proof.
  intros Hnd H1 H2 Hw.
  apply map_get_In in H1. apply map_get_In in H2.
  assert (E : (k1, e1) = (k2, e2)).
  { eapply (NoDup_map_eq (fun kv => worker (snd kv))); eauto. }
  congruence.
Qed.

(** ** The invariant of the main thread *)

Lemma wellKeyed_same s s' :
  activeWorkers s' = activeWorkers s -> spawned s' = spawned s ->
  wellKeyed s -> wellKeyed s'.
Proof. unfold wellKeyed. intros -> ->. tauto. Qed.

Lemma post_fold_fields msg l s :
  let s' := fold_left (fun acc w => postMessage (worker w) msg acc) l s in
  activeWorkers s' = activeWorkers s /\
  spawned s' = spawned s /\
  emitted s' = emitted s /\
  timers s' = timers s /\
  posted s' = posted s ++ map (fun w => (worker w, msg)) l.
Proof.
  revert s. induction l as [|w l IH]; intros s; simpl.
  - now rewrite app_nil_r.
  - destruct (IH (postMessage (worker w) msg s)) as (Ha & Hs & He & Ht & Hp).
    rewrite Ha, Hs, He, Ht, Hp. simpl. now rewrite <- app_assoc.
Qed.

Lemma postAll_fields msg s :
  activeWorkers (postAll msg s) = activeWorkers s /\
  spawned (postAll msg s) = spawned s /\
  emitted (postAll msg s) = emitted s /\
  timers (postAll msg s) = timers s /\
  posted (postAll msg s)
  = posted s ++ map (fun w => (worker w, msg)) (map_values (activeWorkers s)).
Proof. apply post_fold_fields. Qed.

Lemma forEachIndexed_fields ws i n s :
  activeWorkers (forEachIndexed ws i n s) = activeWorkers s /\
  spawned (forEachIndexed ws i n s) = spawned s /\
  emitted (forEachIndexed ws i n s) = emitted s /\
  timers (forEachIndexed ws i n s) = timers s /\
  posted (forEachIndexed ws i n s)
  = posted s ++ map (fun jw => (snd jw, clearmapMessage (sweepAngle (fst jw) n)))
                    (combine (seq i (List.length ws)) ws).
Proof.
  revert i s. induction ws as [|w ws IH]; intros i s; simpl.
  - now rewrite app_nil_r.
  - destruct (IH (S i) (postMessage w (clearmapMessage (sweepAngle i n)) s))
      as (Ha & Hs & He & Ht & Hp).
    rewrite Ha, Hs, He, Ht, Hp. simpl. now rewrite <- app_assoc.
Qed.

Lemma terminate_fold_fields l s :
  let s' := fold_left (fun acc w => terminate (worker w) acc) l s in
  activeWorkers s' = activeWorkers s /\ spawned s' = spawned s.
Proof.
  revert s. induction l as [|w l IH]; intros s; simpl.
  - tauto.
  - destruct (IH (terminate (worker w) s)) as (Ha & Hs). now rewrite Ha, Hs.
Qed.

Lemma onDisconnectAll_fields s :
  activeWorkers (onDisconnectAll s) = activeWorkers s /\
  spawned (onDisconnectAll s) = spawned s.
Proof.
  unfold onDisconnectAll.
  destruct (terminate_fold_fields (map_values (activeWorkers s))
              (console_log "[main] Disconnecting all bots via dashboard command." s))
    as (Ha & Hs).
  now rewrite Ha, Hs.
Qed.

Lemma wellKeyed_initial : wellKeyed initialMain.
Proof. repeat split; simpl; constructor. Qed.

Lemma wellKeyed_spawn rev name auth s :
  wellKeyed s -> wellKeyed (spawnWorkerFor rev name auth s).
Proof.
  intros (Hk & Hw & Hlt). unfold spawnWorkerFor.
  destruct (map_has name (activeWorkers s)) eqn:Hhas.
  - repeat split; assumption.
  - unfold wellKeyed; simpl. rewrite length_app; simpl.
    assert (Hfresh : ~ In (List.length (spawned s)) (workersOf (activeWorkers s))).
    { intros Hin. rewrite Forall_forall in Hlt. apply Hlt in Hin. lia. }
    repeat split.
    + now apply map_set_keys_NoDup.
    + now apply workersOf_set_NoDup.
    + rewrite Forall_forall in *. intros w Hin.
      apply workersOf_set_incl in Hin as [->|Hin]; simpl.
      * lia.
      * apply Hlt in Hin. lia.
Qed.

Lemma wellKeyed_delete k s :
  wellKeyed s -> wellKeyed (setActiveWorkers (map_delete k (activeWorkers s)) s).
Proof.
  intros (Hk & Hw & Hlt). unfold wellKeyed; simpl. repeat split.
  - now apply map_delete_keys_NoDup.
  - now apply workersOf_delete_NoDup.
  - rewrite Forall_forall in *. intros w Hin.
    apply Hlt. now apply workersOf_delete_incl in Hin.
Qed.

(** Moving the entry held under [k] to the key [k']. *)
Lemma wellKeyed_rekey k k' e e' s :
  wellKeyed s -> map_get k (activeWorkers s) = Some e -> worker e' = worker e ->
  wellKeyed (setActiveWorkers
               (map_set k' e' (map_delete k (activeWorkers s))) s).
Proof.
  intros (Hk & Hw & Hlt) Hget Hwe. unfold wellKeyed; simpl. repeat split.
  - now apply map_set_keys_NoDup, map_delete_keys_NoDup.
  - apply workersOf_set_NoDup.
    + now apply workersOf_delete_NoDup.
    + rewrite Hwe. now apply workersOf_delete_gone.
  - rewrite Forall_forall in *. intros w Hin.
    apply workersOf_set_incl in Hin as [->|Hin].
    + apply Hlt. rewrite Hwe. apply map_get_In in Hget.
      unfold workersOf. apply in_map_iff. now exists (k, e).
    + apply Hlt. now apply workersOf_delete_incl in Hin.
Qed.

Lemma wellKeyed_update k e e' s :
  wellKeyed s -> map_get k (activeWorkers s) = Some e -> worker e' = worker e ->
  wellKeyed (setActiveWorkers (map_set k e' (activeWorkers s)) s).
Proof.
  intros (Hk & Hw & Hlt) Hget Hwe. unfold wellKeyed; simpl.
  rewrite (workersOf_set_same_worker k e e') by assumption.
  repeat split; try assumption. now apply map_set_keys_NoDup.
Qed.

Lemma wellKeyed_onAuthenticated rev u nickname initial s :
  wellKeyed s -> wellKeyed (onAuthenticated rev u nickname initial s).
Proof.
  intros Hwk. destruct rev; simpl.
  - apply (wellKeyed_same _ _ eq_refl eq_refl).
    destruct (negb (username u =? nickname)%string
              && map_has (username u) (activeWorkers s)); [|assumption].
    destruct (map_get (username u) (activeWorkers s)) eqn:Hget; [|assumption].
    now apply (wellKeyed_rekey _ _ w).
  - apply (wellKeyed_same _ _ eq_refl eq_refl).
    destruct initial as [initial|]; [|assumption].
    destruct (map_get initial (activeWorkers s)) as [e|] eqn:Hget; [|assumption].
    pose proof (wellKeyed_update initial e (workerInfo (worker e) (Some nickname)) s
                  Hwk Hget eq_refl) as Hwk1.
    destruct (isAuthWorker u); [|assumption].
    apply (wellKeyed_same
             (setActiveWorkers
                (map_set nickname (workerInfo (worker e) (Some nickname))
                   (map_delete initial
                      (activeWorkers
                         (setActiveWorkers
                            (map_set initial (workerInfo (worker e) (Some nickname))
                               (activeWorkers s)) s))))
                (setActiveWorkers
                   (map_set initial (workerInfo (worker e) (Some nickname))
                      (activeWorkers s)) s))); try reflexivity.
    apply (wellKeyed_rekey initial nickname (workerInfo (worker e) (Some nickname)));
      [assumption| |reflexivity].
    simpl. apply map_get_set_same.
Qed.

Lemma wellKeyed_onMessage rev u msg s :
  wellKeyed s -> wellKeyed (onMessage rev u msg s).
Proof.
  intros Hwk. unfold onMessage. destruct msg as [m|]; [|assumption].
  destruct (body m); cbv zeta;
    try (apply (wellKeyed_same s); [reflexivity|reflexivity|assumption]).
  - now apply wellKeyed_onAuthenticated.
  - destruct rev; [apply (wellKeyed_same s); [reflexivity..|assumption]|].
    destruct (match map_get _ _ with Some e => Some e | None => _ end);
      [apply (wellKeyed_same s); [reflexivity..|assumption]|assumption].
  - now destruct (truthyStr type0).
Qed.

Lemma wellKeyed_onExit rev u code s :
  wellKeyed s -> wellKeyed (onExit rev u code s).
Proof.
  intros Hwk. unfold onExit.
  destruct (findExited (u_worker u) (activeWorkers s)) as [[k info]|]; [|assumption].
  destruct (truthyStr k); [|assumption].
  pose proof (wellKeyed_delete k s Hwk) as Hd.
  destruct rev, (negb (code =? 0) && negb (isAuthWorker u));
    (eapply wellKeyed_same; [| |exact Hd]; reflexivity).
Qed.

Lemma wellKeyed_step rev s i : wellKeyed s -> wellKeyed (step rev s i).
Proof.
  intros Hwk. destruct i as [|rnd|d|message| |w msg|w code|w er|key]; simpl.
  - destruct rev; (eapply wellKeyed_same; [| |exact Hwk]; reflexivity).
  - unfold onSpawnAuthBot.
    eapply wellKeyed_same; [| |apply wellKeyed_spawn; exact Hwk]; reflexivity.
  - unfold onSendCommand. destruct d as [d|]; [|assumption].
    destruct (negb (truthy (getProp "command" d))); [assumption|].
    destruct (isStr (getProp "command" d) "clearmap").
    + match goal with
      | |- wellKeyed (forEachIndexed ?ws ?i ?n ?s1) =>
          destruct (forEachIndexed_fields ws i n s1) as (Ha & Hs & _)
      end.
      eapply wellKeyed_same; [exact Ha|exact Hs|].
      eapply wellKeyed_same; [| |exact Hwk]; reflexivity.
    + match goal with
      | |- wellKeyed (postAll ?m ?s1) =>
          destruct (postAll_fields m s1) as (Ha & Hs & _)
      end.
      eapply wellKeyed_same; [exact Ha|exact Hs|].
      eapply wellKeyed_same; [| |exact Hwk]; reflexivity.
  - unfold onSendChat.
    match goal with
    | |- wellKeyed (postAll ?m ?s1) =>
        destruct (postAll_fields m s1) as (Ha & Hs & _)
    end.
    eapply wellKeyed_same; [exact Ha|exact Hs|].
    eapply wellKeyed_same; [| |exact Hwk]; reflexivity.
  - destruct (onDisconnectAll_fields s) as (Ha & Hs).
    eapply wellKeyed_same; [exact Ha|exact Hs|exact Hwk].
  - destruct (nth_error (spawned s) w); [|assumption].
    now apply wellKeyed_onMessage.
  - destruct (nth_error (spawned s) w); [|assumption].
    now apply wellKeyed_onExit.
  - destruct (nth_error (spawned s) w); [|assumption].
    eapply wellKeyed_same; [| |exact Hwk]; reflexivity.
  - unfold onRespawnTimer. apply wellKeyed_spawn.
    eapply wellKeyed_same; [| |exact Hwk]; reflexivity.
Qed.

Lemma wellKeyed_startup rev accounts : wellKeyed (startup rev accounts).
Proof.
  unfold startup. generalize wellKeyed_initial. generalize initialMain.
  induction accounts as [|a l IH]; intros s Hs; simpl; [assumption|].
  apply IH. now apply wellKeyed_spawn.
Qed.

(** Every state of the main thread is well keyed. *)
Lemma reachable_wellKeyed rev s : reachable rev s -> wellKeyed s.
Proof.
  induction 1 as [accounts|s i _ IH].
  - apply wellKeyed_startup.
  - now apply wellKeyed_step.
Qed.

(** ** Re-keying on authentication *)

Lemma onAuthenticated_map rev u F s e :
  map_get (username u) (activeWorkers s) = Some e ->
  isAuthWorker u = true ->
  activeWorkers
    (onMessage rev u (Some (authenticatedMsg rev u F)) s)
  = match rev with
    | Overhaul1 =>
        if (username u =? F)%string then activeWorkers s
        else map_set F e (map_delete (username u) (activeWorkers s))
    | Overhaul2 =>
        map_set F (workerInfo (worker e) (Some F))
          (map_delete (username u)
             (map_set (username u) (workerInfo (worker e) (Some F))
                (activeWorkers s)))
    end.
Proof.
  intros Hget Hauth. destruct rev; simpl.
  - unfold map_has. rewrite Hget.
    now destruct (username u =? F)%string.
  - now rewrite Hget, Hauth.
Qed.

(** C2 (amended).  When the main thread handles the [authenticated] message of
    an authentication-flow unit registered under its initial handle [H], with
    final handle [F]: afterwards the identity map holds [F] for that same
    worker; if [F] differs from [H] it no longer holds [H]; and both before
    and after the handler run the worker holds exactly one entry (under [H]
    before, under [F] after).  The handler runs to completion on the control
    thread, so no other state of the map is observed. *)
Theorem authenticated_rekeys_identity_map :
  forall (rev : Revision) (s : Main) (u : Unit) (F : string) (e : WorkerInfo),
    reachable rev s ->
    isAuthWorker u = true ->
    map_get (username u) (activeWorkers s) = Some e ->
    worker e = u_worker u ->
    let s' := onMessage rev u (Some (authenticatedMsg rev u F)) s in
    (exists e', map_get F (activeWorkers s') = Some e' /\ worker e' = u_worker u) /\
    (F <> username u -> map_has (username u) (activeWorkers s') = false) /\
    (forall k e', map_get k (activeWorkers s) = Some e' ->
                  worker e' = u_worker u -> k = username u) /\
    (forall k e', map_get k (activeWorkers s') = Some e' ->
                  worker e' = u_worker u -> k = F).
Proof.
  intros rev s u F e Hreach Hauth Hget Hw s'.
  pose proof (reachable_wellKeyed rev s Hreach) as Hwk.
  pose proof (wellKeyed_onMessage rev u (Some (authenticatedMsg rev u F)) s Hwk)
    as Hwk'.
  fold s' in Hwk'.
  assert (Hmap := onAuthenticated_map rev u F s e Hget Hauth). fold s' in Hmap.
  assert (H1 : exists e', map_get F (activeWorkers s') = Some e'
                          /\ worker e' = u_worker u).
  { rewrite Hmap. destruct rev.
    - destruct (username u =? F)%string eqn:E.
      + apply String.eqb_eq in E. rewrite <- E. now exists e.
      + exists e. split; [apply map_get_set_same|assumption].
    - exists (workerInfo (worker e) (Some F)).
      split; [apply map_get_set_same|assumption]. }
  split; [exact H1|]. split; [|split].
  - intros Hne. unfold map_has. rewrite Hmap.
    destruct Hwk as (Hk & _). destruct rev.
    + destruct (username u =? F)%string eqn:E.
      * apply String.eqb_eq in E. congruence.
      * rewrite map_get_set_other by congruence.
        now rewrite map_get_delete_same.
    + rewrite map_get_set_other by congruence.
      rewrite map_get_delete_same; [reflexivity|].
      now apply map_set_keys_NoDup.
  - intros k e' Hk' Hwe'. destruct Hwk as (_ & Hnd & _).
    eapply one_key_per_worker; eauto. congruence.
  - intros k e' Hk' Hwe'. destruct Hwk' as (_ & Hnd & _).
    destruct H1 as (e1 & Hg1 & Hw1).
    eapply one_key_per_worker; eauto. congruence.
Qed.

Lemma authenticated_rekeys_identity_map_witness :
  let u := mkUnit 0%nat "AuthBot-7" true in
  let s := step Overhaul2 (startup Overhaul2 []) (in_spawn_auth_bot 7%nat) in
  let s' := onMessage Overhaul2 u (Some (authenticatedMsg Overhaul2 u "Steve")) s in
  (exists e', map_get "Steve" (activeWorkers s') = Some e' /\ worker e' = 0%nat) /\
  ("Steve" <> "AuthBot-7" -> map_has "AuthBot-7" (activeWorkers s') = false) /\
  (forall k e', map_get k (activeWorkers s) = Some e' ->
                worker e' = 0%nat -> k = "AuthBot-7") /\
  (forall k e', map_get k (activeWorkers s') = Some e' ->
                worker e' = 0%nat -> k = "Steve").
Proof.
  intros u s s'.
  apply (authenticated_rekeys_identity_map Overhaul2 s u "Steve" (workerInfo 0%nat None)).
  - apply reachable_step, reachable_startup.
  - reflexivity.
  - reflexivity.
  - reflexivity.
Defined.

(** C2, as stated, at a final handle equal to the initial one: an
    authentication-flow unit is spawned under "AuthBot-7" and the server names
    it "AuthBot-7"; after the handler the map still holds the initial handle.
    part_000 guards the swap with [username !== finalUsername]; depster.js
    deletes the key and sets it again. *)
Lemma authenticated_same_handle_keeps_key :
  let u := mkUnit 0%nat "AuthBot-7" true in
  (let s := step Overhaul1 (startup Overhaul1 []) (in_spawn_auth_bot 7%nat) in
   nth_error (spawned s) 0%nat = Some u /\
   map_has "AuthBot-7"
     (activeWorkers
        (step Overhaul1 s
           (in_worker_message 0%nat (Some (authenticatedMsg Overhaul1 u "AuthBot-7")))))
   = true) /\
  (let s := step Overhaul2 (startup Overhaul2 []) (in_spawn_auth_bot 7%nat) in
   nth_error (spawned s) 0%nat = Some u /\
   map_has "AuthBot-7"
     (activeWorkers
        (step Overhaul2 s
           (in_worker_message 0%nat (Some (authenticatedMsg Overhaul2 u "AuthBot-7")))))
   = true).
Proof. repeat split. Qed.

(** ** Unit exit *)

Lemma findExited_get w m k info :
  findExited w m = Some (k, info) -> In (k, info) m /\ worker info = w.
Proof.
  unfold findExited. intros H. apply find_some in H as [Hin Hw].
  split; [assumption|]. simpl in Hw. now apply Nat.eqb_eq in Hw.
Qed.

Lemma In_map_get k v (m : JsMap WorkerInfo) :
  NoDup (map_keys m) -> In (k, v) m -> map_get k m = Some v.
Proof.
  unfold map_keys. induction m as [|[k' v'] m IH]; simpl; intros Hnd Hin; [tauto|].
  inversion Hnd as [|? ? Hnin Hnd']; subst.
  destruct Hin as [Heq|Hin].
  - inversion Heq; subst. now rewrite String.eqb_refl.
  - destruct (k' =? k)%string eqn:E.
    + apply String.eqb_eq in E. subst k'. exfalso. apply Hnin.
      apply in_map_iff. now exists (k, v).
    + now apply IH.
Qed.

Lemma truthyStr_true k : truthyStr k = true <-> k <> "".
Proof.
  unfold truthyStr. destruct (k =? "")%string eqn:E; simpl.
  - apply String.eqb_eq in E. split; [discriminate|congruence].
  - apply String.eqb_neq in E. tauto.
Qed.

(** C8 (amended).  When a unit exits while the identity map still holds an
    entry for its worker, under a non-empty key [K]: the entry is removed and
    the worker holds no entry afterwards; the dashboard is told the agent went
    offline, under the final handle when one is recorded (depster.js) and
    under [K] otherwise; and a respawn of [K] as a unit that is not an
    authentication-flow unit is scheduled after 5000 ms exactly when the exit
    code is not 0 and the unit is not an authentication-flow unit.  When the
    map holds no entry for the worker, the handler changes nothing. *)
Theorem exit_removes_entry_and_schedules_respawn :
  forall (rev : Revision) (s : Main) (u : Unit) (code : Z)
         (K : string) (info : WorkerInfo),
    reachable rev s ->
    findExited (u_worker u) (activeWorkers s) = Some (K, info) ->
    K <> "" ->
    let s' := onExit rev u code s in
    activeWorkers s' = map_delete K (activeWorkers s) /\
    ~ In (u_worker u) (workersOf (activeWorkers s')) /\
    (exists line,
        emitted s'
        = emitted s
          ++ [io_bot_offline (match rev with
                              | Overhaul1 => K
                              | Overhaul2 => orElse (finalUsername info) K
                              end); line]) /\
    timers s'
    = timers s ++ (if negb (code =? 0) && negb (isAuthWorker u)
                   then [(respawnDelay, K)] else []) /\
    respawnDelay = 5 * 1000 /\
    (isAuthWorker u = true -> timers s' = timers s) /\
    (forall t, onRespawnTimer rev K t
               = spawnWorkerFor rev K false
                   (console_log ("[main] Respawning worker for " ++ K ++ "...") t)) /\
    (forall v, findExited (u_worker v) (activeWorkers s) = None ->
               onExit rev v code s = s).
Proof.
  intros rev s u code K info Hreach Hfind HK s'.
  pose proof (reachable_wellKeyed rev s Hreach) as (Hk & Hnd & _).
  apply truthyStr_true in HK.
  assert (Hs' : s' = onExit rev u code s) by reflexivity.
  unfold onExit in Hs'. rewrite Hfind, HK in Hs'.
  apply findExited_get in Hfind as [Hin Hw].
  assert (Hget : map_get K (activeWorkers s) = Some info) by now apply In_map_get.
  assert (Hmap : activeWorkers s' = map_delete K (activeWorkers s)).
  { rewrite Hs'. now destruct rev, (negb (code =? 0) && negb (isAuthWorker u)). }
  split; [exact Hmap|]. split; [|split; [|split; [|split; [|split; [|split]]]]].
  - rewrite Hmap, <- Hw. now apply workersOf_delete_gone.
  - rewrite Hs'.
    destruct rev, (negb (code =? 0) && negb (isAuthWorker u)); simpl;
      eexists; rewrite <- app_assoc; reflexivity.
  - rewrite Hs'.
    destruct rev, (negb (code =? 0) && negb (isAuthWorker u)); simpl;
      now rewrite ?app_nil_r.
  - reflexivity.
  - intros Hauth. rewrite Hs', Hauth, andb_false_r. now destruct rev.
  - reflexivity.
  - intros v Hnone. unfold onExit. now rewrite Hnone.
Qed.

Lemma exit_removes_entry_and_schedules_respawn_witness :
  let u := mkUnit 0%nat "Steve" false in
  let s := startup Overhaul2 ["Steve"] in
  let s' := onExit Overhaul2 u 1 s in
  activeWorkers s' = map_delete "Steve" (activeWorkers s) /\
  ~ In 0%nat (workersOf (activeWorkers s')) /\
  (exists line,
      emitted s' = emitted s ++ [io_bot_offline (orElse None "Steve"); line]) /\
  timers s' = timers s ++ [(respawnDelay, "Steve")] /\
  respawnDelay = 5 * 1000 /\
  (false = true -> timers s' = timers s) /\
  (forall t, onRespawnTimer Overhaul2 "Steve" t
             = spawnWorkerFor Overhaul2 "Steve" false
                 (console_log ("[main] Respawning worker for " ++ "Steve" ++ "...") t)) /\
  (forall v, findExited (u_worker v) (activeWorkers s) = None ->
             onExit Overhaul2 v 1 s = s).
Proof.
  intros u s s'.
  apply (exit_removes_entry_and_schedules_respawn Overhaul2 s u 1 "Steve"
           (workerInfo 0%nat None)).
  - apply reachable_startup.
  - reflexivity.
  - discriminate.
Defined.

(** C8, as stated, on an exit the main thread observes for a unit whose entry
    was overwritten.  "Steve" is spawned from the accounts file (worker 0); an
    authentication-flow unit (worker 1) is then named "Steve" by the server and
    its re-keying replaces the entry of worker 0.  Worker 0 exits with code 1:
    it is not an authentication-flow unit and the code is not 0, yet nothing
    is emitted and no respawn is scheduled. *)
Lemma exit_of_overwritten_unit_is_ignored :
  (let u1 := mkUnit 1%nat "AuthBot-7" true in
   let s := run Overhaul1 (startup Overhaul1 ["Steve"])
              [in_spawn_auth_bot 7%nat;
               in_worker_message 1%nat (Some (authenticatedMsg Overhaul1 u1 "Steve"))] in
   nth_error (spawned s) 0%nat = Some (mkUnit 0%nat "Steve" false) /\
   nth_error (spawned s) 1%nat = Some u1 /\
   step Overhaul1 s (in_worker_exit 0%nat 1) = s /\ timers s = []) /\
  (let u1 := mkUnit 1%nat "AuthBot-7" true in
   let s := run Overhaul2 (startup Overhaul2 ["Steve"])
              [in_spawn_auth_bot 7%nat;
               in_worker_message 1%nat (Some (authenticatedMsg Overhaul2 u1 "Steve"))] in
   nth_error (spawned s) 0%nat = Some (mkUnit 0%nat "Steve" false) /\
   nth_error (spawned s) 1%nat = Some u1 /\
   step Overhaul2 s (in_worker_exit 0%nat 1) = s /\ timers s = []).
Proof. repeat split. Qed.

(** ** Broadcast *)

Lemma sweepAngle_eq i n : sweepAngle i n = (2 * PI * INR i / INR n)%R.
Proof. unfold sweepAngle, Rdiv. ring. Qed.

Lemma sweepAngle_inj n i j :
  (0 < n)%nat -> sweepAngle i n = sweepAngle j n -> i = j.
Proof.
  intros Hn H. unfold sweepAngle, Rdiv in H.
  apply INR_eq.
  apply (Rmult_eq_reg_r (/ INR n * 2 * PI)%R).
  - rewrite <- !Rmult_assoc. exact H.
  - assert (Hn0 : INR n <> 0%R) by (apply not_0_INR; lia).
    pose proof PI_neq0 as Hpi.
    apply Rmult_integral_contrapositive_currified; [|exact Hpi].
    apply Rmult_integral_contrapositive_currified; [|rlra].
    now apply Rinv_neq_0_compat.
Qed.

Lemma getProp_setProp_same k v (o : Obj) : getProp k (setProp k v o) = v.
Proof. unfold getProp, setProp. now rewrite map_get_set_same. Qed.

Lemma getProp_setProp_other k k' v (o : Obj) :
  k' <> k -> getProp k' (setProp k v o) = getProp k' o.
Proof. intros H. unfold getProp, setProp. now rewrite map_get_set_other. Qed.

(** What [{ ...o, ...data }] holds: the properties of [data], and those of
    [o] that [data] does not name. *)
Lemma getProp_cons k k1 v1 (d : Obj) :
  getProp k ((k1, v1) :: d) = if (k1 =? k)%string then v1 else getProp k d.
Proof. unfold getProp. simpl. now destruct (k1 =? k)%string. Qed.

Lemma getProp_spread (d : Obj) :
  NoDup (map_keys d) ->
  forall (o : Obj) (k : string),
    getProp k (spread o d)
    = if existsb (String.eqb k) (map_keys d) then getProp k d else getProp k o.
Proof.
  unfold spread, map_keys.
  induction d as [|[k1 v1] d IH]; simpl; intros Hnd o k; [reflexivity|].
  inversion Hnd as [|? ? Hnin Hnd']; subst.
  rewrite (IH Hnd'), getProp_cons, (String.eqb_sym k k1).
  destruct (k1 =? k)%string eqn:E; simpl.
  - apply String.eqb_eq in E. subst k1.
    destruct (existsb (String.eqb k) (map fst d)) eqn:E'.
    + apply existsb_exists in E' as (x & Hx & Ex).
      apply String.eqb_eq in Ex. subst x. tauto.
    + apply getProp_setProp_same.
  - destruct (existsb (String.eqb k) (map fst d)); [reflexivity|].
    apply getProp_setProp_other. apply String.eqb_neq in E. congruence.
Qed.

Lemma existsb_eqb_In k (l : list string) :
  In k l -> existsb (String.eqb k) l = true.
Proof.
  intros H. apply existsb_exists. exists k. split; [assumption|].
  apply String.eqb_refl.
Qed.

Lemma existsb_eqb_notIn k (l : list string) :
  ~ In k l -> existsb (String.eqb k) l = false.
Proof.
  intros H. destruct (existsb (String.eqb k) l) eqn:E; [|reflexivity].
  apply existsb_exists in E as (x & Hx & Ex).
  apply String.eqb_eq in Ex. now subst x.
Qed.

Lemma workersOf_values m : map worker (map_values m) = workersOf m.
Proof. unfold map_values, workersOf. now rewrite map_map. Qed.

(** C3.  On a [clearmap] broadcast over the [N] workers of the identity map,
    taken in map order, the worker at index [i] is posted one message, holding
    the angle [2*PI*i/N]; every worker occurs once in that order, and the
    [N] angles are pairwise distinct.  On any other command that is broadcast,
    every worker in the map is posted [{ type: 'command', ...data }], which
    holds every property of [data], its command name included. *)
Theorem broadcast_assigns_sweep_angles :
  forall (rev : Revision) (s : Main) (d : Obj),
    reachable rev s ->
    truthy (getProp "command" d) = true ->
    let ws := workersOf (activeWorkers s) in
    let N := List.length ws in
    let s' := onSendCommand rev (Some d) s in
    (getProp "command" d = VStr "clearmap" ->
       posted s'
       = posted s
         ++ map (fun iw => (snd iw,
                            [("type", VStr "command"); ("command", VStr "clearmap");
                             ("angle", VNum (2 * PI * INR (fst iw) / INR N)%R)]))
                (combine (seq 0 N) ws)
       /\ NoDup ws
       /\ NoDup (map (fun i => (2 * PI * INR i / INR N)%R) (seq 0 N))) /\
    (isStr (getProp "command" d) "clearmap" = false ->
       posted s'
       = posted s ++ map (fun w => (w, spread [("type", VStr "command")] d)) ws
       /\ (NoDup (map_keys d) ->
           (forall k, In k (map_keys d) ->
                      getProp k (spread [("type", VStr "command")] d) = getProp k d)
           /\ (~ In "type" (map_keys d) ->
               getProp "type" (spread [("type", VStr "command")] d)
               = VStr "command"))).
Proof.
  intros rev s d Hreach Htruthy ws N s'.
  pose proof (reachable_wellKeyed rev s Hreach) as (_ & Hnd & _).
  assert (Hs' : s' = onSendCommand rev (Some d) s) by reflexivity.
  unfold onSendCommand in Hs'. rewrite Htruthy in Hs'. simpl negb in Hs'. cbv iota in Hs'.
  split.
  - intros Hcmd. rewrite Hcmd in Hs'. simpl isStr in Hs'. cbv iota zeta in Hs'.
    split; [|split].
    + rewrite Hs'.
      match goal with
      | |- posted (forEachIndexed ?l ?i ?n ?t) = _ =>
          destruct (forEachIndexed_fields l i n t) as (_ & _ & _ & _ & Hp)
      end.
      rewrite Hp. simpl activeWorkers. simpl posted.
      rewrite workersOf_values. fold ws. fold N. f_equal.
      apply map_ext. intros [i w]. simpl. unfold clearmapMessage.
      now rewrite sweepAngle_eq.
    + exact Hnd.
    + apply Injective_map_NoDup_in; [|apply seq_NoDup].
      intros i j Hi _ Hij. apply in_seq in Hi.
      apply (sweepAngle_inj N); [lia|]. now rewrite !sweepAngle_eq.
  - intros Hcmd. rewrite Hcmd in Hs'. split.
    + rewrite Hs'.
      match goal with
      | |- posted (postAll ?m ?t) = _ =>
          destruct (postAll_fields m t) as (_ & _ & _ & _ & Hp)
      end.
      rewrite Hp. simpl activeWorkers. simpl posted. f_equal.
      unfold ws. rewrite <- workersOf_values. now rewrite map_map.
    + intros Hkeys. split.
      * intros k Hin. rewrite (getProp_spread d Hkeys).
        now rewrite existsb_eqb_In.
      * intros Hnin. rewrite (getProp_spread d Hkeys).
        now rewrite existsb_eqb_notIn.
Qed.

Lemma broadcast_assigns_sweep_angles_witness :
  let s := startup Overhaul2 ["Alice"; "Bob"] in
  let d : Obj := [("command", VStr "clearmap")] in
  let ws := workersOf (activeWorkers s) in
  let N := List.length ws in
  let s' := onSendCommand Overhaul2 (Some d) s in
  (getProp "command" d = VStr "clearmap" ->
     posted s'
     = posted s
       ++ map (fun iw => (snd iw,
                          [("type", VStr "command"); ("command", VStr "clearmap");
                           ("angle", VNum (2 * PI * INR (fst iw) / INR N)%R)]))
              (combine (seq 0 N) ws)
     /\ NoDup ws
     /\ NoDup (map (fun i => (2 * PI * INR i / INR N)%R) (seq 0 N))) /\
  (isStr (getProp "command" d) "clearmap" = false ->
     posted s'
     = posted s ++ map (fun w => (w, spread [("type", VStr "command")] d)) ws
     /\ (NoDup (map_keys d) ->
         (forall k, In k (map_keys d) ->
                    getProp k (spread [("type", VStr "command")] d) = getProp k d)
         /\ (~ In "type" (map_keys d) ->
             getProp "type" (spread [("type", VStr "command")] d)
             = VStr "command"))).
Proof.
  intros s d ws N s'.
  apply (broadcast_assigns_sweep_angles Overhaul2 s d).
  - apply reachable_startup.
  - reflexivity.
Defined.

(** The end-to-end scenario of two live units: angles 0 and PI. *)
Example clearmap_two_units :
  forall rev,
    map (fun wm => (fst wm, getProp "angle" (snd wm)))
        (posted (onSendCommand rev (Some [("command", VStr "clearmap")])
                   (startup rev ["Alice"; "Bob"])))
    = [(0%nat, VNum 0%R); (1%nat, VNum PI)].
Proof.
  intros rev.
  assert (E0 : sweepAngle 0 2 = 0%R) by (unfold sweepAngle; simpl; rlra).
  assert (E1 : sweepAngle 1 2 = PI) by (unfold sweepAngle; simpl; rlra).
  destruct rev; cbn -[sweepAngle]; now rewrite E0, E1.
Qed.

(** ** Command handler *)

(** C7 (amended).  A [follow], [grief] or [trap] command whose target is
    missing, empty or names nothing the player table holds is rejected: the
    behaviour state, the sprint flag, the navigation goal, the world and the
    issued calls are as they were; the handler returns normally and posts
    exactly one log line (nothing at all while the bot has no entity or when
    the message is not a command).  A command naming something the player
    table holds is not rejected, whether or not that player has an entity,
    that is, is currently visible: the pathfinder is told to stop and the trap
    guard is cleared; when the stop is accepted the mode and the target are
    set as told and the goal is dropped; when it throws, the handler throws
    with mode and target cleared. *)
Theorem unresolvable_target_is_rejected :
  forall (rev : Revision) (env : Env) (b : Bot) (msg : CommandMsg) (m : Mode),
    modeOfCommand (command msg) = Some m ->
    (unresolvable b msg ->
     exists b',
       onCommand rev env (Some msg) b = Done tt b' /\
       state b' = state b /\ goal b' = goal b /\ sprint b' = sprint b /\
       actions b' = actions b /\ world b' = world b /\
       inventory b' = inventory b /\
       (botEntity b <> None -> c_type msg = "command" ->
        exists text,
          sent b' = sent b ++ [workerMsg (log_msg (Str text))
                                         (Some (senderName env b))]) /\
       (botEntity b = None \/ c_type msg <> "command" -> b' = b)) /\
    (forall (targetName : string) (p : Player),
        c_target msg = Some targetName ->
        truthyStr targetName = true ->
        players b targetName = Some p ->
        botEntity b <> None ->
        c_type msg = "command" ->
        let o := onCommand rev env (Some msg) b in
        let b' := finalBotOf o in
        actions b' = actions b ++ [act_stop] /\
        isTrapping (state b') = false /\
        (remote env (List.length (actions b)) act_stop = None ->
         o = match rev, m with
             | Overhaul1, trap => Raised (ReferenceError "getBlockInHand") b'
             | _, _ => Done tt b'
             end /\
         mode (state b') = Some m /\ target (state b') = Some targetName /\
         goal b' = None) /\
        (forall e, remote env (List.length (actions b)) act_stop = Some e ->
         o = Raised e b' /\
         mode (state b') = None /\ target (state b') = None /\
         goal b' = goal b)).
Proof.
  intros rev env b msg m Hm. split.
  - intros Hun.
    unfold onCommand, bind, get. destruct (botEntity b) as [me|] eqn:Hent.
    + destruct (c_type msg =? "command")%string eqn:Ht; simpl.
      * apply String.eqb_eq in Ht. rewrite Hm. unfold unresolvable in Hun.
        destruct (c_target msg) as [t|].
        -- destruct Hun as [Hf|Hp].
           ++ rewrite Hf. simpl. eexists. split; [reflexivity|].
              repeat split; try reflexivity.
              ** intros _ _. eexists. reflexivity.
              ** intros [H|H]; [discriminate|congruence].
           ++ destruct (negb (truthyStr t)).
              ** eexists. split; [reflexivity|]. repeat split; try reflexivity.
                 --- intros _ _. eexists. reflexivity.
                 --- intros [H|H]; [discriminate|congruence].
              ** rewrite Hp. eexists. split; [reflexivity|].
                 repeat split; try reflexivity.
                 --- intros _ _. eexists. reflexivity.
                 --- intros [H|H]; [discriminate|congruence].
        -- eexists. split; [reflexivity|]. repeat split; try reflexivity.
           ++ intros _ _. eexists. reflexivity.
           ++ intros [H|H]; [discriminate|congruence].
      * apply String.eqb_neq in Ht. exists b. repeat split; try reflexivity.
        intros _ H. congruence.
    + exists b. repeat split; try reflexivity. intros H. congruence.
  - intros targetName p Htarget Htruthy Hp Hent Htype o b'.
    destruct (botEntity b) as [me|] eqn:Hme; [clear Hent|congruence].
    set (b0 := (match rev with
                | Overhaul1 => fun x => x
                | Overhaul2 => withSprint false
                end)
                 (withState (setIsTrapping false)
                    (withState (setMode None) (withState (setTarget None) b)))).
    set (b1 := pushSent (workerMsg (status_update "Idle") (Some (senderName env b)))
                 (withGoal None (pushAction act_stop b0))).
    set (b2 := pushSent
                 (workerMsg (status_update (capitalize (command msg) ++ "ing "
                                            ++ targetName)%string)
                            (Some (senderName env b)))
                 (pushSent
                    (workerMsg (log_msg (Str ("Executing '" ++ command msg ++ "' on "
                                              ++ targetName ++ ".")%string))
                               (Some (senderName env b)))
                    (withState (setMode (Some m))
                       (withState (setTarget (Some targetName)) b1)))).
    assert (Hrun : o = match remote env (List.length (actions b)) act_stop with
                       | Some e => Raised e (pushAction act_stop b0)
                       | None =>
                           match rev, m with
                           | Overhaul1, trap =>
                               Raised (ReferenceError "getBlockInHand") b2
                           | _, _ => Done tt b2
                           end
                       end).
    { unfold o, onCommand, bind at 1, get. cbv beta.
      rewrite Hme, Htype, Hm, Htarget, Htruthy, Hp.
      cbn [negb]. rewrite String.eqb_refl. cbn [negb].
      unfold bind at 1.
      assert (Hreset : resetState rev env b
                = match remote env (List.length (actions b)) act_stop with
                  | Some e => Raised e (pushAction act_stop b0)
                  | None => Done tt b1
                  end).
      { unfold resetState, bind, modify, ret, updateStatus, call. cbv beta zeta.
        unfold b1, b0.
        destruct rev; cbn [actions withState withSprint];
          destruct (remote env (List.length (actions b)) act_stop);
          reflexivity. }
      rewrite Hreset.
      destruct (remote env (List.length (actions b)) act_stop); [reflexivity|].
      unfold bind, modify, log, updateStatus, raise, send. cbv beta zeta.
      unfold b2. destruct rev, m; reflexivity. }
    assert (Hb0 : actions b0 = actions b /\ goal b0 = goal b /\
                  mode (state b0) = None /\ target (state b0) = None /\
                  isTrapping (state b0) = false)
      by (unfold b0; destruct rev; repeat split).
    destruct Hb0 as (Ha0 & Hg0 & Hm0 & Ht0 & Hi0).
    unfold b'. rewrite Hrun.
    destruct (remote env (List.length (actions b)) act_stop) as [e|].
    + cbn [finalBotOf actions pushAction state goal].
      rewrite Ha0, Hg0, Hm0, Ht0, Hi0.
      repeat apply conj; try reflexivity.
      * intros H; discriminate H.
      * intros e' H. inversion H; subst. repeat apply conj; reflexivity.
    + assert (Hfin : finalBotOf match rev, m with
                                | Overhaul1, trap =>
                                    Raised (ReferenceError "getBlockInHand") b2
                                | _, _ => @Done unit tt b2
                                end = b2) by (destruct rev, m; reflexivity).
      rewrite Hfin.
      assert (Hb2 : actions b2 = actions b ++ [act_stop] /\
                    isTrapping (state b2) = false /\
                    mode (state b2) = Some m /\
                    target (state b2) = Some targetName /\ goal b2 = None).
      { unfold b2, b1.
        cbn [actions state goal isTrapping mode target pushSent withState withGoal
             pushAction setMode setTarget].
        rewrite Ha0, Hi0. repeat split. }
      destruct Hb2 as (Ha2 & Hi2 & Hm2 & Ht2 & Hg2).
      repeat apply conj; try assumption.
      * intros _. repeat apply conj; try assumption. reflexivity.
      * intros e' H. discriminate H.
Qed.

Lemma unresolvable_target_is_rejected_witness :
  let b := sampleBot initialState noWorld [] in
  let msg := mkCommand "command" "follow" (Some "Bob") None "" in
  unresolvable b msg /\
  exists b',
    onCommand Overhaul2 (sampleEnv Overhaul2) (Some msg) b = Done tt b' /\
    state b' = state b /\ goal b' = goal b /\ sprint b' = sprint b /\
    actions b' = actions b /\ world b' = world b /\
    inventory b' = inventory b /\
    (botEntity b <> None -> c_type msg = "command" ->
     exists text,
       sent b' = sent b ++ [workerMsg (log_msg (Str text))
                              (Some (senderName (sampleEnv Overhaul2) b))]) /\
    (botEntity b = None \/ c_type msg <> "command" -> b' = b).
Proof.
  intros b msg.
  assert (Hun : unresolvable b msg) by (right; reflexivity).
  split; [exact Hun|].
  exact (proj1 (unresolvable_target_is_rejected Overhaul2 (sampleEnv Overhaul2)
                  b msg follow eq_refl) Hun).
Defined.

(** C7, as stated, for a target that is listed but out of sight.  Bob has an
    entry in the player table with no entity, so he is not currently visible
    and a tick could not resolve him; yet the [follow] command naming him is
    accepted in both revisions: the pathfinder is stopped, the mode becomes
    [follow], the target "Bob", and the statuses "Idle" and "Following Bob"
    are posted. *)
Lemma listed_target_out_of_sight_is_accepted :
  let msg := mkCommand "command" "follow" (Some "Bob") None "" in
  notVisible blindBot msg /\
  resolveTarget (withState (setTarget (Some "Bob")) blindBot) = None /\
  mode (state blindBot) = None /\ target (state blindBot) = None /\
  (let b' := finalBotOf (onCommand Overhaul1 (sampleEnv Overhaul1) (Some msg)
                           blindBot) in
   mode (state b') = Some follow /\ target (state b') = Some "Bob" /\
   actions b' = [act_stop] /\
   statuses (sent b') = ["Idle"; "Following Bob"]) /\
  (let b' := finalBotOf (onCommand Overhaul2 (sampleEnv Overhaul2) (Some msg)
                           blindBot) in
   mode (state b') = Some follow /\ target (state b') = Some "Bob" /\
   actions b' = [act_stop] /\
   statuses (sent b') = ["Idle"; "Following Bob"]).
Proof.
  split; [right; reflexivity|]. repeat split.
Qed.

(** ** Tick handler *)

(** C9.  Whatever the remote world rejects, the tick handler returns normally:
    an error raised in the tick body is caught at the handler, which posts it
    as an [error] message and changes nothing else; a body that raises nothing
    is left as it ran.  So every sequence of ticks runs to its end. *)
Theorem tick_never_throws :
  forall (rev : Revision) (env : Env) (b : Bot),
    (forall (now now' : Z),
        exists b',
          physicsTick rev env now now' b = Done tt b' /\
          match tickBody rev env now now' b with
          | Done _ b1 => b' = b1
          | Raised e b1 =>
              b' = pushSent (workerMsg (error_msg (StackText e))
                               (Some (senderName env b1))) b1
          end) /\
    (forall (clock : list (Z * Z)),
        exists b', runTicks rev env clock b = Done tt b').
Proof.
  intros rev env b.
  assert (Htick : forall now now' b0,
             exists b',
               physicsTick rev env now now' b0 = Done tt b' /\
               match tickBody rev env now now' b0 with
               | Done _ b1 => b' = b1
               | Raised e b1 =>
                   b' = pushSent (workerMsg (error_msg (StackText e))
                                    (Some (senderName env b1))) b1
               end).
  { intros now now' b0. unfold physicsTick, tryCatch.
    destruct (tickBody rev env now now' b0) as [[] b1|e b1].
    - now exists b1.
    - eexists. split; reflexivity. }
  split; [intros now now'; apply Htick|].
  intros clock. revert b.
  induction clock as [|[now now'] rest IH]; intros b; simpl.
  - now exists b.
  - unfold bind. destruct (Htick now now' b) as (b1 & Hrun & _).
    rewrite Hrun. apply IH.
Qed.

(** A tick in which every remote call is rejected still returns normally. *)
Example tick_survives_rejections :
  forall rev st w inv now now',
    let env := mkEnv "Alice" false (sharedConfig rev) (fun _ => None)
                     (fun _ => None) (fun n _ => Some (RemoteError n)) in
    exists b', physicsTick rev env now now' (sampleBot st w inv) = Done tt b'.
Proof.
  intros rev st w inv now now' env. unfold physicsTick, tryCatch.
  destruct (tickBody rev env now now' (sampleBot st w inv)) as [[] b1|e b1];
    eexists; reflexivity.
Qed.

Lemma send_run env msg b :
  send env msg b = Done tt (pushSent (workerMsg msg (Some (senderName env b))) b).
Proof. reflexivity. Qed.

(** The tick of a unit in [clearmap] mode, case by case. *)
Lemma clearmap_tick_run rev env now now' x :
  mode (state x) = Some clearmap ->
  physicsTick rev env now now' x
  = let bs := (match rev with
               | Overhaul1 => fun y => y
               | Overhaul2 => withSprint true
               end) x in
    let n := Some (senderName env x) in
    Done tt
      (if isMoving x then bs
       else
         match botEntity x with
         | None =>
             pushSent (workerMsg (error_msg
                                    (StackText (TypeError "bot.entity is undefined")))
                                 n) bs
         | Some me =>
             let g := act_setGoal
                        (GoalXZ (Q2R (qx (e_position me))
                                 + 10000 * cos (clearMapAngle (state x)))
                                (Q2R (qz (e_position me))
                                 + 10000 * sin (clearMapAngle (state x)))) false in
             match remote env (List.length (actions x)) g with
             | Some e =>
                 pushSent (workerMsg (error_msg (StackText e)) n) (pushAction g bs)
             | None =>
                 pushSent
                   (workerMsg
                      (log_msg (Str "Set new distant goal in my assigned direction."))
                      n)
                   (effect env g (pushAction g bs))
             end
         end).
Proof.
  intros Hm. unfold physicsTick, tryCatch, tickBody, bind at 1, get. cbv beta.
  rewrite Hm. cbv zeta.
  set (bs := (match rev with
              | Overhaul1 => fun y => y
              | Overhaul2 => withSprint true
              end) x).
  assert (Hc : (match rev with
                | Overhaul1 => ret tt
                | Overhaul2 => modify (withSprint true)
                end) x = Done tt bs) by (unfold bs; now destruct rev).
  assert (Hl : List.length (actions bs) = List.length (actions x))
    by (unfold bs; now destruct rev).
  assert (Hn : senderName env bs = senderName env x)
    by (unfold bs; now destruct rev).
  unfold bind at 1. rewrite Hc.
  destruct (isMoving x); cbn [negb]; [reflexivity|].
  destruct (botEntity x) as [me|].
  - unfold bind, call. cbv beta zeta. rewrite Hl.
    destruct (remote env (List.length (actions x)) _) as [e|].
    + unfold err. rewrite send_run.
      change (senderName env (pushAction ?a bs)) with (senderName env bs).
      now rewrite Hn.
    + unfold log. rewrite send_run.
      change (senderName env (effect env ?a (pushAction ?a bs)))
        with (senderName env bs).
      now rewrite Hn.
  - unfold raise, err. rewrite send_run. now rewrite Hn.
Qed.

(** C6 (amended).  A tick with [mode = none] does nothing.  In the modes
    [follow], [grief] and [trap] the stored target is looked up at every tick,
    and when it names no visible player with an entity the tick sets the mode
    to none, posts the status "Idle" and does nothing else.  In the mode
    [clearmap] the tick does the same whatever the stored target is: the mode
    is still [clearmap] after the tick, the target is kept, and no status at
    all is among the messages the tick posts. *)
Theorem tick_resolves_target :
  forall (rev : Revision) (env : Env) (now now' : Z) (b : Bot),
    (mode (state b) = None -> physicsTick rev env now now' b = Done tt b) /\
    (forall m, mode (state b) = Some m -> m <> clearmap ->
               resolveTarget b = None ->
               physicsTick rev env now now' b
               = Done tt (pushSent (workerMsg (status_update "Idle")
                                      (Some (senderName env b)))
                            (withState (setMode None) b))) /\
    (mode (state b) = Some clearmap ->
     exists b' new,
       physicsTick rev env now now' b = Done tt b' /\
       mode (state b') = Some clearmap /\
       target (state b') = target (state b) /\
       sent b' = sent b ++ new /\
       statuses new = [] /\
       filter isIdleStatus (sent b') = filter isIdleStatus (sent b) /\
       forall t, physicsTick rev env now now' (withState (setTarget t) b)
                 = Done tt (withState (setTarget t) b')).
Proof.
  intros rev env now now' b. split; [|split].
  - intros Hm. unfold physicsTick, tryCatch, tickBody, bind, get. now rewrite Hm.
  - intros m Hm Hnc Hres.
    unfold physicsTick, tryCatch, tickBody, bind, get. rewrite Hm, Hres.
    destruct m; try reflexivity. congruence.
  - intros Hm.
    assert (Hany : forall t,
               physicsTick rev env now now' (withState (setTarget t) b)
               = _) by (intros t; apply (clearmap_tick_run rev env now now'
                                           (withState (setTarget t) b) Hm)).
    rewrite (clearmap_tick_run rev env now now' b Hm). cbv zeta in *.
    cbn [isMoving botEntity actions state clearMapAngle withState setTarget] in Hany.
    destruct (isMoving b).
    + eexists. exists []. split; [reflexivity|].
      split; [destruct rev; exact Hm|]. split; [now destruct rev|].
      split; [rewrite app_nil_r; now destruct rev|]. split; [reflexivity|].
      split; [now destruct rev|].
      intros t. rewrite Hany. now destruct rev.
    + destruct (botEntity b) as [me|].
      * destruct (remote env (List.length (actions b)) _) as [e|];
          (eexists; eexists; split; [reflexivity|];
           split; [destruct rev; exact Hm|]; split; [now destruct rev|];
           split; [cbn [sent pushSent pushAction effect withGoal];
                   destruct rev; reflexivity|];
           split; [reflexivity|];
           split; [cbn [sent pushSent pushAction effect withGoal];
                   destruct rev; cbn [sent withSprint]; rewrite filter_app;
                   simpl; now rewrite app_nil_r|];
           intros t; rewrite Hany; now destruct rev).
      * eexists; eexists; split; [reflexivity|].
        split; [destruct rev; exact Hm|]. split; [now destruct rev|].
        split; [cbn [sent pushSent]; destruct rev; reflexivity|].
        split; [reflexivity|].
        split; [cbn [sent pushSent]; destruct rev; cbn [sent withSprint];
                rewrite filter_app; simpl; now rewrite app_nil_r|].
        intros t. rewrite Hany. now destruct rev.
Qed.

(** C6, as stated, for the mode [clearmap]: the stored target is none, hence
    unresolvable, yet after the tick the unit is still in [clearmap] mode and
    has posted no status. *)
Lemma clearmap_tick_stays_in_clearmap :
  let b := sampleBot (mkState None (Some clearmap) 0 0%R false) noWorld [] in
  resolveTarget b = None /\
  (let b' := finalBotOf (physicsTick Overhaul1 (sampleEnv Overhaul1) 0 0 b) in
   mode (state b') = Some clearmap /\ filter isIdleStatus (sent b') = [] /\
   statuses (sent b') = []) /\
  (let b' := finalBotOf (physicsTick Overhaul2 (sampleEnv Overhaul2) 0 0 b) in
   mode (state b') = Some clearmap /\ filter isIdleStatus (sent b') = [] /\
   statuses (sent b') = []).
Proof. repeat split. Qed.

(** The end-to-end scenario: told to follow Bob while Bob is visible, the unit
    reports "Following Bob"; when Bob is out of sight at the next tick, it
    reports "Idle" and its mode is none. *)
Example follow_then_idle :
  forall rev,
    let env := sampleEnv rev in
    let b1 := finalBotOf
                (onCommand rev env
                   (Some (mkCommand "command" "follow" (Some "Bob") None ""))
                   idleBot) in
    let b2 := finalBotOf (physicsTick rev env 0 0 (losingSight b1)) in
    mode (state b1) = Some follow /\
    target (state b1) = Some "Bob" /\
    last (map body (sent b1)) (other_msg "") = status_update "Following Bob" /\
    mode (state b2) = None /\
    last (map body (sent b2)) (other_msg "") = status_update "Idle".
Proof. intros rev. destruct rev; repeat split. Qed.

(** ** Target acquisition *)

Lemma Qltb_lt x y : Qltb x y = true <-> (x < y)%Q.
Proof.
  unfold Qltb. rewrite negb_true_iff. split.
  - intros H. apply Qnot_le_lt. intros Hle.
    apply Qle_bool_iff in Hle. congruence.
  - intros H. destruct (Qle_bool y x) eqn:E; [|reflexivity].
    apply Qle_bool_iff in E. now apply Qlt_not_le in H.
Qed.

(** The loop variable takes the values [-r], [-r + 1], ... that do not exceed
    [r]. *)
Lemma uptoQ_spec (r d : Q) :
  In d (uptoQ r)
  <-> exists i : nat, d = (- r + inject_Z (Z.of_nat i))%Q /\ (d <= r)%Q.
Proof.
  unfold uptoQ. rewrite in_map_iff. split.
  - intros (i & Hd & Hin). apply in_seq in Hin. exists i. split; [now symmetry|].
    subst d.
    assert (Hi : (Z.of_nat i <= Qfloor (r + r))%Z) by lia.
    rewrite Zle_Qle in Hi. pose proof (Qfloor_le (r + r)) as Hf.
    revert Hi Hf. generalize (inject_Z (Z.of_nat i)) (inject_Z (Qfloor (r + r))).
    intros a f Hi Hf. qlra.
  - intros (i & Hd & Hle). exists i. split; [now symmetry|].
    apply in_seq. split; [lia|].
    assert (Hi : (inject_Z (Z.of_nat i) <= r + r)%Q).
    { subst d. revert Hle. generalize (inject_Z (Z.of_nat i)). intros a Ha. qlra. }
    apply Qfloor_resp_le in Hi. rewrite Qfloor_Z in Hi. lia.
Qed.

(** What the scan pushes: the blocks at the cube positions within reach that
    are loaded, are not air and are not protected. *)
Lemma scanBlocks_spec ids w me targetPos r m blk :
  In blk (scanBlocks ids w me targetPos r m)
  <-> exists dx dy dz,
      In dx (uptoQ r) /\ In dy (uptoQ r) /\ In dz (uptoQ r) /\
      distanceExceeds me (offsetQ targetPos dx dy dz) m = false /\
      blockAtq w (offsetQ targetPos dx dy dz) = Some blk /\
      (name blk =? "air")%string = false /\
      setHas ids (blockType blk) = false.
Proof.
  unfold scanBlocks. rewrite in_flat_map. split.
  - intros (dx & Hdx & H). apply in_flat_map in H as (dy & Hdy & H).
    apply in_flat_map in H as (dz & Hdz & H).
    exists dx, dy, dz. cbv zeta in H.
    destruct (distanceExceeds me (offsetQ targetPos dx dy dz) m); [contradiction|].
    destruct (blockAtq w (offsetQ targetPos dx dy dz)) as [b0|]; [|contradiction].
    destruct ((name b0 =? "air")%string || setHas ids (blockType b0)) eqn:E;
      [contradiction|].
    destruct H as [->|[]]. apply orb_false_iff in E as [E1 E2]. tauto.
  - intros (dx & dy & dz & Hdx & Hdy & Hdz & Hd & Hb & Ha & Hp).
    exists dx. split; [assumption|]. apply in_flat_map.
    exists dy. split; [assumption|]. apply in_flat_map.
    exists dz. split; [assumption|]. cbv zeta.
    rewrite Hd, Hb, Ha, Hp. now left.
Qed.

Section SortFacts.
Context {A : Type} (le : A -> A -> bool).
Hypothesis le_total : forall x y, le x y = false -> le y x = true.
Hypothesis le_trans : forall x y z, le x y = true -> le y z = true -> le x z = true.

Lemma insertBy_In x y l : In y (insertBy le x l) <-> y = x \/ In y l.
Proof.
  induction l as [|z l IH]; simpl.
  - intuition.
  - destruct (le x z); simpl; [intuition|]. rewrite IH. intuition.
Qed.

Lemma sortBy_In y l : In y (sortBy le l) <-> In y l.
Proof.
  induction l as [|x l IH]; simpl; [tauto|].
  rewrite insertBy_In, IH. intuition.
Qed.

Lemma insertBy_headFirst x l :
  headFirst le l -> headFirst le (insertBy le x l).
Proof.
  destruct l as [|z l]; simpl; [tauto|]. intros Hz.
  destruct (le x z) eqn:E; simpl.
  - intros y [->|Hy]; [assumption|]. apply (le_trans x z y); auto.
  - intros y Hy. apply insertBy_In in Hy as [->|Hy]; auto.
Qed.

Lemma sortBy_headFirst l : headFirst le (sortBy le l).
Proof.
  induction l as [|x l IH]; simpl; [exact I|].
  now apply insertBy_headFirst.
Qed.

Lemma le_refl_total x : le x x = true.
Proof.
  destruct (le x x) eqn:E; [reflexivity|].
  pose proof (le_total x x E) as H. congruence.
Qed.

(** [blocks[0]] after the sort is an element that precedes every element. *)
Lemma sortBy_first x rest l :
  sortBy le l = x :: rest -> In x l /\ forall y, In y l -> le x y = true.
Proof.
  intros H. split.
  - apply sortBy_In. rewrite H. now left.
  - intros y Hy. apply sortBy_In in Hy. rewrite H in Hy.
    pose proof (sortBy_headFirst l) as Hh. rewrite H in Hh. simpl in Hh.
    destruct Hy as [->|Hy]; [apply le_refl_total|auto].
Qed.

Lemma sortBy_nil l : sortBy le l = [] -> l = [].
Proof.
  destruct l as [|x l]; [reflexivity|]. intros H.
  assert (Hin : In x (sortBy le (x :: l))) by (apply sortBy_In; now left).
  rewrite H in Hin. contradiction.
Qed.
End SortFacts.

Lemma nearerOrEqual_total me a b :
  nearerOrEqual me a b = false -> nearerOrEqual me b a = true.
Proof.
  unfold nearerOrEqual. intros H. apply Qle_bool_iff.
  destruct (Qlt_le_dec (distSq me (ofGrid (position b)))
                       (distSq me (ofGrid (position a)))) as [Hlt|Hle].
  - now apply Qlt_le_weak.
  - apply Qle_bool_iff in Hle. congruence.
Qed.

Lemma nearerOrEqual_trans me a b c :
  nearerOrEqual me a b = true -> nearerOrEqual me b c = true ->
  nearerOrEqual me a c = true.
Proof.
  unfold nearerOrEqual. rewrite !Qle_bool_iff. apply Qle_trans.
Qed.

Lemma actions_pushAction a b : actions (pushAction a b) = actions b ++ [a].
Proof. reflexivity. Qed.

Lemma length_actions_push a b :
  List.length (actions (pushAction a b)) = S (List.length (actions b)).
Proof. simpl. rewrite length_app. simpl. lia. Qed.

(** [griefLogic] of part_000, path by path. *)
Lemma griefLogic1_run env b me now now' targetPos :
  botEntity b = Some me ->
  griefLogic Overhaul1 env now now' targetPos b
  = match sortBy (nearerOrEqual (e_position me)) (found env b me targetPos) with
    | [] => Done tt b
    | blk :: _ =>
        if tooSoon env b now then Done tt b
        else
          let b1 := withState (setLastDig now') b in
          match remote env (List.length (actions b)) (lookAtBlock blk) with
          | Some _ => Done tt (pushAction (lookAtBlock blk) b1)
          | None =>
              match remote env (S (List.length (actions b))) (act_dig blk) with
              | Some _ =>
                  Done tt (pushAction (act_dig blk) (pushAction (lookAtBlock blk) b1))
              | None =>
                  Done tt (effect env (act_dig blk)
                             (pushAction (act_dig blk)
                                (pushAction (lookAtBlock blk) b1)))
              end
          end
    end.
Proof.
  intros Hme. unfold griefLogic, bind, get, found, tooSoon. rewrite Hme.
  unfold ret at 1.
  destruct (sortBy _ _) as [|blk rest]; [reflexivity|].
  destruct (Qltb _ _); [reflexivity|].
  unfold modify, tryCatch, bind, call, lookAtBlock. simpl actions.
  destruct (remote env (List.length (actions b)) _); [reflexivity|].
  change (effect env (act_lookAt ?p) ?x) with x.
  rewrite length_actions_push.
  change (actions (withState (setLastDig now') b)) with (actions b).
  destruct (remote env (S (List.length (actions b))) _); reflexivity.
Qed.

Lemma griefLogic1_no_entity env b now now' targetPos :
  botEntity b = None ->
  finalBotOf (griefLogic Overhaul1 env now now' targetPos b) = b.
Proof.
  intros Hme. unfold griefLogic, bind, get. rewrite Hme.
  destruct (uptoQ (scanRadius (cfg env))); reflexivity.
Qed.

(** [griefLogic] of depster.js: the navigation goal is set, then the read of
    [scanRadius] throws. *)
Lemma griefLogic2_run env b now now' targetPos :
  let g := act_setGoal (GoalBlock (qx targetPos) (qy targetPos) (qz targetPos))
                       true in
  griefLogic Overhaul2 env now now' targetPos b
  = match remote env (List.length (actions b)) g with
    | Some e => Raised e (pushAction g b)
    | None =>
        Raised (ReferenceError "scanRadius") (effect env g (pushAction g b))
    end.
Proof.
  intros g. unfold griefLogic, bind, call. fold g.
  destruct (remote env (List.length (actions b)) g); reflexivity.
Qed.

Lemma digs_app l l' : digs (l ++ l') = (digs l + digs l')%nat.
Proof. unfold digs. now rewrite filter_app, length_app. Qed.

Lemma looks_app l l' : looks (l ++ l') = (looks l + looks l')%nat.
Proof. unfold looks. now rewrite filter_app, length_app. Qed.

(** part_000 does what C1 says: whenever [griefLogic] issues calls, it looks
    at and then digs the block that the scan pushed and that is nearest to
    the bot; that block is loaded, within reach, not air and not protected. *)
Lemma part000_digs_nearest_unprotected env b me now now' targetPos :
  botEntity b = Some me ->
  let b' := finalBotOf (griefLogic Overhaul1 env now now' targetPos b) in
  ((found env b me targetPos = [] \/ tooSoon env b now = true) ->
   b' = b) /\
  (found env b me targetPos <> [] -> tooSoon env b now = false ->
   exists blk,
     In blk (found env b me targetPos) /\
     (forall other, In other (found env b me targetPos) ->
        (distSq (e_position me) (ofGrid (position blk))
         <= distSq (e_position me) (ofGrid (position other)))%Q) /\
     setHas (protectedIds env) (blockType blk) = false /\
     (actions b' = actions b ++ [lookAtBlock blk] \/
      actions b' = actions b ++ [lookAtBlock blk; act_dig blk])).
Proof.
  intros Hme b'. unfold b'. rewrite (griefLogic1_run env b me) by assumption.
  split.
  - intros [Hnil|Hsoon].
    + rewrite Hnil. reflexivity.
    + rewrite Hsoon. now destruct (sortBy _ _).
  - intros Hne Hsoon. rewrite Hsoon.
    destruct (sortBy (nearerOrEqual (e_position me)) (found env b me targetPos))
      as [|blk rest] eqn:Hsort.
    + apply sortBy_nil in Hsort. contradiction.
    + apply (sortBy_first _ (nearerOrEqual_total (e_position me))
                            (nearerOrEqual_trans (e_position me))) in Hsort
        as [Hin Hmin].
      exists blk. split; [assumption|]. split; [|split].
      * intros other Ho. apply Hmin in Ho. now apply Qle_bool_iff in Ho.
      * unfold found in Hin.
        destruct (proj1 (scanBlocks_spec _ _ _ _ _ _ _) Hin)
          as (dx & dy & dz & _ & _ & _ & _ & _ & _ & Hp).
        exact Hp.
      * cbv zeta.
        destruct (remote env (List.length (actions b)) (lookAtBlock blk));
          [now left|].
        destruct (remote env (S (List.length (actions b))) (act_dig blk));
          right; simpl; now rewrite <- app_assoc.
Qed.

(** What one run of [griefLogic] does to the timestamp and to the calls
    issued.  Either nothing is dug, nothing looked at and the timestamp is
    kept; or the interval had elapsed, at most one block is dug, and the
    timestamp is the clock reading of the run. *)
Lemma griefLogic_effect rev env b now now' targetPos :
  let b' := finalBotOf (griefLogic rev env now now' targetPos b) in
  (tooSoon env b now = true ->
   digs (actions b') = digs (actions b) /\
   looks (actions b') = looks (actions b) /\
   lastDig (state b') = lastDig (state b)) /\
  ((digs (actions b') = digs (actions b) /\
    looks (actions b') = looks (actions b) /\
    lastDig (state b') = lastDig (state b))
   \/
   (tooSoon env b now = false /\ rev = Overhaul1 /\
    (digs (actions b') <= digs (actions b) + 1)%nat /\
    lastDig (state b') = now')).
Proof.
  intros b'. unfold b'. destruct rev.
  - destruct (botEntity b) as [me|] eqn:Hme.
    + rewrite (griefLogic1_run env b me) by assumption.
      destruct (sortBy _ _) as [|blk rest]; [simpl; tauto|].
      destruct (tooSoon env b now) eqn:Hsoon; [simpl; tauto|].
      split; [discriminate|]. right. split; [reflexivity|].
      split; [reflexivity|]. cbv zeta.
      unfold lookAtBlock.
      destruct (remote env (List.length (actions b)) _).
      * simpl. unfold digs. rewrite filter_app, length_app. simpl.
        split; [lia|reflexivity].
      * destruct (remote env (S (List.length (actions b))) (act_dig blk));
          simpl; unfold digs; rewrite !filter_app, !length_app; simpl;
          (split; [lia|reflexivity]).
    + rewrite griefLogic1_no_entity by assumption. tauto.
  - rewrite griefLogic2_run. cbv zeta.
    destruct (remote env (List.length (actions b)) _); simpl;
      unfold digs, looks; rewrite !filter_app, !length_app; simpl;
      rewrite !Nat.add_0_r; tauto.
Qed.

Lemma sharedConfig_clickDelay rev :
  (clickDelay (sharedConfig rev) == 1000 / cps (sharedConfig rev))%Q.
Proof. destruct rev; reflexivity. Qed.

(** C4.  The interval [clickDelay] is [1000 / cps].  Of two consecutive runs
    of [griefLogic] on one unit whose starts are less than [1000 / cps] apart
    (the clock not running backwards within the first run, and nothing
    between the runs touching the timestamp or digging), at most one digs.
    And a run that starts before the interval since the recorded timestamp
    has elapsed digs nothing, looks at nothing and keeps the timestamp. *)
Theorem rate_limit_one_action_per_interval :
  forall (rev : Revision) (env : Env) (b b2 : Bot)
         (now1 now1' now2 now2' : Z) (targetPos1 targetPos2 : Vec3q),
    (clickDelay (cfg env) == 1000 / cps (cfg env))%Q ->
    now1 <= now1' ->
    (inject_Z (now2 - now1) < 1000 / cps (cfg env))%Q ->
    let b1 := finalBotOf (griefLogic rev env now1 now1' targetPos1 b) in
    lastDig (state b2) = lastDig (state b1) ->
    digs (actions b2) = digs (actions b1) ->
    let b3 := finalBotOf (griefLogic rev env now2 now2' targetPos2 b2) in
    (digs (actions b3) <= digs (actions b) + 1)%nat /\
    (forall (b0 : Bot) (now now' : Z) (targetPos : Vec3q),
        (inject_Z (now - lastDig (state b0)) < clickDelay (cfg env))%Q ->
        let b0' := finalBotOf (griefLogic rev env now now' targetPos b0) in
        digs (actions b0') = digs (actions b0) /\
        looks (actions b0') = looks (actions b0) /\
        lastDig (state b0') = lastDig (state b0)).
Proof.
  intros rev env b b2 now1 now1' now2 now2' tp1 tp2 Hdelay Hclock Hclose
         b1 Hstamp Hdigs b3.
  split.
  - destruct (griefLogic_effect rev env b now1 now1' tp1) as [_ Hfirst].
    destruct (griefLogic_effect rev env b2 now2 now2' tp2) as [Hskip Hsecond].
    fold b1 in Hfirst. fold b3 in Hskip, Hsecond.
    destruct Hfirst as [(Hd1 & _ & _)|(_ & _ & Hd1 & Hl1)].
    + destruct Hsecond as [(Hd3 & _)|(_ & _ & Hd3 & _)]; lia.
    + assert (Hsoon : tooSoon env b2 now2 = true).
      { unfold tooSoon. apply Qltb_lt. rewrite Hstamp, Hl1.
        assert (Hle : (inject_Z (now2 - now1') <= inject_Z (now2 - now1))%Q).
        { rewrite <- Zle_Qle. lia. }
        revert Hdelay Hclose Hle.
        generalize (1000 / cps (cfg env))%Q (clickDelay (cfg env))
                   (inject_Z (now2 - now1')) (inject_Z (now2 - now1)).
        intros q d x y Hdelay Hclose Hle. qlra. }
      destruct (Hskip Hsoon) as (Hd3 & _). lia.
  - intros b0 now now' tp Hsoon b0'.
    destruct (griefLogic_effect rev env b0 now now' tp) as [Hskip _].
    apply Hskip. unfold tooSoon. now apply Qltb_lt.
Qed.

Lemma rate_limit_one_action_per_interval_witness :
  let env := sampleEnv Overhaul1 in
  let b1 := finalBotOf (griefLogic Overhaul1 env 1000 1000 (e_position bob) griefBot) in
  let b3 := finalBotOf (griefLogic Overhaul1 env 1010 1010 (e_position bob) b1) in
  (digs (actions b3) <= digs (actions griefBot) + 1)%nat /\
  (forall (b0 : Bot) (now now' : Z) (targetPos : Vec3q),
      (inject_Z (now - lastDig (state b0)) < clickDelay (cfg env))%Q ->
      let b0' := finalBotOf (griefLogic Overhaul1 env now now' targetPos b0) in
      digs (actions b0') = digs (actions b0) /\
      looks (actions b0') = looks (actions b0) /\
      lastDig (state b0') = lastDig (state b0)).
Proof.
  intros env b1 b3.
  apply (rate_limit_one_action_per_interval Overhaul1 env griefBot b1
           1000 1000 1010 1010 (e_position bob) (e_position bob)).
  - reflexivity.
  - lia.
  - reflexivity.
  - reflexivity.
  - reflexivity.
Defined.

(** C1 on depster.js.  [griefLogic] reads [scanRadius] as a bare identifier that
    no scope binds, so every run throws before the scan starts: no block is
    ever looked at or dug, whatever the world holds.  On one and the same
    grief tick (a stone block two cells away, bedrock right below the bot),
    part_000 looks at and digs the stone, while depster.js only sets the
    navigation goal and posts the ReferenceError. *)
Theorem depster_griefLogic_throws_before_scan :
  (forall (env : Env) (b : Bot) (now now' : Z) (targetPos : Vec3q),
      exists e b',
        griefLogic Overhaul2 env now now' targetPos b = Raised e b' /\
        digs (actions b') = digs (actions b) /\
        looks (actions b') = looks (actions b) /\
        (remote env (List.length (actions b))
                (act_setGoal (GoalBlock (qx targetPos) (qy targetPos) (qz targetPos))
                             true) = None ->
         e = ReferenceError "scanRadius")) /\
  actions (finalBotOf (physicsTick Overhaul1 (sampleEnv Overhaul1) 1000 1000 griefBot))
  = [act_setGoal (GoalFollow bob (8 - 1)%Q) true; lookAtBlock stoneAt2;
     act_dig stoneAt2] /\
  actions (finalBotOf (physicsTick Overhaul2 (sampleEnv Overhaul2) 1000 1000 griefBot))
  = [act_setGoal (GoalBlock (1 # 2) 0 (1 # 2)) true] /\
  sent (finalBotOf (physicsTick Overhaul2 (sampleEnv Overhaul2) 1000 1000 griefBot))
  = [workerMsg (error_msg (StackText (ReferenceError "scanRadius"))) (Some "Alice")].
Proof.
  split; [|split; [|split]].
  - intros env b now now' tp. rewrite griefLogic2_run. cbv zeta.
    destruct (remote env (List.length (actions b)) _) eqn:E.
    + eexists _, _. split; [reflexivity|]. simpl.
      unfold digs, looks. rewrite !filter_app, !length_app. simpl.
      repeat split; try lia. discriminate.
    + eexists _, _. split; [reflexivity|]. simpl.
      unfold digs, looks. rewrite !filter_app, !length_app. simpl.
      repeat split; lia.
  - vm_compute. reflexivity.
  - vm_compute. reflexivity.
  - vm_compute. reflexivity.
Qed.

(** ** Structure planner *)

Lemma distinctPositions_NoDup l : distinctPositions l = true -> NoDup l.
Proof.
  induction l as [|v l IH]; simpl; intros H; constructor.
  - apply andb_true_iff in H as [H _]. apply negb_true_iff in H.
    intros Hin. assert (E : existsb (Vec3_eqb v) l = true).
    { apply existsb_exists. exists v. split; [assumption|]. now apply Vec3_eqb_eq. }
    congruence.
  - apply andb_true_iff in H as [_ H]. now apply IH.
Qed.

Lemma solid_not_empty w p : solidAt w p -> ~ emptyAt w p.
Proof. intros (d & Hd & Hb) (d' & Hd' & Hb'). congruence. Qed.

Lemma plus_scaled_back p a : plus (plus p a) (scaled a (-1)) = p.
Proof.
  destruct p as [x y z], a as [ax ay az]. unfold plus, scaled; simpl.
  f_equal; lia.
Qed.


Lemma setBlock_solid w dest d p :
  b_boundingBox d = box_block -> solidAt w p -> solidAt (setBlock w dest d) p.
Proof.
  intros Hd (d0 & Hw & Hb). unfold solidAt, setBlock.
  destruct (Vec3_eqb p dest); eauto.
Qed.

Lemma call_run env a b :
  call env a b
  = match remote env (List.length (actions b)) a with
    | Some e => Raised e (pushAction a b)
    | None => Done tt (effect env a (pushAction a b))
    end.
Proof. reflexivity. Qed.

(** The loop over the neighbours never throws and only adds solid blocks. *)
Lemma placeAgainstNeighbours_done env blockPos adjs :
  forall b, exists b',
    placeAgainstNeighbours env blockPos adjs b = Done tt b' /\
    state b' = state b /\
    (forall p, solidAt (world b) p -> solidAt (world b') p).
Proof.
  induction adjs as [|adj rest IH]; intros b; simpl.
  - exists b. repeat split; auto.
  - unfold bind, get.
    destruct (blockAt (world b) (plus blockPos adj)) as [ref|]; [|apply IH].
    destruct (boundingBox ref); [|apply IH].
    unfold tryCatch, bind. rewrite call_run.
    destruct (remote env (List.length (actions b)) _).
    + destruct (IH (pushAction (act_placeBlock ref (scaled adj (-1))) b))
        as (b' & Hrun & Hst & Hw).
      exists b'. repeat split; assumption.
    + eexists. split; [reflexivity|]. split; [reflexivity|].
      intros p Hp. simpl. now apply setBlock_solid.
Qed.

Lemma fillOffset_done env playerPos o :
  forall b, exists b',
    fillOffset Overhaul2 env playerPos o b = Done tt b' /\
    state b' = state b /\
    (forall p, solidAt (world b) p -> solidAt (world b') p).
Proof.
  intros b. unfold fillOffset, bind, get.
  destruct (blockAt (world b) (plus playerPos o)) as [blk|].
  - destruct (boundingBox blk).
    + exists b. repeat split; auto.
    + apply placeAgainstNeighbours_done.
  - exists b. repeat split; auto.
Qed.

















(** A rejected placement is retried against the next solid neighbour.  On the
    platform, the wall offset (0,0,-1) has the floor below it and, once the
    corner (-1,0,-1) is built, that corner beside it; the placement against
    the floor is rejected, the one against the corner is accepted, and the
    position is solid when the run ends. *)
Example rejected_placement_is_retried :
  let after := finalBotOf (trapLogic Overhaul2 retryEnv bob trapBot) in
  let stone := blockData "stone" 1 box_block in
  nth_error (actions after) 6
  = Some (act_placeBlock (mkBlock (vec3 0 (-1) (-1)) stone) (vec3 0 1 0)) /\
  nth_error (actions after) 7
  = Some (act_placeBlock (mkBlock (vec3 (-1) 0 (-1)) (placedBlock retryEnv))
                         (vec3 1 0 0)) /\
  remote retryEnv 6 (act_placeBlock (mkBlock (vec3 0 (-1) (-1)) stone) (vec3 0 1 0))
  = Some (RemoteError 6) /\
  world after (vec3 0 0 (-1)) = Some (placedBlock retryEnv).
Proof. vm_compute. repeat split. Qed.

(** With every placement accepted, the planner of depster.js leaves all 33
    offset positions solid on the platform. *)
Example planner_builds_enclosure :
  let after := finalBotOf (trapLogic Overhaul2 (sampleEnv Overhaul2) bob trapBot) in
  forallb (fun o => match world after (plus (floored (e_position bob)) o) with
                    | Some d => match b_boundingBox d with
                                | box_block => true
                                | box_empty => false
                                end
                    | None => false
                    end) (map pos trapOffsets) = true.
Proof. vm_compute. reflexivity. Qed.

(** The planner of part_000 on the same platform, every placement accepted:
    it places against the block below with the face vector pointing down, so
    the wall offset (-1,0,-1) stays air and the dirt lands two cells lower. *)
Example part000_places_below_the_platform :
  let after := finalBotOf (trapLogic Overhaul1 (sampleEnv Overhaul1) bob trapBot) in
  world after (vec3 (-1) 0 (-1)) = Some airBlock /\
  world after (vec3 (-1) (-2) (-1)) = Some (placedBlock (sampleEnv Overhaul1)).
Proof. vm_compute. split; reflexivity. Qed.

Lemma placementCells_app l l' :
  placementCells (l ++ l') = placementCells l ++ placementCells l'.
Proof. unfold placementCells. apply flat_map_app. Qed.

(** In depster.js every placement for an offset is aimed at the offset
    position itself. *)
Lemma placeAgainstNeighbours_cells env blockPos adjs (Q : Vec3 -> Prop) :
  Q blockPos ->
  forall b,
    Forall Q (placementCells (actions b)) ->
    Forall Q (placementCells
                (actions (finalBotOf (placeAgainstNeighbours env blockPos adjs b)))).
Proof.
  intros HQ. induction adjs as [|adj rest IH]; intros b Hb; simpl; [assumption|].
  unfold bind, get.
  destruct (blockAt (world b) (plus blockPos adj)) as [ref|] eqn:Hat; [|now apply IH].
  destruct (boundingBox ref); [|now apply IH].
  assert (Hpos : position ref = plus blockPos adj).
  { unfold blockAt in Hat. destruct (world b (plus blockPos adj)); [|discriminate].
    simpl in Hat. now inversion Hat. }
  assert (Hpush : Forall Q (placementCells
                              (actions (pushAction
                                          (act_placeBlock ref (scaled adj (-1))) b)))).
  { rewrite actions_pushAction, placementCells_app. apply Forall_app.
    split; [assumption|]. simpl. rewrite Hpos, plus_scaled_back.
    now constructor. }
  unfold tryCatch, bind. rewrite call_run.
  destruct (remote env (List.length (actions b)) _).
  - now apply IH.
  - exact Hpush.
Qed.

Lemma forEachOffset_cells env playerPos offsets (Q : Vec3 -> Prop) :
  (forall o, In o offsets -> Q (plus playerPos o)) ->
  forall b,
    Forall Q (placementCells (actions b)) ->
    Forall Q (placementCells
                (actions (finalBotOf
                            (forEachOffset Overhaul2 env playerPos offsets b)))).
Proof.
  induction offsets as [|o rest IH]; intros HQ b Hb; simpl; [assumption|].
  unfold bind.
  destruct (fillOffset_done env playerPos o b) as (b1 & Hrun & _).
  assert (H1 : Forall Q (placementCells (actions b1))).
  { replace b1 with (finalBotOf (fillOffset Overhaul2 env playerPos o b))
      by now rewrite Hrun.
    unfold fillOffset, bind, get.
    destruct (blockAt (world b) (plus playerPos o)) as [blk|]; [|assumption].
    destruct (boundingBox blk); [assumption|].
    apply placeAgainstNeighbours_cells; [|assumption].
    apply HQ. now left. }
  rewrite Hrun. apply IH; [|assumption].
  intros o' Ho'. apply HQ. now right.
Qed.

(** The message the [spawn] handler of an authentication-flow worker posts is
    the one the main thread is taken to receive. *)
Lemma onSpawn_posts_authenticated rev env u nickname b :
  initialUsername env = username u ->
  isAuthWorkerW env = true ->
  remote env (List.length (actions b)) (act_appendAccount (nickname ++ newline))
  = None ->
  exists b',
    onSpawn rev env nickname b = Done tt b' /\
    exists rest, sent b' = sent b ++ authenticatedMsg rev u nickname :: rest.
Proof.
  intros Hname Hauth Hacc.
  unfold onSpawn, bind, modify. rewrite Hauth.
  destruct rev; rewrite call_run; simpl actions; rewrite Hacc;
    (eexists; split; [reflexivity|]);
    unfold authenticatedMsg; simpl; rewrite Hname;
    eexists; rewrite <- !app_assoc; reflexivity.
Qed.

(** ** The trap offset set *)

Lemma trapOffsets_positions :
  map pos trapOffsets
  = [ vec3 (-1) (-1) (-1); vec3 (-1) (-1) 0; vec3 (-1) (-1) 1;
      vec3 0 (-1) (-1); vec3 0 (-1) 1;
      vec3 1 (-1) (-1); vec3 1 (-1) 0; vec3 1 (-1) 1;
      vec3 (-1) 0 (-1); vec3 (-1) 0 1; vec3 1 0 (-1); vec3 1 0 1;
      vec3 0 0 (-1); vec3 0 0 1; vec3 (-1) 0 0; vec3 1 0 0;
      vec3 (-1) 1 (-1); vec3 (-1) 1 1; vec3 1 1 (-1); vec3 1 1 1;
      vec3 0 1 (-1); vec3 0 1 1; vec3 (-1) 1 0; vec3 1 1 0;
      vec3 (-1) 2 (-1); vec3 (-1) 2 0; vec3 (-1) 2 1;
      vec3 0 2 (-1); vec3 0 2 0; vec3 0 2 1;
      vec3 1 2 (-1); vec3 1 2 0; vec3 1 2 1 ].
Proof. reflexivity. Qed.

Lemma offsetsOf_same rev : offsetsOf rev = map pos trapOffsets.
Proof. now destruct rev. Qed.

Lemma square_cases x : -1 <= x <= 1 -> x = -1 \/ x = 0 \/ x = 1.
Proof. lia. Qed.

Ltac enumerate_offsets H :=
  simpl in H; repeat (destruct H as [H|H]; [subst; simpl|]); try contradiction.

(** C10.  The trap offset set has 33 pairwise distinct positions: the 8 floor
    offsets are the cells of the 3x3 square at y = -1 other than the one under
    the origin; the 16 wall offsets are the cells of the square at y = 0 and
    y = 1 off the origin column; the 9 roof offsets are the square at y = 2.
    The cells (0,0,0) and (0,1,0) are not in the set, so no position the
    planner sets out to fill is a cell of the target, and no placement call
    of the planner of depster.js is aimed at a cell of the target; part_000
    builds the same positions. *)
Theorem trapOffsets_partition :
  List.length trapOffsets = 33%nat /\
  NoDup (map pos trapOffsets) /\
  List.length (filter (ofType floor) trapOffsets) = 8%nat /\
  List.length (filter (ofType wall) trapOffsets) = 16%nat /\
  List.length (filter (ofType roof) trapOffsets) = 9%nat /\
  (forall v, In v (map pos (filter (ofType floor) trapOffsets))
             <-> vy v = -1 /\ inSquare v = true /\ onAxis v = false) /\
  (forall v, In v (map pos (filter (ofType wall) trapOffsets))
             <-> (vy v = 0 \/ vy v = 1) /\ inSquare v = true /\ onAxis v = false) /\
  (forall v, In v (map pos (filter (ofType roof) trapOffsets))
             <-> vy v = 2 /\ inSquare v = true) /\
  ~ In (vec3 0 0 0) (map pos trapOffsets) /\
  ~ In (vec3 0 1 0) (map pos trapOffsets) /\
  trapOffsets1 = map pos trapOffsets /\
  (forall rev playerPos o,
      In o (offsetsOf rev) ->
      plus playerPos o <> playerPos /\
      plus playerPos o <> plus playerPos (vec3 0 1 0)) /\
  (forall env playerPos b,
      let clear := fun c => c <> playerPos /\ c <> plus playerPos (vec3 0 1 0) in
      Forall clear (placementCells (actions b)) ->
      Forall clear
        (placementCells
           (actions (finalBotOf (forEachOffset Overhaul2 env playerPos
                                   (map pos trapOffsets) b))))).
Proof.
  assert (Hsq : forall v, inSquare v = true -> -1 <= vx v <= 1 /\ -1 <= vz v <= 1).
  { intros v H. unfold inSquare in H.
    rewrite !andb_true_iff, !Z.leb_le in H. lia. }
  assert (H0 : ~ In (vec3 0 0 0) (map pos trapOffsets)).
  { intros H. enumerate_offsets H; discriminate. }
  assert (H1 : ~ In (vec3 0 1 0) (map pos trapOffsets)).
  { intros H. enumerate_offsets H; discriminate. }
  assert (Hclear : forall (rev : Revision) playerPos o,
             In o (offsetsOf rev) ->
             plus playerPos o <> playerPos /\
             plus playerPos o <> plus playerPos (vec3 0 1 0)).
  { intros rev playerPos o Hin. rewrite offsetsOf_same in Hin.
    destruct playerPos as [x y z], o as [ox oy oz]. unfold plus; simpl.
    split; intros [= Hx Hy Hz].
    + assert (ox = 0 /\ oy = 0 /\ oz = 0) as (-> & -> & ->) by lia. tauto.
    + assert (ox = 0 /\ oy = 1 /\ oz = 0) as (-> & -> & ->) by lia. tauto. }
  repeat match goal with |- _ /\ _ => split end; try reflexivity.
  - apply distinctPositions_NoDup. reflexivity.
  - intros v. split.
    + intros H. enumerate_offsets H; repeat split.
    + intros (Hy & Hs & Ha). destruct v as [x y z]. simpl in Hy. subst y.
      apply Hsq in Hs. simpl in Hs. unfold onAxis in Ha. simpl in Ha.
      destruct Hs as [Hx Hz].
      apply square_cases in Hx as [-> | [-> | -> ] ];
        apply square_cases in Hz as [-> | [-> | -> ] ];
        simpl in Ha; try discriminate; simpl; tauto.
  - intros v. split.
    + intros H. enumerate_offsets H; repeat split; auto.
    + intros (Hy & Hs & Ha). destruct v as [x y z]. simpl in Hy.
      apply Hsq in Hs. simpl in Hs. unfold onAxis in Ha. simpl in Ha.
      destruct Hs as [Hx Hz].
      destruct Hy as [-> | ->];
        apply square_cases in Hx as [-> | [-> | -> ] ];
        apply square_cases in Hz as [-> | [-> | -> ] ];
        simpl in Ha; try discriminate; simpl; tauto.
  - intros v. split.
    + intros H. enumerate_offsets H; repeat split.
    + intros (Hy & Hs). destruct v as [x y z]. simpl in Hy. subst y.
      apply Hsq in Hs. simpl in Hs. destruct Hs as [Hx Hz].
      apply square_cases in Hx as [-> | [-> | -> ] ];
        apply square_cases in Hz as [-> | [-> | -> ] ]; simpl; tauto.
  - exact H0.
  - exact H1.
  - exact Hclear.
  - intros env playerPos b clear Hb.
    apply forEachOffset_cells; [|assumption].
    intros o Ho. apply (Hclear Overhaul2). exact Ho.
Qed.

(* ================================================================== *)
(** * Further properties of the main thread *)

Lemma map_has_keys {V : Type} k (m : JsMap V) :
  map_has k m = existsb (String.eqb k) (map_keys m).
Proof.
  unfold map_has, map_keys. induction m as [|[k' v] m IH]; simpl; [reflexivity|].
  rewrite (String.eqb_sym k k'). destruct (k' =? k)%string; simpl; [reflexivity|].
  exact IH.
Qed.

Lemma map_set_fresh {V : Type} k (v : V) (m : JsMap V) :
  map_has k m = false -> map_set k v m = m ++ [(k, v)].
Proof.
  unfold map_has. induction m as [|[k' v'] m IH]; simpl; [reflexivity|].
  destruct (k' =? k)%string; [discriminate|]. intros H. now rewrite IH.
Qed.

Lemma spawn_fields rev name auth s :
  let s' := spawnWorkerFor rev name auth s in
  posted s' = posted s /\ timers s' = timers s /\ terminated s' = terminated s /\
  (map_has name (activeWorkers s) = true ->
   activeWorkers s' = activeWorkers s /\ spawned s' = spawned s) /\
  (map_has name (activeWorkers s) = false ->
   activeWorkers s'
   = activeWorkers s ++ [(name, workerInfo (List.length (spawned s)) None)] /\
   spawned s' = spawned s ++ [mkUnit (List.length (spawned s)) name auth]).
Proof.
  unfold spawnWorkerFor.
  destruct (map_has name (activeWorkers s)) eqn:Hhas; simpl.
  - repeat split; discriminate.
  - split; [reflexivity|]. split; [reflexivity|]. split; [reflexivity|].
    split; [discriminate|]. intros _. split; [|reflexivity].
    now apply map_set_fresh.
Qed.

(** X1.  At start-up one worker is created per distinct handle of the accounts
    list, in the order of first occurrence: a handle listed twice is spawned
    once.  The workers get the ids 0, 1, ... in that order, none is an
    authentication-flow unit, no final handle is recorded, and nothing is
    posted or scheduled. *)
Theorem startup_spawns_each_account_once :
  forall (rev : Revision) (accounts : list string),
    let s := startup rev accounts in
    let handles := firstOccurrences accounts in
    map_keys (activeWorkers s) = handles /\
    workersOf (activeWorkers s) = seq 0 (List.length handles) /\
    map username (spawned s) = handles /\
    map u_worker (spawned s) = seq 0 (List.length handles) /\
    Forall (fun u => isAuthWorker u = false) (spawned s) /\
    Forall (fun kv => finalUsername (snd kv) = None) (activeWorkers s) /\
    posted s = [] /\ timers s = [] /\
    (forall h, In h handles <-> In h accounts) /\ NoDup handles.
Proof.
  intros rev accounts s handles.
  set (I := fun (t : Main) (acc : list string) =>
              map_keys (activeWorkers t) = acc /\
              workersOf (activeWorkers t) = seq 0 (List.length acc) /\
              map username (spawned t) = acc /\
              map u_worker (spawned t) = seq 0 (List.length acc) /\
              Forall (fun u => isAuthWorker u = false) (spawned t) /\
              Forall (fun kv => finalUsername (snd kv) = None) (activeWorkers t) /\
              posted t = [] /\ timers t = []).
  assert (Hfold : forall l t acc,
             I t acc ->
             I (fold_left (fun s0 u => spawnWorkerFor rev u false s0) l t)
               (fold_left (fun a x => if existsb (String.eqb x) a then a
                                      else a ++ [x]) l acc)).
  { induction l as [|x l IH]; intros t acc Ht; simpl; [exact Ht|].
    apply IH. destruct Ht as (Hk & Hw & Hu & Hi & Ha & Hf & Hp & Ht).
    destruct (spawn_fields rev x false t) as (Hp' & Ht' & _ & Hold & Hnew).
    assert (E : existsb (String.eqb x) acc = map_has x (activeWorkers t))
      by (now rewrite map_has_keys, Hk).
    rewrite E.
    destruct (map_has x (activeWorkers t)) eqn:Hhas.
    - destruct (Hold eq_refl) as [Em Es]. unfold I.
      rewrite Em, Es, Hp', Ht'. repeat split; assumption.
    - destruct (Hnew eq_refl) as [Em Es]. unfold I.
      assert (Hlen : List.length (spawned t) = List.length acc).
      { rewrite <- Hu. now rewrite length_map. }
      rewrite Em, Es, Hp', Ht'. unfold map_keys, workersOf in *.
      rewrite !map_app, !length_app, Hk, Hw, Hu, Hi, Hlen. simpl.
      rewrite Nat.add_1_r, seq_S. simpl.
      repeat split; try assumption; try reflexivity.
      + apply Forall_app. split; [assumption|]. now constructor.
      + apply Forall_app. split; [assumption|]. now constructor. }
  assert (H0 : I initialMain []) by (unfold I; simpl; repeat split; constructor).
  specialize (Hfold accounts initialMain [] H0).
  destruct Hfold as (Hk & Hw & Hu & Hi & Ha & Hf & Hp & Ht).
  fold (startup rev accounts) in *. fold (firstOccurrences accounts) in *.
  fold s in Hk, Hw, Hu, Hi, Ha, Hf, Hp, Ht. fold handles in Hk, Hw, Hu, Hi.
  repeat split; try assumption.
  - unfold handles, firstOccurrences.
    assert (G : forall l acc y,
               In y (fold_left (fun a x => if existsb (String.eqb x) a then a
                                           else a ++ [x]) l acc)
               -> In y acc \/ In y l).
    { induction l as [|x l IH]; intros acc y Hin; simpl in *; [tauto|].
      apply IH in Hin as [Hin|Hin]; [|tauto].
      destruct (existsb (String.eqb x) acc); [tauto|].
      apply in_app_iff in Hin as [Hin|[->|[]]]; tauto. }
    intros Hin. apply G in Hin as [[]|Hin]. exact Hin.
  - unfold handles, firstOccurrences.
    assert (G : forall l acc y,
               In y acc \/ In y l ->
               In y (fold_left (fun a x => if existsb (String.eqb x) a then a
                                           else a ++ [x]) l acc)).
    { induction l as [|x l IH]; intros acc y Hin; simpl in *; [tauto|].
      apply IH. destruct Hin as [Hin|[->|Hin]]; [| |tauto].
      - left. destruct (existsb (String.eqb x) acc); [assumption|].
        apply in_app_iff. now left.
      - left. destruct (existsb (String.eqb y) acc) eqn:E.
        + apply existsb_exists in E as (z & Hz & Ez).
          apply String.eqb_eq in Ez. now subst z.
        + apply in_app_iff. right. now left. }
    intros Hin. apply G. now right.
  - rewrite <- Hk. apply (reachable_wellKeyed rev). apply reachable_startup.
Qed.

(** X2.  Spawning a handle leaves it registered, and spawning it again changes
    nothing but the log: no second worker is created for a handle that has an
    entry.  A first spawn registers a worker with a new id and no final
    handle, and leaves every other entry as it was. *)
Theorem spawn_twice_is_spawn_once :
  forall (rev : Revision) (name : string) (auth auth' : bool) (s : Main),
    let s1 := spawnWorkerFor rev name auth s in
    let s2 := spawnWorkerFor rev name auth' s1 in
    map_has name (activeWorkers s1) = true /\
    activeWorkers s2 = activeWorkers s1 /\ spawned s2 = spawned s1 /\
    posted s2 = posted s1 /\ timers s2 = timers s1 /\
    terminated s2 = terminated s1 /\
    (forall k, k <> name ->
               map_get k (activeWorkers s1) = map_get k (activeWorkers s)) /\
    (map_has name (activeWorkers s) = true ->
     activeWorkers s1 = activeWorkers s /\ spawned s1 = spawned s) /\
    (map_has name (activeWorkers s) = false ->
     map_get name (activeWorkers s1)
     = Some (workerInfo (List.length (spawned s)) None) /\
     nth_error (spawned s1) (List.length (spawned s))
     = Some (mkUnit (List.length (spawned s)) name auth)).
Proof.
  intros rev name auth auth' s s1 s2.
  assert (Hhas1 : map_has name (activeWorkers s1) = true).
  { unfold s1, spawnWorkerFor.
    destruct (map_has name (activeWorkers s)) eqn:Hhas; simpl; [assumption|].
    unfold map_has. now rewrite map_get_set_same. }
  destruct (spawn_fields rev name auth' s1) as (Hp & Ht & Hterm & Hold & _).
  destruct (Hold Hhas1) as [Em Es]. fold s2 in Hp, Ht, Hterm, Em, Es.
  repeat match goal with |- _ /\ _ => split end; try assumption.
  - intros k Hk. unfold s1, spawnWorkerFor.
    destruct (map_has name (activeWorkers s)); simpl; [reflexivity|].
    now apply map_get_set_other.
  - intros Hhas. destruct (spawn_fields rev name auth s) as (_ & _ & _ & H & _).
    now apply H.
  - intros Hhas. unfold s1, spawnWorkerFor. rewrite Hhas. simpl. split.
    + apply map_get_set_same.
    + rewrite nth_error_app2 by lia. now rewrite Nat.sub_diag.
Qed.

(** Handlers that leave a field alone: every branch is inspected. *)
Ltac same_field :=
  repeat match goal with
         | |- context [match ?x with _ => _ end] => destruct x
         | |- context [if ?x then _ else _] => destruct x
         end;
  try reflexivity.

Lemma onMessage_fields rev u msg s :
  let s' := onMessage rev u msg s in
  spawned s' = spawned s /\ posted s' = posted s /\ timers s' = timers s /\
  terminated s' = terminated s.
Proof.
  unfold onMessage, onAuthenticated.
  destruct msg as [m|]; [|repeat split].
  destruct (body m), rev; cbv zeta; repeat split; same_field.
Qed.

Lemma onExit_fields rev u code s :
  let s' := onExit rev u code s in
  spawned s' = spawned s /\ posted s' = posted s /\ terminated s' = terminated s /\
  (timers s' = timers s \/ exists k, timers s' = timers s ++ [(respawnDelay, k)]).
Proof.
  unfold onExit.
  destruct (findExited (u_worker u) (activeWorkers s)) as [[k info]|];
    [|repeat split; now left].
  destruct (truthyStr k); [|repeat split; now left].
  destruct rev, (negb (code =? 0) && negb (isAuthWorker u)); simpl;
    repeat split; (now left) || (right; now exists k).
Qed.

Lemma terminate_fold_terminated l s :
  let s' := fold_left (fun acc w => terminate (worker w) acc) l s in
  terminated s' = terminated s ++ map worker l /\
  posted s' = posted s /\ timers s' = timers s.
Proof.
  revert s. induction l as [|w l IH]; intros s; simpl.
  - now rewrite app_nil_r.
  - destruct (IH (terminate (worker w) s)) as (Ht & Hp & Hti).
    rewrite Ht, Hp, Hti. simpl. now rewrite <- app_assoc.
Qed.

Lemma forEachIndexed_terminated ws i n s :
  terminated (forEachIndexed ws i n s) = terminated s.
Proof. revert i s. induction ws as [|w ws IH]; intros i s; simpl; [reflexivity|]. now rewrite IH. Qed.

Lemma post_fold_terminated msg l s :
  terminated (fold_left (fun acc w => postMessage (worker w) msg acc) l s)
  = terminated s.
Proof. revert s. induction l as [|w l IH]; intros s; simpl; [reflexivity|]. now rewrite IH. Qed.

Lemma postAll_terminated msg s : terminated (postAll msg s) = terminated s.
Proof. unfold postAll. apply post_fold_terminated. Qed.

Lemma combine_seq_targets {A : Type} (f : nat * WorkerId -> A) i ws :
  map (fun jw => fst (snd jw, f jw)) (combine (seq i (List.length ws)) ws) = ws.
Proof.
  revert i. induction ws as [|w ws IH]; intros i; simpl; [reflexivity|].
  now rewrite IH.
Qed.

(** What one handler run adds to the workers created, the timers, the
    messages posted and the terminations asked. *)
Lemma step_shape rev s i :
  let s' := step rev s i in
  (spawned s' = spawned s \/
   exists name auth,
     spawned s' = spawned s ++ [mkUnit (List.length (spawned s)) name auth]) /\
  (timers s' = timers s \/ exists k, timers s' = timers s ++ [(respawnDelay, k)]) /\
  (exists new, posted s' = posted s ++ new /\
               Forall (fun p => In (fst p) (workersOf (activeWorkers s))) new) /\
  (exists new, terminated s' = terminated s ++ new /\
               Forall (fun w => In w (workersOf (activeWorkers s))) new).
Proof.
  assert (Hnone : forall (t : Main),
             (exists new, posted t = posted t ++ new /\
                          Forall (fun p => In (fst p) (workersOf (activeWorkers s))) new)
             /\ (exists new : list WorkerId,
                    terminated t = terminated t ++ new /\
                    Forall (fun w => In w (workersOf (activeWorkers s))) new)).
  { intros t. split; exists []; rewrite app_nil_r; split; auto. }
  assert (Hspawn : forall name auth t,
             spawned t = spawned s -> activeWorkers t = activeWorkers s ->
             spawned (spawnWorkerFor rev name auth t) = spawned s \/
             exists name0 auth0,
               spawned (spawnWorkerFor rev name auth t)
               = spawned s ++ [mkUnit (List.length (spawned s)) name0 auth0]).
  { intros name auth t Hs Ha.
    destruct (spawn_fields rev name auth t) as (_ & _ & _ & Hold & Hnew).
    destruct (map_has name (activeWorkers t)).
    - left. destruct (Hold eq_refl) as [_ E]. congruence.
    - right. exists name, auth. destruct (Hnew eq_refl) as [_ E].
      rewrite E, Hs. reflexivity. }
  destruct i as [|rnd|d|message| |w msg|w code|w er|key]; simpl.
  - split; [left; now destruct rev|]. split; [left; now destruct rev|].
    destruct rev; split; exists []; rewrite app_nil_r; split; auto.
  - unfold onSpawnAuthBot.
    destruct (spawn_fields rev ("AuthBot-" ++ showNat rnd) true s)
      as (Hp & Ht & Hterm & _).
    split; [apply (Hspawn _ _ s); reflexivity|]. split; [left; exact Ht|].
    split; exists []; rewrite app_nil_r; split; auto.
  - unfold onSendCommand. destruct d as [d|];
      [|split; [now left|split; [now left|apply Hnone]]].
    destruct (negb (truthy (getProp "command" d)));
      [split; [now left|split; [now left|apply Hnone]]|].
    destruct (isStr (getProp "command" d) "clearmap").
    + match goal with
      | |- context [forEachIndexed ?l ?i ?n ?t] =>
          destruct (forEachIndexed_fields l i n t) as (_ & Hs & _ & Ht & Hp);
          pose proof (forEachIndexed_terminated l i n t) as Hterm
      end.
      rewrite Hs, Ht, Hp, Hterm. simpl.
      split; [now left|]. split; [now left|]. split.
      * eexists. split; [reflexivity|]. apply Forall_forall. intros p Hin.
        apply (in_map fst) in Hin. rewrite map_map in Hin.
        rewrite combine_seq_targets in Hin. now rewrite <- workersOf_values.
      * exists []. rewrite app_nil_r. split; auto.
    + match goal with
      | |- context [postAll ?m ?t] =>
          destruct (postAll_fields m t) as (_ & Hs & _ & Ht & Hp);
          pose proof (postAll_terminated m t) as Hterm
      end.
      rewrite Hs, Ht, Hp, Hterm. simpl.
      split; [now left|]. split; [now left|]. split.
      * eexists. split; [reflexivity|]. apply Forall_forall. intros p Hin.
        apply in_map_iff in Hin as (x & <- & Hx). simpl.
        rewrite <- workersOf_values. now apply in_map.
      * exists []. rewrite app_nil_r. split; auto.
  - unfold onSendChat.
    match goal with
    | |- context [postAll ?m ?t] =>
        destruct (postAll_fields m t) as (_ & Hs & _ & Ht & Hp);
        pose proof (postAll_terminated m t) as Hterm
    end.
    rewrite Hs, Ht, Hp, Hterm. simpl.
    split; [now left|]. split; [now left|]. split.
    + eexists. split; [reflexivity|]. apply Forall_forall. intros p Hin.
      apply in_map_iff in Hin as (x & <- & Hx). simpl.
      rewrite <- workersOf_values. now apply in_map.
    + exists []. rewrite app_nil_r. split; auto.
  - unfold onDisconnectAll.
    match goal with
    | |- context [fold_left _ ?l ?t] =>
        destruct (terminate_fold_fields l t) as (_ & Hs);
        destruct (terminate_fold_terminated l t) as (Hterm & Hp & Ht)
    end.
    rewrite Hs, Ht, Hp, Hterm. simpl.
    split; [now left|]. split; [now left|]. split.
    + exists []. rewrite app_nil_r. split; auto.
    + eexists. split; [reflexivity|]. rewrite workersOf_values.
      apply Forall_forall. auto.
  - destruct (nth_error (spawned s) w) as [u|];
      [|split; [now left|split; [now left|apply Hnone]]].
    destruct (onMessage_fields rev u msg s) as (Hs & Hp & Ht & Hterm).
    rewrite Hs, Hp, Ht, Hterm.
    split; [now left|]. split; [now left|].
    split; exists []; rewrite app_nil_r; split; auto.
  - destruct (nth_error (spawned s) w) as [u|];
      [|split; [now left|split; [now left|apply Hnone]]].
    destruct (onExit_fields rev u code s) as (Hs & Hp & Hterm & Ht).
    rewrite Hs, Hp, Hterm.
    split; [now left|]. split; [exact Ht|].
    split; exists []; rewrite app_nil_r; split; auto.
  - destruct (nth_error (spawned s) w) as [u|];
      split; try (now left); (split; [now left|]);
      split; exists []; rewrite app_nil_r; split; auto.
  - unfold onRespawnTimer.
    match goal with
    | |- context [spawnWorkerFor rev key false ?t] =>
        destruct (spawn_fields rev key false t) as (Hp & Ht & Hterm & _);
        pose proof (Hspawn key false t eq_refl eq_refl) as Hsp
    end.
    split; [exact Hsp|]. split; [left; exact Ht|].
    split; exists []; rewrite app_nil_r; split; auto.
Qed.

Lemma Forall_lt_weaken (l : list nat) n m :
  (n <= m)%nat -> Forall (fun w => (w < n)%nat) l -> Forall (fun w => (w < m)%nat) l.
Proof. intros Hle. apply Forall_impl. intros w Hw. lia. Qed.

Lemma wellFormed_step rev s i : wellFormed s -> wellFormed (step rev s i).
Proof.
  intros (Hwk & Hidx & Htim & Hpost & Hterm).
  pose proof (wellKeyed_step rev s i Hwk) as Hwk'.
  destruct (step_shape rev s i) as (Hs & Ht & (np & Hp & Hnp) & (nt & Hte & Hnt)).
  destruct Hwk as (_ & _ & Hlt). rewrite Forall_forall in Hlt.
  assert (Hlen : (List.length (spawned s) <= List.length (spawned (step rev s i)))%nat).
  { destruct Hs as [->|(name & auth & ->)]; [lia|]. rewrite length_app. lia. }
  split; [exact Hwk'|]. split; [|split; [|split]].
  - intros w u Hnth. destruct Hs as [E|(name & auth & E)]; rewrite E in Hnth.
    + now apply Hidx.
    + destruct (Nat.lt_ge_cases w (List.length (spawned s))) as [Hw|Hw].
      * rewrite nth_error_app1 in Hnth by assumption. now apply Hidx.
      * rewrite nth_error_app2 in Hnth by assumption.
        destruct (w - List.length (spawned s))%nat as [|k] eqn:Ek; simpl in Hnth.
        -- inversion Hnth; subst. simpl. lia.
        -- now destruct k.
  - destruct Ht as [->|(k & ->)]; [assumption|].
    apply Forall_app. split; [assumption|]. now constructor.
  - rewrite Hp. apply Forall_app. split.
    + eapply Forall_impl; [|exact Hpost]. simpl. intros p Hlt'. lia.
    + eapply Forall_impl; [|exact Hnp]. simpl. intros p Hin.
      apply Hlt in Hin. cbv beta in Hin. unfold WorkerId in *. lia.
  - rewrite Hte. apply Forall_app. split.
    + eapply Forall_lt_weaken; eassumption.
    + eapply Forall_impl; [|exact Hnt]. simpl. intros w Hin.
      apply Hlt in Hin. cbv beta in Hin. unfold WorkerId in *. lia.
Qed.

Lemma wellFormed_spawn rev name auth s :
  wellFormed s -> wellFormed (spawnWorkerFor rev name auth s).
Proof.
  intros H.
  assert (E : spawnWorkerFor rev name auth s
              = mkMain (activeWorkers (spawnWorkerFor rev name auth s))
                       (spawned (spawnWorkerFor rev name auth s))
                       (emitted (spawnWorkerFor rev name auth s))
                       (posted s) (timers s) (terminated s)).
  { unfold spawnWorkerFor. now destruct (map_has name (activeWorkers s)). }
  destruct H as (Hwk & Hidx & Htim & Hpost & Hterm).
  pose proof (wellKeyed_spawn rev name auth s Hwk) as Hwk'.
  destruct (spawn_fields rev name auth s) as (Hp & Ht & Hte & Hold & Hnew).
  assert (Hs : spawned (spawnWorkerFor rev name auth s) = spawned s \/
               spawned (spawnWorkerFor rev name auth s)
               = spawned s ++ [mkUnit (List.length (spawned s)) name auth]).
  { destruct (map_has name (activeWorkers s)).
    - left. now destruct (Hold eq_refl).
    - right. now destruct (Hnew eq_refl). }
  assert (Hlen : (List.length (spawned s)
                  <= List.length (spawned (spawnWorkerFor rev name auth s)))%nat).
  { destruct Hs as [->| ->]; [lia|]. rewrite length_app. lia. }
  split; [exact Hwk'|]. split; [|split; [|split]].
  - intros w u Hnth. destruct Hs as [E'|E']; rewrite E' in Hnth.
    + now apply Hidx.
    + destruct (Nat.lt_ge_cases w (List.length (spawned s))) as [Hw|Hw].
      * rewrite nth_error_app1 in Hnth by assumption. now apply Hidx.
      * rewrite nth_error_app2 in Hnth by assumption.
        destruct (w - List.length (spawned s))%nat as [|k] eqn:Ek; simpl in Hnth.
        -- inversion Hnth; subst. simpl. lia.
        -- now destruct k.
  - now rewrite Ht.
  - rewrite Hp. eapply Forall_impl; [|exact Hpost]. simpl. intros p Hlt. lia.
  - rewrite Hte. eapply Forall_lt_weaken; eassumption.
Qed.

(** X3.  In every state the main thread reaches: the keys of the identity map
    are distinct; no worker holds two entries; every entry, every posted
    message and every termination refers to a worker that was created; a
    worker's closure is found at its id; and every pending timer runs for the
    respawn delay. *)
Theorem reachable_states_are_well_formed :
  forall (rev : Revision) (s : Main), reachable rev s -> wellFormed s.
Proof.
  intros rev s Hreach. induction Hreach as [accounts|s i _ IH].
  - unfold startup.
    assert (H0 : wellFormed initialMain).
    { split; [apply wellKeyed_initial|]. simpl.
      split; [intros w u H; now destruct w|]. repeat split; constructor. }
    revert H0. generalize initialMain.
    induction accounts as [|a l IHl]; intros t Ht; simpl; [assumption|].
    apply IHl. now apply wellFormed_spawn.
  - now apply wellFormed_step.
Qed.

Lemma reachable_states_are_well_formed_witness :
  wellFormed (step Overhaul2 (startup Overhaul2 ["Steve"]) (in_worker_exit 0%nat 1)).
Proof.
  apply (reachable_states_are_well_formed Overhaul2).
  apply reachable_step, reachable_startup.
Defined.

(** X4.  Only an [authenticated] message makes the message handler touch the
    identity map: an auth-link, status, log or error message, a message of an
    unknown type and a falsy message leave the map, the workers created, the
    timers, the posted messages and the terminations as they were. *)
Theorem only_authenticated_changes_the_map :
  forall (rev : Revision) (u : Unit) (msg : option WorkerMsg) (s : Main),
    isAuthenticated msg = false ->
    let s' := onMessage rev u msg s in
    activeWorkers s' = activeWorkers s /\ spawned s' = spawned s /\
    posted s' = posted s /\ timers s' = timers s /\
    terminated s' = terminated s.
Proof.
  intros rev u msg s Hna s'.
  destruct (onMessage_fields rev u msg s) as (Hs & Hp & Ht & Hterm).
  split; [|repeat split; assumption].
  unfold s', onMessage. destruct msg as [m|]; [|reflexivity].
  unfold isAuthenticated in Hna.
  destruct (body m), rev; try discriminate; cbv zeta; same_field.
Qed.

Lemma only_authenticated_changes_the_map_witness :
  let s := startup Overhaul2 ["Steve"] in
  let s' := onMessage Overhaul2 (mkUnit 0%nat "Steve" false)
              (Some (workerMsg (status_update "Idle") (Some "Steve"))) s in
  activeWorkers s' = activeWorkers s /\ spawned s' = spawned s /\
  posted s' = posted s /\ timers s' = timers s /\
  terminated s' = terminated s.
Proof.
  intros s.
  apply (only_authenticated_changes_the_map Overhaul2 (mkUnit 0%nat "Steve" false)
           (Some (workerMsg (status_update "Idle") (Some "Steve"))) s).
  reflexivity.
Defined.

Lemma findExited_of_get m k e :
  NoDup (workersOf m) -> map_get k m = Some e ->
  findExited (worker e) m = Some (k, e).
Proof.
  unfold findExited, workersOf.
  induction m as [|[k0 e0] m IH]; simpl; intros Hnd Hget; [discriminate|].
  inversion Hnd as [|? ? Hnin Hnd']; subst.
  destruct (k0 =? k)%string eqn:Ek.
  - apply String.eqb_eq in Ek. inversion Hget; subst.
    now rewrite Nat.eqb_refl.
  - destruct (worker e0 =? worker e)%nat eqn:Ew.
    + apply Nat.eqb_eq in Ew. exfalso. apply Hnin. rewrite Ew.
      apply map_get_In in Hget. apply in_map_iff. now exists (k, e).
    + now apply IH.
Qed.

Lemma findExited_none w m : ~ In w (workersOf m) -> findExited w m = None.
Proof.
  intros Hnin. unfold findExited.
  destruct (find _ m) as [[k i]|] eqn:E; [|reflexivity].
  apply find_some in E as [Hin Hw]. simpl in Hw. apply Nat.eqb_eq in Hw.
  exfalso. apply Hnin. unfold workersOf. apply in_map_iff. now exists (k, i).
Qed.

Lemma orElse_truthy F b : truthyStr F = true -> orElse (Some F) b = F.
Proof. intros H. unfold orElse. now rewrite H. Qed.

Lemma status_after_authenticated s u F status e t :
  map_get (username u) (activeWorkers s) = Some e ->
  truthyStr F = true ->
  isAuthWorker u = true \/ username u = F \/ map_get F (activeWorkers s) = None ->
  activeWorkers t
  = activeWorkers (onMessage Overhaul2 u (Some (authenticatedMsg Overhaul2 u F)) s) ->
  onMessage Overhaul2 u (Some (workerMsg (status_update status) (Some F))) t
  = emit (io_bot_status_update F status) t.
Proof.
  intros Hget HF Hcase Ht.
  assert (Hm1 : exists x,
             (map_get F (activeWorkers t) = Some x
              \/ (map_get F (activeWorkers t) = None /\
                  find (fun w => match finalUsername w with
                                 | Some f => (f =? F)%string
                                 | None => false
                                 end) (map_values (activeWorkers t)) = Some x))
             /\ finalUsername x = Some F).
  { rewrite Ht. unfold onMessage. simpl. rewrite Hget.
    set (e' := workerInfo (worker e) (Some F)).
    destruct (isAuthWorker u) eqn:Hauth; simpl.
    - exists e'. split; [left; apply map_get_set_same|reflexivity].
    - destruct (string_dec (username u) F) as [EF|NF].
      + exists e'. split; [|reflexivity]. left. rewrite <- EF.
        apply map_get_set_same.
      + destruct Hcase as [Hc|[Hc|Hc]]; try discriminate; try contradiction.
        rewrite map_get_set_other by congruence. rewrite Hc.
        destruct (find (fun w => match finalUsername w with
                                 | Some f => (f =? F)%string
                                 | None => false
                                 end)
                       (map_values (map_set (username u) e' (activeWorkers s))))
          as [x|] eqn:Ef.
        * exists x. split; [right; split; reflexivity|].
          apply find_some in Ef as [_ Hx].
          destruct (finalUsername x) as [f|]; [|discriminate].
          apply String.eqb_eq in Hx. now subst.
        * exfalso.
          assert (Hin : In e' (map_values
                                 (map_set (username u) e' (activeWorkers s)))).
          { unfold map_values. apply in_map_iff. exists (username u, e').
            split; [reflexivity|]. apply map_get_In, map_get_set_same. }
          apply (find_none _ _ Ef) in Hin. simpl in Hin.
          now rewrite String.eqb_refl in Hin. }
  destruct Hm1 as (x & Hx & Hfin).
  unfold onMessage. simpl body. cbv iota beta zeta. simpl bot.
  rewrite (orElse_truthy F _ HF).
  destruct Hx as [Hx|[Hx Hf]].
  - now rewrite Hx, Hfin, (orElse_truthy F _ HF).
  - now rewrite Hx, Hf, Hfin, (orElse_truthy F _ HF).
Qed.

(** X5.  Once a unit's [authenticated] message with a non-empty final handle
    [F] is handled, a status the unit posts under [F] is shown on the
    dashboard under [F], in part_000 always and in depster.js whenever the
    unit is an authentication-flow unit, or [F] is its initial handle, or no
    other entry is keyed [F].  In depster.js a status posted under a name that
    is neither a key of the map nor a recorded final handle is dropped. *)
Theorem status_is_shown_under_final_handle :
  forall (rev : Revision) (s : Main) (u : Unit) (F status : string)
         (e : WorkerInfo),
    map_get (username u) (activeWorkers s) = Some e ->
    truthyStr F = true ->
    rev = Overhaul1 \/ isAuthWorker u = true \/ username u = F
    \/ map_get F (activeWorkers s) = None ->
    let s1 := onMessage rev u (Some (authenticatedMsg rev u F)) s in
    let s2 := onMessage rev u
                (Some (workerMsg (status_update status) (Some F))) s1 in
    emitted s2 = emitted s1 ++ [io_bot_status_update F status] /\
    activeWorkers s2 = activeWorkers s1 /\
    (forall (t : Main) (n : string),
        truthyStr n = true ->
        map_get n (activeWorkers t) = None ->
        (forall x, In x (map_values (activeWorkers t)) ->
                   finalUsername x <> Some n) ->
        onMessage Overhaul2 u
          (Some (workerMsg (status_update status) (Some n))) t = t).
Proof.
  intros rev s u F status e Hget HF Hcase s1 s2.
  assert (Hdrop : forall (t : Main) (n : string),
             truthyStr n = true ->
             map_get n (activeWorkers t) = None ->
             (forall x, In x (map_values (activeWorkers t)) ->
                        finalUsername x <> Some n) ->
             onMessage Overhaul2 u
               (Some (workerMsg (status_update status) (Some n))) t = t).
  { intros t n Hn Hnone Hfin. unfold onMessage.
    simpl body. cbv iota beta zeta. simpl bot.
    rewrite (orElse_truthy n _ Hn), Hnone.
    destruct (find _ (map_values (activeWorkers t))) as [x|] eqn:Ef; [|reflexivity].
    apply find_some in Ef as [Hin Hx]. exfalso. apply (Hfin x Hin).
    destruct (finalUsername x) as [f|]; [|discriminate].
    apply String.eqb_eq in Hx. now subst. }
  destruct rev.
  - unfold s2, onMessage. simpl body. cbv iota beta zeta. simpl bot.
    rewrite (orElse_truthy F _ HF). repeat split. exact Hdrop.
  - assert (Hcase' : isAuthWorker u = true \/ username u = F
                     \/ map_get F (activeWorkers s) = None).
    { destruct Hcase as [Hc|Hc]; [discriminate|exact Hc]. }
    unfold s2.
    rewrite (status_after_authenticated s u F status e s1 Hget HF Hcase' eq_refl).
    repeat split. exact Hdrop.
Qed.

Lemma status_is_shown_under_final_handle_witness :
  let u := mkUnit 0%nat "Steve" false in
  let s := startup Overhaul2 ["Steve"] in
  let s1 := onMessage Overhaul2 u (Some (authenticatedMsg Overhaul2 u "Stevie")) s in
  let s2 := onMessage Overhaul2 u
              (Some (workerMsg (status_update "Idle") (Some "Stevie"))) s1 in
  emitted s2 = emitted s1 ++ [io_bot_status_update "Stevie" "Idle"] /\
  activeWorkers s2 = activeWorkers s1 /\
  (forall (t : Main) (n : string),
      truthyStr n = true ->
      map_get n (activeWorkers t) = None ->
      (forall x, In x (map_values (activeWorkers t)) ->
                 finalUsername x <> Some n) ->
      onMessage Overhaul2 u
        (Some (workerMsg (status_update "Idle") (Some n))) t = t).
Proof.
  intros u s.
  apply (status_is_shown_under_final_handle Overhaul2 s u "Stevie" "Idle"
           (workerInfo 0%nat None)).
  - reflexivity.
  - reflexivity.
  - right. right. right. reflexivity.
Defined.

(** X6.  depster.js, a unit spawned from the accounts list under handle [H]
    and named [F] by the server: handling its [authenticated] message records
    [F] in its entry and leaves the keys of the map as they are; when the unit
    then exits, the dashboard is told that [F] went offline, the entry under
    [H] is removed, and after an exit code other than 0 the respawn is
    scheduled for [H]. *)
Theorem named_unit_goes_offline_under_final_handle :
  forall (s : Main) (u : Unit) (F : string) (e : WorkerInfo) (code : Z),
    reachable Overhaul2 s ->
    isAuthWorker u = false ->
    map_get (username u) (activeWorkers s) = Some e ->
    worker e = u_worker u ->
    truthyStr F = true ->
    username u <> "" ->
    let s1 := onMessage Overhaul2 u (Some (authenticatedMsg Overhaul2 u F)) s in
    let s2 := onExit Overhaul2 u code s1 in
    map_keys (activeWorkers s1) = map_keys (activeWorkers s) /\
    map_get (username u) (activeWorkers s1)
    = Some (workerInfo (worker e) (Some F)) /\
    (exists line, emitted s2 = emitted s1 ++ [io_bot_offline F; line]) /\
    map_has (username u) (activeWorkers s2) = false /\
    timers s2 = timers s ++ (if code =? 0 then [] else [(respawnDelay, username u)]).
Proof.
  intros s u F e code Hreach Hauth Hget Hw HF HH s1 s2.
  pose proof (reachable_wellKeyed Overhaul2 s Hreach) as Hwk.
  set (e' := workerInfo (worker e) (Some F)).
  assert (Hm1 : activeWorkers s1 = map_set (username u) e' (activeWorkers s)).
  { unfold s1, onMessage. simpl. now rewrite Hget, Hauth. }
  assert (Ht1 : timers s1 = timers s).
  { now destruct (onMessage_fields Overhaul2 u
                    (Some (authenticatedMsg Overhaul2 u F)) s) as (_ & _ & Ht & _). }
  assert (Hwk1 : wellKeyed s1) by now apply wellKeyed_onMessage.
  assert (Hget1 : map_get (username u) (activeWorkers s1) = Some e').
  { rewrite Hm1. apply map_get_set_same. }
  assert (Hfind : findExited (u_worker u) (activeWorkers s1)
                  = Some (username u, e')).
  { rewrite <- Hw. change (worker e) with (worker e').
    apply findExited_of_get; [apply Hwk1|exact Hget1]. }
  split; [|split; [exact Hget1|]].
  - rewrite Hm1. clear - Hget. unfold map_keys.
    induction (activeWorkers s) as [|[k0 e0] m IH]; simpl in *; [discriminate|].
    destruct (k0 =? username u)%string eqn:E; simpl.
    + apply String.eqb_eq in E. now subst.
    + f_equal. now apply IH.
  - assert (Hs2 : s2 = onExit Overhaul2 u code s1) by reflexivity.
    unfold onExit in Hs2. rewrite Hfind in Hs2.
    apply truthyStr_true in HH. rewrite HH, Hauth in Hs2.
    simpl finalUsername in Hs2. rewrite (orElse_truthy F _ HF) in Hs2.
    rewrite andb_true_r in Hs2.
    split; [|split].
    + rewrite Hs2. destruct (code =? 0); simpl; eexists;
        rewrite <- app_assoc; reflexivity.
    + rewrite Hs2. unfold map_has.
      destruct (code =? 0); simpl;
        (rewrite map_get_delete_same; [reflexivity|apply Hwk1]).
    + rewrite Hs2, <- Ht1. destruct (code =? 0); simpl;
        now rewrite ?app_nil_r.
Qed.

Lemma named_unit_goes_offline_under_final_handle_witness :
  let u := mkUnit 0%nat "Steve" false in
  let s := startup Overhaul2 ["Steve"] in
  let s1 := onMessage Overhaul2 u (Some (authenticatedMsg Overhaul2 u "Stevie")) s in
  let s2 := onExit Overhaul2 u 1 s1 in
  map_keys (activeWorkers s1) = map_keys (activeWorkers s) /\
  map_get "Steve" (activeWorkers s1) = Some (workerInfo 0%nat (Some "Stevie")) /\
  (exists line, emitted s2 = emitted s1 ++ [io_bot_offline "Stevie"; line]) /\
  map_has "Steve" (activeWorkers s2) = false /\
  timers s2 = timers s ++ [(respawnDelay, "Steve")].
Proof.
  intros u s.
  apply (named_unit_goes_offline_under_final_handle s u "Stevie"
           (workerInfo 0%nat None) 1).
  - apply reachable_startup.
  - reflexivity.
  - reflexivity.
  - reflexivity.
  - reflexivity.
  - discriminate.
Defined.

Lemma spawn_get_other rev name auth s k :
  k <> name ->
  map_get k (activeWorkers (spawnWorkerFor rev name auth s))
  = map_get k (activeWorkers s).
Proof.
  intros Hne. unfold spawnWorkerFor.
  destruct (map_has name (activeWorkers s)); simpl; [reflexivity|].
  now apply map_get_set_other.
Qed.

Lemma not_In_workers_of_length s :
  wellKeyed s -> ~ In (List.length (spawned s)) (workersOf (activeWorkers s)).
Proof.
  intros (_ & _ & Hlt) Hin. rewrite Forall_forall in Hlt.
  apply Hlt in Hin. cbv beta in Hin. unfold WorkerId in *. lia.
Qed.

(** X7.  A unit from the accounts list whose connection ends: the worker's
    [end] handler posts a log line and exits with code 1; the main thread then
    removes the unit's entry [K] and schedules the respawn, and when the timer
    fires a new worker is created under [K]: it has an id no entry of the map
    held before, is not an authentication-flow unit, has no final handle
    recorded, and the entries under every other key are as before the exit. *)
Theorem ended_unit_is_respawned_under_its_key :
  forall (rev : Revision) (s : Main) (u : Unit) (K : string) (e : WorkerInfo)
         (env : Env) (reason : string) (b : Bot),
    reachable rev s ->
    isAuthWorker u = false ->
    map_get K (activeWorkers s) = Some e ->
    worker e = u_worker u ->
    K <> "" ->
    exists (code : Z) (b' : Bot),
      onEnd env reason b = Done code b' /\
      sent b' = sent b ++ [workerMsg (log_msg (Str ("Disconnected: " ++ reason ++ ".")))
                                     (Some (senderName env b))] /\
      let s1 := onExit rev u code s in
      let s2 := onRespawnTimer rev K s1 in
      let w := List.length (spawned s) in
      timers s1 = timers s ++ [(respawnDelay, K)] /\
      map_has K (activeWorkers s1) = false /\
      map_get K (activeWorkers s2) = Some (workerInfo w None) /\
      spawned s2 = spawned s ++ [mkUnit w K false] /\
      ~ In w (workersOf (activeWorkers s)) /\
      (forall k, k <> K ->
                 map_get k (activeWorkers s2) = map_get k (activeWorkers s)).
Proof.
  intros rev s u K e env reason b Hreach Hauth Hget Hw HK.
  pose proof (reachable_wellKeyed rev s Hreach) as Hwk.
  exists 1, (finalBotOf (onEnd env reason b)). split; [reflexivity|].
  split; [reflexivity|]. cbv zeta.
  assert (Hfind : findExited (u_worker u) (activeWorkers s) = Some (K, e)).
  { rewrite <- Hw. apply findExited_of_get; [apply Hwk|exact Hget]. }
  assert (Hdel : map_has K (map_delete K (activeWorkers s)) = false).
  { unfold map_has. rewrite map_get_delete_same; [reflexivity|apply Hwk]. }
  assert (Hs1 : activeWorkers (onExit rev u 1 s) = map_delete K (activeWorkers s)
                /\ timers (onExit rev u 1 s) = timers s ++ [(respawnDelay, K)]
                /\ spawned (onExit rev u 1 s) = spawned s).
  { unfold onExit. rewrite Hfind. apply truthyStr_true in HK. rewrite HK, Hauth.
    destruct rev; simpl; repeat split. }
  destruct Hs1 as (Hm1 & Ht1 & Hsp1).
  split; [exact Ht1|]. split; [now rewrite Hm1|].
  set (s1 := onExit rev u 1 s) in *.
  set (t := console_log ("[main] Respawning worker for " ++ K ++ "...") s1).
  assert (Ht : activeWorkers t = map_delete K (activeWorkers s)
               /\ spawned t = spawned s) by (split; [exact Hm1|exact Hsp1]).
  destruct Ht as (Htm & Htsp).
  destruct (spawn_fields rev K false t) as (_ & _ & _ & _ & Hnew).
  rewrite Htm in Hnew. destruct (Hnew Hdel) as (Hm2 & Hsp2).
  rewrite Htsp in Hm2, Hsp2.
  unfold onRespawnTimer. fold t.
  split; [|split; [exact Hsp2|split]].
  - rewrite Hm2, <- (map_set_fresh K _ _ Hdel). apply map_get_set_same.
  - now apply not_In_workers_of_length.
  - intros k Hk. rewrite spawn_get_other by exact Hk. rewrite Htm.
    now apply map_get_delete_other.
Qed.

Lemma ended_unit_is_respawned_under_its_key_witness :
  exists (code : Z) (b' : Bot),
    onEnd (sampleEnv Overhaul2) "socketClosed" idleBot = Done code b' /\
    sent b' = sent idleBot
              ++ [workerMsg (log_msg (Str "Disconnected: socketClosed."))
                            (Some (senderName (sampleEnv Overhaul2) idleBot))] /\
    let s := startup Overhaul2 ["Steve"; "Alex"] in
    let s1 := onExit Overhaul2 (mkUnit 0%nat "Steve" false) code s in
    let s2 := onRespawnTimer Overhaul2 "Steve" s1 in
    let w := List.length (spawned s) in
    timers s1 = timers s ++ [(respawnDelay, "Steve")] /\
    map_has "Steve" (activeWorkers s1) = false /\
    map_get "Steve" (activeWorkers s2) = Some (workerInfo w None) /\
    spawned s2 = spawned s ++ [mkUnit w "Steve" false] /\
    ~ In w (workersOf (activeWorkers s)) /\
    (forall k, k <> "Steve" ->
               map_get k (activeWorkers s2) = map_get k (activeWorkers s)).
Proof.
  apply (ended_unit_is_respawned_under_its_key Overhaul2
           (startup Overhaul2 ["Steve"; "Alex"]) (mkUnit 0%nat "Steve" false)
           "Steve" (workerInfo 0%nat None) (sampleEnv Overhaul2) "socketClosed"
           idleBot).
  - apply reachable_startup.
  - reflexivity.
  - reflexivity.
  - reflexivity.
  - discriminate.
Defined.

(** X8.  An authentication-flow unit that the server names [F], while another
    unit's entry is keyed [F]: handling the [authenticated] message puts the
    authentication-flow unit's worker under [F] in both revisions, so the
    other unit no longer has an entry in the map; its later exit is not
    reported and no respawn is scheduled for it. *)
Theorem rekeying_displaces_the_entry_under_the_final_handle :
  forall (rev : Revision) (s : Main) (u v : Unit) (F : string)
         (e o : WorkerInfo) (code : Z),
    reachable rev s ->
    isAuthWorker u = true ->
    map_get (username u) (activeWorkers s) = Some e ->
    map_get F (activeWorkers s) = Some o ->
    worker o = u_worker v ->
    username u <> F ->
    let s1 := onMessage rev u (Some (authenticatedMsg rev u F)) s in
    (exists e', map_get F (activeWorkers s1) = Some e' /\ worker e' = worker e) /\
    ~ In (u_worker v) (workersOf (activeWorkers s1)) /\
    onExit rev v code s1 = s1.
Proof.
  intros rev s u v F e o code Hreach Hauth Hget HgetF Hwo Hne s1.
  pose proof (reachable_wellKeyed rev s Hreach) as Hwk.
  assert (Hwk1 : wellKeyed s1) by now apply wellKeyed_onMessage.
  assert (Hex : exists e', map_get F (activeWorkers s1) = Some e'
                           /\ worker e' = worker e).
  { unfold s1, onMessage, authenticatedMsg, onAuthenticated. destruct rev; simpl.
    - apply String.eqb_neq in Hne. rewrite Hne. simpl.
      unfold map_has. rewrite Hget. simpl. exists e.
      split; [apply map_get_set_same|reflexivity].
    - rewrite Hget, Hauth. simpl. eexists.
      split; [apply map_get_set_same|reflexivity]. }
  assert (Hwne : worker e <> worker o).
  { intros Heq. destruct Hwk as (_ & Hnd & _).
    pose proof (findExited_of_get _ _ _ Hnd Hget) as H1.
    pose proof (findExited_of_get _ _ _ Hnd HgetF) as H2.
    rewrite Heq in H1. rewrite H1 in H2. inversion H2; subst. now apply Hne. }
  assert (Hgone : ~ In (u_worker v) (workersOf (activeWorkers s1))).
  { intros Hin. unfold workersOf in Hin. apply in_map_iff in Hin.
    destruct Hin as ((k & i) & Hw & Hin). simpl in Hw.
    assert (Hcases : (k, i) = (F, workerInfo (worker e) (finalUsername i))
                     \/ (k <> F /\ exists i0, In (k, i0) (activeWorkers s)
                                              /\ worker i0 = worker i)).
    { revert Hin. unfold s1, onMessage, authenticatedMsg, onAuthenticated.
      destruct rev; simpl.
      - apply String.eqb_neq in Hne. rewrite Hne. simpl.
        unfold map_has. rewrite Hget. simpl. intros Hin.
        destruct (string_dec k F) as [->|Hk].
        + left. pose proof Hwk1 as (Hnd1 & _).
          assert (Hg : map_get F (activeWorkers s1) = Some e).
          { unfold s1, onMessage, authenticatedMsg, onAuthenticated. simpl.
            rewrite Hne. simpl. unfold map_has. rewrite Hget. simpl.
            apply map_get_set_same. }
          assert (Hg' : map_get F (activeWorkers s1) = Some i).
          { apply In_map_get; [exact Hnd1|].
            unfold s1, onMessage, authenticatedMsg, onAuthenticated. simpl.
            rewrite Hne. simpl. unfold map_has. rewrite Hget. simpl. exact Hin. }
          rewrite Hg in Hg'. inversion Hg'; subst. now destruct i.
        + right. split; [exact Hk|]. exists i. split; [|reflexivity].
          apply map_set_In in Hin as [Hin|Hin]; [inversion Hin; contradiction|].
          now apply map_delete_In in Hin.
      - rewrite Hget, Hauth. simpl. intros Hin.
        destruct (string_dec k F) as [->|Hk].
        + left. pose proof Hwk1 as (Hnd1 & _).
          assert (Hg : map_get F (activeWorkers s1)
                       = Some (workerInfo (worker e) (Some F))).
          { unfold s1, onMessage, authenticatedMsg, onAuthenticated. simpl.
            rewrite Hget, Hauth. simpl. apply map_get_set_same. }
          assert (Hg' : map_get F (activeWorkers s1) = Some i).
          { apply In_map_get; [exact Hnd1|].
            unfold s1, onMessage, authenticatedMsg, onAuthenticated. simpl.
            rewrite Hget, Hauth. simpl. exact Hin. }
          rewrite Hg in Hg'. inversion Hg'; subst. reflexivity.
        + right. split; [exact Hk|].
          apply map_set_In in Hin as [Hin|Hin]; [inversion Hin; contradiction|].
          apply map_delete_In in Hin.
          apply map_set_In in Hin as [Hin|Hin].
          * inversion Hin; subst. exists e. split; [|reflexivity].
            now apply map_get_In.
          * exists i. now split. }
    destruct Hcases as [Heq|(Hk & i0 & Hin0 & Hw0)].
    - inversion Heq as [[Hk Hi]]. apply Hwne. rewrite Hwo, <- Hw. rewrite Hi. reflexivity.
    - destruct Hwk as (Hndk & Hnd & _).
      apply (In_map_get _ _ _ Hndk) in Hin0.
      pose proof (findExited_of_get _ _ _ Hnd Hin0) as H1.
      pose proof (findExited_of_get _ _ _ Hnd HgetF) as H2.
      rewrite Hw0, Hw, <- Hwo in H1. rewrite H1 in H2.
      inversion H2; subst. now apply Hk. }
  split; [exact Hex|]. split; [exact Hgone|].
  unfold onExit. now rewrite (findExited_none _ _ Hgone).
Qed.

Lemma rekeying_displaces_the_entry_under_the_final_handle_witness :
  let s := step Overhaul2 (startup Overhaul2 ["Steve"]) (in_spawn_auth_bot 7) in
  let u := mkUnit 1%nat "AuthBot-7" true in
  let v := mkUnit 0%nat "Steve" false in
  let s1 := onMessage Overhaul2 u (Some (authenticatedMsg Overhaul2 u "Steve")) s in
  (exists e', map_get "Steve" (activeWorkers s1) = Some e' /\ worker e' = 1%nat) /\
  ~ In (u_worker v) (workersOf (activeWorkers s1)) /\
  onExit Overhaul2 v 1 s1 = s1.
Proof.
  intros s u v.
  apply (rekeying_displaces_the_entry_under_the_final_handle Overhaul2 s u v
           "Steve" (workerInfo 1%nat None) (workerInfo 0%nat None) 1).
  - apply reachable_step, reachable_startup.
  - reflexivity.
  - reflexivity.
  - reflexivity.
  - reflexivity.
  - discriminate.
Defined.

Lemma to_uint_not_Nil n : Nat.to_uint n <> Decimal.Nil.
Proof.
  rewrite <- (Unsigned.of_to n) at 1. rewrite Unsigned.to_of.
  unfold Decimal.unorm. now destruct (Decimal.nzhead (Nat.to_uint n)).
Qed.

Lemma showNat_inj n m : showNat n = showNat m -> n = m.
Proof.
  unfold showNat. intros H.
  pose proof (NilZero.usu _ (to_uint_not_Nil n)) as Hn.
  pose proof (NilZero.usu _ (to_uint_not_Nil m)) as Hm.
  rewrite H, Hm in Hn. inversion Hn as [E].
  rewrite <- (Unsigned.of_to n), <- (Unsigned.of_to m). now rewrite E.
Qed.

Lemma append_inj_l (p a b : string) : (p ++ a = p ++ b)%string -> a = b.
Proof. induction p as [|c p IH]; simpl; intros H; [exact H|]. inversion H. now apply IH. Qed.

(** X9.  [spawn-auth-bot] with random number [rnd]: the temporary handle is
    ["AuthBot-"] followed by the decimal digits of [rnd], so distinct numbers
    give distinct handles; afterwards the handle is a key of the map and the
    dashboard is told the bot is online.  A free handle gets a new
    authentication-flow worker with no final handle; when the handle is taken
    (the same number drawn again while the first unit is still keyed by it) no
    worker is created and the map is unchanged, yet [bot-online] is emitted
    all the same. *)
Theorem auth_bot_handle_is_spawned_once :
  forall (rev : Revision) (s : Main) (rnd : nat),
    let tempUsername := ("AuthBot-" ++ showNat rnd)%string in
    let s' := onSpawnAuthBot rev rnd s in
    let w := List.length (spawned s) in
    (forall rnd', ("AuthBot-" ++ showNat rnd')%string = tempUsername -> rnd' = rnd) /\
    map_has tempUsername (activeWorkers s') = true /\
    (exists line,
        emitted s' = emitted s
                     ++ [line; io_bot_online tempUsername "Authenticating..."]) /\
    (map_has tempUsername (activeWorkers s) = false ->
     spawned s' = spawned s ++ [mkUnit w tempUsername true] /\
     activeWorkers s' = activeWorkers s ++ [(tempUsername, workerInfo w None)]) /\
    (map_has tempUsername (activeWorkers s) = true ->
     spawned s' = spawned s /\ activeWorkers s' = activeWorkers s) /\
    spawned (onSpawnAuthBot rev rnd s') = spawned s' /\
    activeWorkers (onSpawnAuthBot rev rnd s') = activeWorkers s'.
Proof.
  intros rev s rnd tempUsername s' w.
  assert (Hhas : map_has tempUsername (activeWorkers s') = true).
  { unfold s', onSpawnAuthBot, spawnWorkerFor. fold tempUsername.
    destruct (map_has tempUsername (activeWorkers s)) eqn:E; simpl; [exact E|].
    unfold map_has. now rewrite map_get_set_same. }
  split; [|split; [exact Hhas|split; [|split; [|split]]]].
  - intros rnd' H. apply append_inj_l in H. now apply showNat_inj.
  - unfold s', onSpawnAuthBot, spawnWorkerFor. fold tempUsername.
    destruct (map_has tempUsername (activeWorkers s)); simpl; eexists;
      rewrite <- app_assoc; reflexivity.
  - intros Hfree.
    destruct (spawn_fields rev tempUsername true s) as (_ & _ & _ & _ & Hnew).
    destruct (Hnew Hfree) as (Hm & Hsp). split; [exact Hsp|exact Hm].
  - intros Htaken.
    destruct (spawn_fields rev tempUsername true s) as (_ & _ & _ & Hold & _).
    destruct (Hold Htaken) as (Hm & Hsp). split; [exact Hsp|exact Hm].
  - destruct (spawn_fields rev tempUsername true s') as (_ & _ & _ & Hold & _).
    destruct (Hold Hhas) as (Hm & Hsp). split; [exact Hsp|exact Hm].
Qed.

Lemma terminate_fold_map l s :
  let s' := fold_left (fun acc w => terminate (worker w) acc) l s in
  activeWorkers s' = activeWorkers s /\ spawned s' = spawned s /\
  emitted s' = emitted s.
Proof.
  revert s. induction l as [|w l IH]; intros s; simpl; [repeat split|].
  destruct (IH (terminate (worker w) s)) as (Hm & Hsp & Hem).
  rewrite Hm, Hsp, Hem. repeat split.
Qed.

(** X10.  [disconnect-all] terminates the workers that hold an entry of the
    map, each one once and in map order, and nothing else: the map itself is
    not touched (entries go only when the exit events arrive), nothing is
    posted or scheduled.  When the exit event of a terminated unit from the
    accounts list then arrives with a code other than 0, its entry is removed
    and its respawn is scheduled as after any other exit. *)
Theorem disconnect_all_terminates_registered_workers :
  forall (rev : Revision) (s : Main) (u : Unit) (K : string) (e : WorkerInfo)
         (code : Z),
    reachable rev s ->
    map_get K (activeWorkers s) = Some e ->
    worker e = u_worker u ->
    isAuthWorker u = false ->
    K <> "" ->
    code <> 0 ->
    let s1 := onDisconnectAll s in
    let s2 := onExit rev u code s1 in
    terminated s1 = terminated s ++ workersOf (activeWorkers s) /\
    NoDup (workersOf (activeWorkers s)) /\
    In (u_worker u) (workersOf (activeWorkers s)) /\
    activeWorkers s1 = activeWorkers s /\
    spawned s1 = spawned s /\ posted s1 = posted s /\ timers s1 = timers s /\
    map_has K (activeWorkers s2) = false /\
    timers s2 = timers s ++ [(respawnDelay, K)].
Proof.
  intros rev s u K e code Hreach Hget Hw Hauth HK Hcode s1 s2.
  pose proof (reachable_wellKeyed rev s Hreach) as Hwk.
  set (t := console_log "[main] Disconnecting all bots via dashboard command." s).
  destruct (terminate_fold_terminated (map_values (activeWorkers s)) t)
    as (Hterm & Hpost & Htim).
  destruct (terminate_fold_map (map_values (activeWorkers s)) t)
    as (Hmap & Hsp & _).
  cbv zeta in Hterm, Hpost, Htim, Hmap, Hsp.
  assert (Hm1 : activeWorkers s1 = activeWorkers s) by exact Hmap.
  assert (Ht1 : timers s1 = timers s) by exact Htim.
  split; [|split; [apply Hwk|split; [|split; [exact Hm1|split;
    [exact Hsp|split; [exact Hpost|split; [exact Ht1|]]]]]]].
  - unfold s1, onDisconnectAll. fold t. rewrite Hterm.
    now rewrite workersOf_values.
  - rewrite <- Hw. unfold workersOf. apply in_map_iff. exists (K, e).
    split; [reflexivity|now apply map_get_In].
  - assert (Hfind : findExited (u_worker u) (activeWorkers s1) = Some (K, e)).
    { rewrite Hm1, <- Hw. apply findExited_of_get; [apply Hwk|exact Hget]. }
    assert (Hc : (code =? 0) = false) by now apply Z.eqb_neq.
    unfold s2, onExit. rewrite Hfind. apply truthyStr_true in HK.
    rewrite HK, Hauth, Hc. rewrite Hm1.
    destruct rev; simpl; rewrite Ht1;
      (split; [unfold map_has; rewrite map_get_delete_same;
               [reflexivity|apply Hwk]|reflexivity]).
Qed.

Lemma disconnect_all_terminates_registered_workers_witness :
  let s := startup Overhaul2 ["Steve"; "Alex"] in
  let u := mkUnit 1%nat "Alex" false in
  let s1 := onDisconnectAll s in
  let s2 := onExit Overhaul2 u 1 s1 in
  terminated s1 = terminated s ++ workersOf (activeWorkers s) /\
  NoDup (workersOf (activeWorkers s)) /\
  In (u_worker u) (workersOf (activeWorkers s)) /\
  activeWorkers s1 = activeWorkers s /\
  spawned s1 = spawned s /\ posted s1 = posted s /\ timers s1 = timers s /\
  map_has "Alex" (activeWorkers s2) = false /\
  timers s2 = timers s ++ [(respawnDelay, "Alex")].
Proof.
  intros s u.
  apply (disconnect_all_terminates_registered_workers Overhaul2 s u "Alex"
           (workerInfo 1%nat None) 1).
  - apply reachable_startup.
  - reflexivity.
  - reflexivity.
  - reflexivity.
  - discriminate.
  - discriminate.
Defined.

(** * Further properties of the worker *)

Lemma findInventoryItem_some id b item :
  findInventoryItem (Some id) b = Some item ->
  i_type item = id /\ In item (inventory b).
Proof.
  unfold findInventoryItem. intros H. apply find_some in H as [Hin Ht].
  apply Z.eqb_eq in Ht. now split.
Qed.

Lemma getBlockInHand_run rev env itemName b :
  exists r b',
    getBlockInHand rev env itemName b = Done r b' /\
    state b' = state b /\ world b' = world b /\ botEntity b' = botEntity b /\
    players b' = players b /\ goal b' = goal b /\ sprint b' = sprint b /\
    (forall item, r = Some item ->
        itemsByName env itemName = Some (i_type item) /\ In item (inventory b')) /\
    (forall item, findInventoryItem (itemsByName env itemName) b = Some item ->
        r = Some item /\ b' = b) /\
    (creative b = false ->
     b' = b /\ r = findInventoryItem (itemsByName env itemName) b) /\
    (actions b' = actions b \/
     exists id, itemsByName env itemName = Some id /\ creative b = true /\
       findInventoryItem (Some id) b = None /\
       actions b' = actions b ++ [act_setInventorySlot 36 (mkItem id 64)]).
Proof.
  assert (Hcreate : forall id,
             findInventoryItem (Some id) b = None -> creative b = true ->
             exists r b',
               tryCatch
                 (call env (act_setInventorySlot 36 (mkItem id 64));;
                  log env (Str ("Gave myself a stack of " ++ itemName ++ "."));;
                  b' <- get;;
                  ret (findInventoryItem (Some id) b'))
                 (fun e => err env e;; ret None) b = Done r b' /\
               state b' = state b /\ world b' = world b /\
               botEntity b' = botEntity b /\ players b' = players b /\
               goal b' = goal b /\ sprint b' = sprint b /\
               (forall item, r = Some item ->
                             Some id = Some (i_type item) /\ In item (inventory b')) /\
               actions b' = actions b ++ [act_setInventorySlot 36 (mkItem id 64)]).
  { intros id Hnone Hcr. unfold tryCatch, bind. rewrite call_run.
    destruct (remote env (List.length (actions b))
                (act_setInventorySlot 36 (mkItem id 64))) as [e|].
    - unfold err. rewrite send_run. unfold ret. do 2 eexists.
      split; [reflexivity|]. repeat apply conj; try reflexivity.
      intros item Hr. discriminate.
    - unfold log. rewrite send_run. unfold get, ret.
      do 2 eexists. split; [reflexivity|].
      cbn [effect pushSent withInventory pushAction state world botEntity players
           goal sprint actions inventory findInventoryItem find i_type].
      rewrite Z.eqb_refl. repeat apply conj; try reflexivity.
      intros item Hr. inversion Hr; subst. split; [reflexivity|now left]. }
  assert (Hfound : forall id item,
             itemsByName env itemName = Some id ->
             findInventoryItem (Some id) b = Some item ->
             Done (Some item) b = Done (Some item) b /\
             state b = state b /\ world b = world b /\ botEntity b = botEntity b /\
             players b = players b /\ goal b = goal b /\ sprint b = sprint b /\
             (forall item0, Some item = Some item0 ->
                 itemsByName env itemName = Some (i_type item0)
                 /\ In item0 (inventory b)) /\
             (forall item0, findInventoryItem (itemsByName env itemName) b = Some item0 ->
                 Some item = Some item0 /\ b = b) /\
             (creative b = false ->
              b = b /\ Some item = findInventoryItem (itemsByName env itemName) b) /\
             (actions b = actions b \/
              exists id, itemsByName env itemName = Some id /\ creative b = true /\
                findInventoryItem (Some id) b = None /\
                actions b = actions b ++ [act_setInventorySlot 36 (mkItem id 64)])).
  { intros id item Eid Ef. repeat apply conj; try reflexivity.
    - intros item0 Hr. inversion Hr; subst.
      apply findInventoryItem_some in Ef as [Ht Hin]. rewrite Eid, Ht. now split.
    - intros item0 Hr. rewrite Eid, Ef in Hr. now split.
    - intros _. rewrite Eid, Ef. now split.
    - now left. }
  assert (Hnone : forall (r : option Item),
             r = None ->
             findInventoryItem (itemsByName env itemName) b = None ->
             forall b', state b' = state b -> world b' = world b ->
             botEntity b' = botEntity b -> players b' = players b ->
             goal b' = goal b -> sprint b' = sprint b ->
             actions b' = actions b ->
             (creative b = false -> b' = b) ->
             state b' = state b /\ world b' = world b /\ botEntity b' = botEntity b /\
             players b' = players b /\ goal b' = goal b /\ sprint b' = sprint b /\
             (forall item0, r = Some item0 ->
                 itemsByName env itemName = Some (i_type item0)
                 /\ In item0 (inventory b')) /\
             (forall item0, findInventoryItem (itemsByName env itemName) b = Some item0 ->
                 r = Some item0 /\ b' = b) /\
             (creative b = false ->
              b' = b /\ r = findInventoryItem (itemsByName env itemName) b) /\
             (actions b' = actions b \/
              exists id, itemsByName env itemName = Some id /\ creative b = true /\
                findInventoryItem (Some id) b = None /\
                actions b' = actions b ++ [act_setInventorySlot 36 (mkItem id 64)])).
  { intros r -> Ef b' Hs Hw He Hp Hg Hsp Hact Hcr.
    repeat apply conj; try assumption.
    - intros item0 Hr. discriminate.
    - intros item0 Hr. rewrite Ef in Hr. discriminate.
    - intros Hc. rewrite Ef. split; [now apply Hcr|reflexivity].
    - now left. }
  assert (Hmade : forall id,
             itemsByName env itemName = Some id ->
             findInventoryItem (Some id) b = None -> creative b = true ->
             forall r b',
               state b' = state b -> world b' = world b ->
               botEntity b' = botEntity b -> players b' = players b ->
               goal b' = goal b -> sprint b' = sprint b ->
               (forall item, r = Some item ->
                             Some id = Some (i_type item) /\ In item (inventory b')) ->
               actions b' = actions b ++ [act_setInventorySlot 36 (mkItem id 64)] ->
             state b' = state b /\ world b' = world b /\ botEntity b' = botEntity b /\
             players b' = players b /\ goal b' = goal b /\ sprint b' = sprint b /\
             (forall item0, r = Some item0 ->
                 itemsByName env itemName = Some (i_type item0)
                 /\ In item0 (inventory b')) /\
             (forall item0, findInventoryItem (itemsByName env itemName) b = Some item0 ->
                 r = Some item0 /\ b' = b) /\
             (creative b = false ->
              b' = b /\ r = findInventoryItem (itemsByName env itemName) b) /\
             (actions b' = actions b \/
              exists id, itemsByName env itemName = Some id /\ creative b = true /\
                findInventoryItem (Some id) b = None /\
                actions b' = actions b ++ [act_setInventorySlot 36 (mkItem id 64)])).
  { intros id Eid Ef Hcr r b' Hs Hw He Hp Hg Hsp Hitem Hact.
    repeat apply conj; try assumption.
    - intros item0 Hr. rewrite Eid. now apply Hitem.
    - intros item0 Hr. rewrite Eid, Ef in Hr. discriminate.
    - intros Hc. rewrite Hcr in Hc. discriminate.
    - right. exists id. repeat apply conj; assumption. }
  unfold getBlockInHand. destruct rev.
  - unfold bind, get.
    destruct (findInventoryItem (itemsByName env itemName) b) as [item|] eqn:Ef.
    + destruct (itemsByName env itemName) as [id|] eqn:Eid; [|discriminate].
      exists (Some item), b. now apply (Hfound id).
    + destruct (creative b) eqn:Hcr.
      * destruct (itemsByName env itemName) as [id|] eqn:Eid.
        -- destruct (Hcreate id Ef eq_refl)
             as (r & b' & Hrun & Hs & Hw & He & Hp & Hg & Hsp & Hitem & Hact).
           exists r, b'. split; [exact Hrun|]. now apply (Hmade id).
        -- unfold tryCatch, raise, bind, err. rewrite send_run. unfold ret.
           do 2 eexists. split; [reflexivity|].
           apply Hnone; try reflexivity. discriminate.
      * exists None, b. split; [reflexivity|]. now apply Hnone.
  - destruct (itemsByName env itemName) as [id|] eqn:Eid.
    + unfold bind, get.
      destruct (findInventoryItem (Some id) b) as [item|] eqn:Ef.
      * exists (Some item), b. now apply (Hfound id).
      * destruct (creative b) eqn:Hcr.
        -- destruct (Hcreate id Ef eq_refl)
             as (r & b' & Hrun & Hs & Hw & He & Hp & Hg & Hsp & Hitem & Hact).
           exists r, b'. split; [exact Hrun|]. now apply (Hmade id).
        -- exists None, b. split; [reflexivity|]. now apply Hnone.
    + exists None, b. split; [reflexivity|]. now apply Hnone.
Qed.

Lemma statuses_app l l' : statuses (l ++ l') = statuses l ++ statuses l'.
Proof. unfold statuses. apply flat_map_app. Qed.

(** X11.  [getBlockInHand] never throws, in either revision and whatever the
    game client rejects.  An item it returns has the type the item name stands
    for and is in the inventory; an item already held is returned without any
    call; without creative mode nothing is called or changed; at most one call
    is issued, the grant of a stack of 64 into slot 36, and only in creative
    mode when no such item is held.  The behaviour state and the world are
    never touched. *)
Theorem getBlockInHand_returns_held_or_granted_item :
  forall (rev : Revision) (env : Env) (itemName : string) (b : Bot),
    exists (r : option Item) (b' : Bot),
      getBlockInHand rev env itemName b = Done r b' /\
      state b' = state b /\ world b' = world b /\
      (forall item, r = Some item ->
          itemsByName env itemName = Some (i_type item) /\ In item (inventory b')) /\
      (forall item, findInventoryItem (itemsByName env itemName) b = Some item ->
          r = Some item /\ b' = b) /\
      (creative b = false ->
       b' = b /\ r = findInventoryItem (itemsByName env itemName) b) /\
      (actions b' = actions b \/
       exists id, itemsByName env itemName = Some id /\ creative b = true /\
         findInventoryItem (Some id) b = None /\
         actions b' = actions b ++ [act_setInventorySlot 36 (mkItem id 64)]).
Proof.
  intros rev env itemName b.
  destruct (getBlockInHand_run rev env itemName b)
    as (r & b' & Hrun & Hs & Hw & _ & _ & _ & _ & Hitem & Hheld & Hcr & Hact).
  exists r, b'. repeat apply conj; assumption.
Qed.

Lemma resetState_run rev env b :
  resetState rev env b
  = let b1 := (match rev with
               | Overhaul1 => fun x => x
               | Overhaul2 => withSprint false
               end)
                (withState (setIsTrapping false)
                   (withState (setMode None) (withState (setTarget None) b))) in
    match remote env (List.length (actions b)) act_stop with
    | Some e => Raised e (pushAction act_stop b1)
    | None =>
        Done tt (pushSent (workerMsg (status_update "Idle")
                             (Some (senderName env b)))
                   (withGoal None (pushAction act_stop b1)))
    end.
Proof.
  unfold resetState, bind, modify, ret, updateStatus.
  destruct rev; rewrite call_run;
    cbn [actions withState withSprint];
    destruct (remote env (List.length (actions b)) act_stop);
    rewrite ?send_run; reflexivity.
Qed.

(** X12.  The [stop] command, handled while the bot has an entity: the line
    "Stopping current action." is posted, then target, mode and the trap guard
    are cleared (and, in depster.js, sprinting is switched off) before the
    pathfinder is asked to stop, so they are cleared even when that call
    throws; the time of the last dig is kept.  When the call is accepted the
    goal is dropped and status "Idle" is posted; when it throws, the handler
    throws and no status is posted. *)
Theorem stop_command_resets_state :
  forall (rev : Revision) (env : Env) (b : Bot) (msg : CommandMsg) (me : Entity),
    botEntity b = Some me ->
    c_type msg = "command" ->
    command msg = "stop" ->
    let o := onCommand rev env (Some msg) b in
    let b' := finalBotOf o in
    let n := Some (senderName env b) in
    target (state b') = None /\ mode (state b') = None /\
    isTrapping (state b') = false /\
    lastDig (state b') = lastDig (state b) /\
    (rev = Overhaul2 -> sprint b' = false) /\
    actions b' = actions b ++ [act_stop] /\
    (remote env (List.length (actions b)) act_stop = None ->
     o = Done tt b' /\ goal b' = None /\
     sent b' = sent b ++ [workerMsg (log_msg (Str "Stopping current action.")) n;
                          workerMsg (status_update "Idle") n]) /\
    (forall e, remote env (List.length (actions b)) act_stop = Some e ->
     o = Raised e b' /\ goal b' = goal b /\
     sent b' = sent b ++ [workerMsg (log_msg (Str "Stopping current action.")) n]).
Proof.
  intros rev env b msg me Hme Htype Hcmd o b' n.
  assert (Ho : o = (log env (Str "Stopping current action.");; resetState rev env) b).
  { unfold o, onCommand, bind at 1, get. rewrite Hme, Htype, Hcmd. reflexivity. }
  unfold b'. rewrite Ho. clear Ho.
  unfold bind, log. rewrite send_run, resetState_run. cbv zeta.
  change (actions (pushSent (workerMsg (log_msg (Str "Stopping current action."))
                               (Some (senderName env b))) b))
    with (actions b).
  destruct (remote env (List.length (actions b)) act_stop) as [e|] eqn:Hr.
  - repeat apply conj; try (destruct rev; reflexivity).
    + intros ->. reflexivity.
    + intros H. discriminate H.
    + intros e' H. inversion H; subst.
      repeat apply conj; destruct rev; reflexivity.
  - repeat apply conj; try (destruct rev; reflexivity).
    + intros ->. reflexivity.
    + intros _. repeat apply conj; try (destruct rev; reflexivity).
      destruct rev; cbn [finalBotOf sent pushSent withGoal pushAction withSprint
                         withState]; rewrite <- app_assoc; reflexivity.
    + intros e' H. discriminate H.
Qed.

Lemma stop_command_resets_state_witness :
  let env := sampleEnv Overhaul2 in
  let b := idleBot in
  let o := onCommand Overhaul2 env (Some (mkCommand "command" "stop" None None "")) b in
  let b' := finalBotOf o in
  let n := Some (senderName env b) in
  target (state b') = None /\ mode (state b') = None /\
  isTrapping (state b') = false /\
  lastDig (state b') = lastDig (state b) /\
  (Overhaul2 = Overhaul2 -> sprint b' = false) /\
  actions b' = actions b ++ [act_stop] /\
  (remote env (List.length (actions b)) act_stop = None ->
   o = Done tt b' /\ goal b' = None /\
   sent b' = sent b ++ [workerMsg (log_msg (Str "Stopping current action.")) n;
                        workerMsg (status_update "Idle") n]) /\
  (forall e, remote env (List.length (actions b)) act_stop = Some e ->
   o = Raised e b' /\ goal b' = goal b /\
   sent b' = sent b ++ [workerMsg (log_msg (Str "Stopping current action.")) n]).
Proof.
  apply (stop_command_resets_state Overhaul2 (sampleEnv Overhaul2) idleBot
           (mkCommand "command" "stop" None None "") (mkEntity (vec3q 0 0 0))).
  - reflexivity.
  - reflexivity.
  - reflexivity.
Defined.

Lemma modeOfCommand_cases c m :
  modeOfCommand c = Some m ->
  (c = "follow" /\ m = follow) \/ (c = "grief" /\ m = grief)
  \/ (c = "trap" /\ m = trap).
Proof.
  unfold modeOfCommand.
  destruct (c =? "follow")%string eqn:E1.
  { apply String.eqb_eq in E1. intros [= <-]. now left. }
  destruct (c =? "grief")%string eqn:E2.
  { apply String.eqb_eq in E2. intros [= <-]. right. now left. }
  destruct (c =? "trap")%string eqn:E3; [|discriminate].
  apply String.eqb_eq in E3. intros [= <-]. right. now right.
Qed.

(** X13.  A [follow], [grief] or [trap] command naming a player the bot sees,
    with the pathfinder's stop accepted: the handler sets the mode and the
    target as told, leaves the trap guard clear and the goal dropped, and
    posts status "Idle" (from the reset) and then the status made of the
    capitalised command, "ing " and the player name: "Following ...",
    "Griefing ..." or "Traping ...".  No other status is posted.  The handler
    then returns normally, except in part_000 on [trap]: there it goes on to
    call [getBlockInHand], which is declared inside [createBot] and is not in
    scope in the handler, so it throws a ReferenceError after all of the
    above is done. *)
Theorem behaviour_command_sets_mode_and_target :
  forall (rev : Revision) (env : Env) (b : Bot) (msg : CommandMsg) (m : Mode)
         (me : Entity) (targetName : string) (p : Player),
    botEntity b = Some me ->
    c_type msg = "command" ->
    modeOfCommand (command msg) = Some m ->
    c_target msg = Some targetName ->
    truthyStr targetName = true ->
    players b targetName = Some p ->
    remote env (List.length (actions b)) act_stop = None ->
    exists b',
      onCommand rev env (Some msg) b
      = match rev, m with
        | Overhaul1, trap => Raised (ReferenceError "getBlockInHand") b'
        | _, _ => Done tt b'
        end /\
      mode (state b') = Some m /\
      target (state b') = Some targetName /\
      isTrapping (state b') = false /\
      lastDig (state b') = lastDig (state b) /\
      goal b' = None /\
      actions b' = actions b ++ [act_stop] /\
      statuses (sent b')
      = statuses (sent b)
        ++ ["Idle"; (capitalize (command msg) ++ "ing " ++ targetName)%string] /\
      In (capitalize (command msg) ++ "ing ")%string
         ["Following "; "Griefing "; "Traping "].
Proof.
  intros rev env b msg m me targetName p Hme Htype Hmode Htarget Htruthy Hp Hstop.
  assert (Hcap : In (capitalize (command msg) ++ "ing ")%string
                    ["Following "; "Griefing "; "Traping "]).
  { destruct (modeOfCommand_cases _ _ Hmode) as [[-> _]|[[-> _]|[-> _]]]; simpl; auto. }
  set (n := Some (senderName env b)).
  set (b1 := pushSent (workerMsg (status_update "Idle") n)
               (withGoal None
                  (pushAction act_stop
                     ((match rev with
                       | Overhaul1 => fun x => x
                       | Overhaul2 => withSprint false
                       end)
                        (withState (setIsTrapping false)
                           (withState (setMode None)
                              (withState (setTarget None) b))))))).
  set (b2 := pushSent
               (workerMsg (status_update (capitalize (command msg) ++ "ing "
                                          ++ targetName)%string) n)
               (pushSent
                  (workerMsg (log_msg (Str ("Executing '" ++ command msg ++ "' on "
                                            ++ targetName ++ ".")%string)) n)
                  (withState (setMode (Some m))
                     (withState (setTarget (Some targetName)) b1)))).
  assert (Hrun : onCommand rev env (Some msg) b
                 = match rev, m with
                   | Overhaul1, trap => Raised (ReferenceError "getBlockInHand") b2
                   | _, _ => Done tt b2
                   end).
  { unfold onCommand, bind at 1, get. rewrite Hme, Htype, Hmode, Htarget, Htruthy, Hp.
    cbn [negb]. rewrite String.eqb_refl. cbn [negb].
    unfold bind at 1. rewrite resetState_run, Hstop. cbv zeta. fold n. fold b1.
    unfold bind, modify, log, updateStatus, raise. rewrite !send_run.
    destruct rev, m; reflexivity. }
  assert (Hs : forall x, sent ((match rev with
                                | Overhaul1 => fun x => x
                                | Overhaul2 => withSprint false
                                end) x) = sent x) by (intros x; now destruct rev).
  exists b2. split; [exact Hrun|].
  repeat apply conj; try (destruct rev; reflexivity); try exact Hcap.
  unfold b2, b1.
  cbn [sent pushSent withState withGoal pushAction].
  rewrite Hs. cbn [sent withState].
  rewrite !statuses_app. simpl. rewrite app_nil_r, <- app_assoc. reflexivity.
Qed.

Lemma behaviour_command_sets_mode_and_target_witness :
  exists b',
    onCommand Overhaul1 (sampleEnv Overhaul1)
      (Some (mkCommand "command" "trap" (Some "Bob") None "")) idleBot
    = Raised (ReferenceError "getBlockInHand") b' /\
    mode (state b') = Some trap /\
    target (state b') = Some "Bob" /\
    isTrapping (state b') = false /\
    lastDig (state b') = lastDig (state idleBot) /\
    goal b' = None /\
    actions b' = actions idleBot ++ [act_stop] /\
    statuses (sent b') = statuses (sent idleBot) ++ ["Idle"; "Traping Bob"] /\
    In "Traping " ["Following "; "Griefing "; "Traping "].
Proof.
  apply (behaviour_command_sets_mode_and_target Overhaul1 (sampleEnv Overhaul1)
           idleBot (mkCommand "command" "trap" (Some "Bob") None "") trap
           (mkEntity (vec3q 0 0 0)) "Bob" (mkPlayer (Some bob))).
  - reflexivity.
  - reflexivity.
  - reflexivity.
  - reflexivity.
  - reflexivity.
  - reflexivity.
  - reflexivity.
Defined.

Lemma goal_at_fixed_distance (x z angle : R) :
  (((x + 10000 * cos angle) - x) * ((x + 10000 * cos angle) - x)
   + ((z + 10000 * sin angle) - z) * ((z + 10000 * sin angle) - z)
   = 10000 * 10000)%R.
Proof.
  pose proof (sin2_cos2 angle) as H. unfold Rsqr in H.
  replace (((x + 10000 * cos angle) - x) * ((x + 10000 * cos angle) - x)
           + ((z + 10000 * sin angle) - z) * ((z + 10000 * sin angle) - z))%R
    with (10000 * 10000 * (sin angle * sin angle + cos angle * cos angle))%R
    by ring.
  rewrite H. ring.
Qed.

(** X14.  A [clearmap] command carrying an angle, with the pathfinder's stop
    accepted, puts the unit in [clearmap] mode with no target, stores the
    angle, and posts the statuses "Idle" and "Clearing Map".  At the next tick,
    while the pathfinder reports it is moving no call is issued; otherwise the
    one call issued sets a goal in the XZ plane that lies exactly 10000 blocks
    from the bot's position, in the direction of the stored angle, and the
    unit stays in [clearmap] mode. *)
Theorem clearmap_heads_for_a_goal_10000_away :
  forall (rev : Revision) (env : Env) (b : Bot) (msg : CommandMsg) (me : Entity)
         (angle : R) (now now' : Z),
    botEntity b = Some me ->
    c_type msg = "command" ->
    command msg = "clearmap" ->
    c_angle msg = Some angle ->
    remote env (List.length (actions b)) act_stop = None ->
    exists b1,
      onCommand rev env (Some msg) b = Done tt b1 /\
      mode (state b1) = Some clearmap /\ target (state b1) = None /\
      clearMapAngle (state b1) = angle /\
      statuses (sent b1) = statuses (sent b) ++ ["Idle"; "Clearing Map"] /\
      let b2 := finalBotOf (physicsTick rev env now now' b1) in
      let x := Q2R (qx (e_position me)) in
      let z := Q2R (qz (e_position me)) in
      let newX := (x + 10000 * cos angle)%R in
      let newZ := (z + 10000 * sin angle)%R in
      mode (state b2) = Some clearmap /\
      (isMoving b = true -> actions b2 = actions b1 /\ goal b2 = goal b1) /\
      (isMoving b = false ->
       actions b2 = actions b1 ++ [act_setGoal (GoalXZ newX newZ) false] /\
       ((newX - x) * (newX - x) + (newZ - z) * (newZ - z) = 10000 * 10000)%R /\
       (remote env (List.length (actions b1)) (act_setGoal (GoalXZ newX newZ) false)
        = None -> goal b2 = Some (GoalXZ newX newZ))).
Proof.
  intros rev env b msg me angle now now' Hme Htype Hcmd Hangle Hstop.
  set (n := Some (senderName env b)).
  set (b0 := pushSent (workerMsg (status_update "Idle") n)
               (withGoal None
                  (pushAction act_stop
                     ((match rev with
                       | Overhaul1 => fun x => x
                       | Overhaul2 => withSprint false
                       end)
                        (withState (setIsTrapping false)
                           (withState (setMode None)
                              (withState (setTarget None) b))))))).
  set (b1 := pushSent (workerMsg (status_update "Clearing Map") n)
               (pushSent (workerMsg (log_msg (ClearmapText angle)) n)
                  (withState (setClearMapAngle angle)
                     (withState (setMode (Some clearmap)) b0)))).
  assert (Hrun : onCommand rev env (Some msg) b = Done tt b1).
  { unfold onCommand, bind at 1, get. rewrite Hme, Htype, Hcmd, Hangle.
    cbn [negb]. rewrite String.eqb_refl. cbn [negb].
    change (modeOfCommand "clearmap") with (@None Mode). cbv iota.
    change ("clearmap" =? "clearmap")%string with true. cbv iota.
    unfold bind at 1. rewrite resetState_run, Hstop. cbv zeta. fold n. fold b0.
    unfold bind, modify, log, updateStatus. rewrite !send_run.
    destruct rev; reflexivity. }
  assert (Hsame : forall x, (match rev with
                             | Overhaul1 => fun x => x
                             | Overhaul2 => withSprint false
                             end) x
                            = mkBot (state x) (botUsername x) (botEntity x)
                                    (match rev with
                                     | Overhaul1 => sprint x
                                     | Overhaul2 => false
                                     end)
                                    (goal x) (isMoving x) (players x) (world x)
                                    (inventory x) (creative x) (sent x) (actions x)).
  { intros x. destruct rev; [now destruct x|reflexivity]. }
  exists b1. split; [exact Hrun|].
  assert (Hm1 : mode (state b1) = Some clearmap) by reflexivity.
  assert (He1 : botEntity b1 = Some me).
  { unfold b1, b0. cbn [botEntity pushSent withState withGoal pushAction].
    rewrite Hsame. exact Hme. }
  assert (Hmv1 : isMoving b1 = isMoving b).
  { unfold b1, b0. cbn [isMoving pushSent withState withGoal pushAction].
    now rewrite Hsame. }
  assert (Ha1 : clearMapAngle (state b1) = angle) by reflexivity.
  assert (Ht1 : target (state b1) = None).
  { unfold b1, b0. cbn [state pushSent withState withGoal pushAction].
    rewrite Hsame. reflexivity. }
  split; [exact Hm1|]. split; [exact Ht1|]. split; [exact Ha1|]. split.
  { unfold b1, b0. cbn [sent pushSent withState withGoal pushAction].
    rewrite Hsame. cbn [sent withState].
    rewrite !statuses_app. simpl. now rewrite app_nil_r, <- app_assoc. }
  cbv zeta.
  set (g := act_setGoal
              (GoalXZ (Q2R (qx (e_position me)) + 10000 * cos angle)
                      (Q2R (qz (e_position me)) + 10000 * sin angle)) false).
  set (bs := (match rev with
              | Overhaul1 => fun x => x
              | Overhaul2 => withSprint true
              end) b1).
  assert (Hab : actions bs = actions b1) by (unfold bs; now destruct rev).
  assert (Hgb : goal bs = goal b1) by (unfold bs; now destruct rev).
  assert (Hmb : mode (state bs) = Some clearmap).
  { unfold bs. destruct rev; exact Hm1. }
  assert (Htick : finalBotOf (physicsTick rev env now now' b1)
                  = if isMoving b then bs
                    else
                      match remote env (List.length (actions b1)) g with
                      | Some e =>
                          pushSent (workerMsg (error_msg (StackText e))
                                      (Some (senderName env b1))) (pushAction g bs)
                      | None =>
                          pushSent
                            (workerMsg
                               (log_msg
                                  (Str "Set new distant goal in my assigned direction."))
                               (Some (senderName env b1)))
                            (effect env g (pushAction g bs))
                      end).
  { unfold physicsTick, tryCatch, tickBody, bind at 1, get. rewrite Hm1.
    assert (Hc : (match rev with
                  | Overhaul1 => ret tt
                  | Overhaul2 => modify (withSprint true)
                  end) b1 = Done tt bs) by (unfold bs; now destruct rev).
    unfold bind at 1. rewrite Hc. rewrite Hmv1, He1, Ha1. fold g.
    destruct (isMoving b); cbn [negb]; [reflexivity|].
    unfold bind. rewrite call_run, Hab.
    destruct (remote env (List.length (actions b1)) g) as [e|].
    - unfold err. rewrite send_run. cbn [finalBotOf].
      unfold bs. now destruct rev.
    - unfold log. rewrite send_run. cbn [finalBotOf].
      unfold bs. now destruct rev. }
  rewrite Htick. clear Htick.
  destruct (isMoving b).
  - split; [exact Hmb|]. split; [|intros H; discriminate H].
    intros _. split; [exact Hab|exact Hgb].
  - split; [|split; [intros H; discriminate H|intros _; split; [|split]]].
    + destruct (remote env (List.length (actions b1)) g); exact Hmb.
    + destruct (remote env (List.length (actions b1)) g);
        unfold g; cbn [actions pushSent pushAction effect withGoal];
        now rewrite Hab.
    + apply goal_at_fixed_distance.
    + intros Hacc. rewrite Hacc. reflexivity.
Qed.

Lemma clearmap_heads_for_a_goal_10000_away_witness :
  let env := sampleEnv Overhaul2 in
  let me := mkEntity (vec3q 0 0 0) in
  let angle := 0%R in
  exists b1,
    onCommand Overhaul2 env
      (Some (mkCommand "command" "clearmap" None (Some angle) "")) idleBot
    = Done tt b1 /\
    mode (state b1) = Some clearmap /\ target (state b1) = None /\
    clearMapAngle (state b1) = angle /\
    statuses (sent b1) = statuses (sent idleBot) ++ ["Idle"; "Clearing Map"] /\
    let b2 := finalBotOf (physicsTick Overhaul2 env 0 0 b1) in
    let x := Q2R (qx (e_position me)) in
    let z := Q2R (qz (e_position me)) in
    let newX := (x + 10000 * cos angle)%R in
    let newZ := (z + 10000 * sin angle)%R in
    mode (state b2) = Some clearmap /\
    (isMoving idleBot = true -> actions b2 = actions b1 /\ goal b2 = goal b1) /\
    (isMoving idleBot = false ->
     actions b2 = actions b1 ++ [act_setGoal (GoalXZ newX newZ) false] /\
     ((newX - x) * (newX - x) + (newZ - z) * (newZ - z) = 10000 * 10000)%R /\
     (remote env (List.length (actions b1)) (act_setGoal (GoalXZ newX newZ) false)
      = None -> goal b2 = Some (GoalXZ newX newZ))).
Proof.
  intros env me angle.
  apply (clearmap_heads_for_a_goal_10000_away Overhaul2 env idleBot
           (mkCommand "command" "clearmap" None (Some angle) "") me angle 0 0).
  - reflexivity.
  - reflexivity.
  - reflexivity.
  - reflexivity.
  - reflexivity.
Defined.

Lemma trapLogic_idle_cases rev env e b me :
  botEntity b = Some me ->
  (isTrapping (state b) = true -> trapLogic rev env e b = Done tt b) /\
  (isTrapping (state b) = false ->
   distanceExceeds (e_position me) (e_position e) (9 # 2) = true ->
   trapLogic rev env e b = call env (act_setGoal (GoalFollow e (7 # 2)) true) b).
Proof.
  intros Hme. split.
  - intros H. unfold trapLogic, bind at 1, get. cbv beta iota.
    rewrite H. reflexivity.
  - intros H Hfar. unfold trapLogic, bind at 1, get. cbv beta iota.
    now rewrite H, Hme, Hfar.
Qed.

(** X15.  A trap tick with a visible target builds nothing while the trap
    guard is set or the target is farther than 4.5 blocks: with the guard set
    the tick changes nothing at all; out of range (guard clear) the only call
    is the one that sets the follow goal with range 3.5.  In both cases the
    behaviour state, the world and the inventory are as before. *)
Theorem trap_tick_builds_only_in_range_and_unguarded :
  forall (rev : Revision) (env : Env) (b : Bot) (e me : Entity) (now now' : Z),
    mode (state b) = Some trap ->
    resolveTarget b = Some e ->
    botEntity b = Some me ->
    isTrapping (state b) = true
    \/ distanceExceeds (e_position me) (e_position e) (9 # 2) = true ->
    exists b',
      physicsTick rev env now now' b = Done tt b' /\
      state b' = state b /\ world b' = world b /\ inventory b' = inventory b /\
      filter isPlace (actions b') = filter isPlace (actions b) /\
      filter isEquip (actions b') = filter isEquip (actions b) /\
      (isTrapping (state b) = true -> b' = b) /\
      (isTrapping (state b) = false ->
       actions b' = actions b ++ [act_setGoal (GoalFollow e (7 # 2)) true]).
Proof.
  intros rev env b e me now now' Hmode Hres Hme Hcase.
  destruct (trapLogic_idle_cases rev env e b me Hme) as (Hguard & Hfar).
  assert (Hbody : tickBody rev env now now' b = trapLogic rev env e b).
  { unfold tickBody, bind at 1, get. now rewrite Hmode, Hres. }
  unfold physicsTick, tryCatch. rewrite Hbody.
  destruct (isTrapping (state b)) eqn:Hg.
  - rewrite (Hguard eq_refl). exists b. repeat apply conj; try reflexivity.
    intros H; discriminate H.
  - destruct Hcase as [H|Hd]; [discriminate H|].
    rewrite (Hfar eq_refl Hd), call_run.
    destruct (remote env (List.length (actions b))
                (act_setGoal (GoalFollow e (7 # 2)) true)) as [er|].
    + unfold err. rewrite send_run. eexists. split; [reflexivity|].
      cbn [state world inventory actions pushSent pushAction].
      rewrite !filter_app. simpl. rewrite !app_nil_r.
      repeat apply conj; try reflexivity. intros H; discriminate H.
    + eexists. split; [reflexivity|].
      cbn [state world inventory actions pushSent pushAction effect withGoal].
      rewrite !filter_app. simpl. rewrite !app_nil_r.
      repeat apply conj; try reflexivity. intros H; discriminate H.
Qed.

Lemma trap_tick_builds_only_in_range_and_unguarded_witness :
  let b := mkBot (mkState (Some "Bob") (Some trap) 0 0%R false)
                 (Some "Alice") (Some (mkEntity (vec3q 10 0 0))) false None false
                 seeingBob platformWorld [mkItem 3 64] false [] [] in
  exists b',
    physicsTick Overhaul2 (sampleEnv Overhaul2) 0 0 b = Done tt b' /\
    state b' = state b /\ world b' = world b /\ inventory b' = inventory b /\
    filter isPlace (actions b') = filter isPlace (actions b) /\
    filter isEquip (actions b') = filter isEquip (actions b) /\
    (isTrapping (state b) = true -> b' = b) /\
    (isTrapping (state b) = false ->
     actions b' = actions b ++ [act_setGoal (GoalFollow bob (7 # 2)) true]).
Proof.
  intros b.
  apply (trap_tick_builds_only_in_range_and_unguarded Overhaul2
           (sampleEnv Overhaul2) b bob (mkEntity (vec3q 10 0 0)) 0 0).
  - reflexivity.
  - reflexivity.
  - reflexivity.
  - right. reflexivity.
Defined.

Lemma trapLogic_in_range rev env e b me :
  botEntity b = Some me ->
  isTrapping (state b) = false ->
  distanceExceeds (e_position me) (e_position e) (9 # 2) = false ->
  remote env (List.length (actions b)) act_stop = None ->
  trapLogic rev env e b
  = (trapBlockItem <- getBlockInHand rev env (trapBlock (cfg env));;
     match trapBlockItem with
     | None =>
         log env (Str (match rev with
                       | Overhaul1 =>
                           "Cannot find " ++ trapBlock (cfg env)
                           ++ " to trap with."
                       | Overhaul2 =>
                           "Cannot find or get " ++ trapBlock (cfg env)
                           ++ " to trap with. Aborting."
                       end));;
         modify (withState (setIsTrapping false));;
         modify (withState (setMode None));;
         updateStatus env "Idle"
     | Some item =>
         call env (act_equip item);;
         let playerPos := floored (e_position e) in
         forEachOffset rev env playerPos (offsetsOf rev);;
         b' <- get;;
         log env (Str ("Trap for " ++ showTarget (target (state b'))
                       ++ " should be complete."));;
         modify (withState (setMode (Some follow)));;
         updateStatus env ("Following " ++ showTarget (target (state b')));;
         modify (withState (setIsTrapping false))
     end)
      (withState (setIsTrapping true) (withGoal None (pushAction act_stop b))).
Proof.
  intros Hme Hg Hd Hstop.
  unfold trapLogic, bind at 1, get. cbv beta iota. rewrite Hg, Hme, Hd.
  unfold bind at 1. rewrite call_run, Hstop.
  unfold bind at 1, modify. reflexivity.
Qed.

(** X16.  A trap tick in range of a visible target, guard clear and stop
    accepted, when the bot holds no item of the trap material and is not in
    creative mode: the tick returns normally with mode none, the guard clear
    again and the target kept; the only call issued is the stop, so nothing is
    equipped or placed and world and inventory are as before; the one status
    posted is "Idle", and the next tick is a no-op. *)
Theorem trap_without_material_goes_idle :
  forall (rev : Revision) (env : Env) (b : Bot) (e me : Entity) (now now' : Z),
    mode (state b) = Some trap ->
    resolveTarget b = Some e ->
    botEntity b = Some me ->
    isTrapping (state b) = false ->
    distanceExceeds (e_position me) (e_position e) (9 # 2) = false ->
    remote env (List.length (actions b)) act_stop = None ->
    creative b = false ->
    findInventoryItem (itemsByName env (trapBlock (cfg env))) b = None ->
    exists b',
      physicsTick rev env now now' b = Done tt b' /\
      mode (state b') = None /\ isTrapping (state b') = false /\
      target (state b') = target (state b) /\
      actions b' = actions b ++ [act_stop] /\
      world b' = world b /\ inventory b' = inventory b /\ goal b' = None /\
      statuses (sent b') = statuses (sent b) ++ ["Idle"] /\
      forall now2 now2', physicsTick rev env now2 now2' b' = Done tt b'.
Proof.
  intros rev env b e me now now' Hmode Hres Hme Hg Hd Hstop Hcr Hnone.
  assert (Hbody : tickBody rev env now now' b = trapLogic rev env e b).
  { unfold tickBody, bind at 1, get. now rewrite Hmode, Hres. }
  set (b1 := withState (setIsTrapping true) (withGoal None (pushAction act_stop b))).
  destruct (getBlockInHand_run rev env (trapBlock (cfg env)) b1)
    as (r & b2 & Hget & _ & _ & _ & _ & _ & _ & _ & _ & Hplain & _).
  destruct (Hplain Hcr) as (Hb2 & Hr).
  change (findInventoryItem (itemsByName env (trapBlock (cfg env))) b1)
    with (findInventoryItem (itemsByName env (trapBlock (cfg env))) b) in Hr.
  rewrite Hnone in Hr. subst r b2.
  unfold physicsTick, tryCatch.
  rewrite Hbody, (trapLogic_in_range rev env e b me Hme Hg Hd Hstop). fold b1.
  unfold bind at 1. rewrite Hget.
  unfold bind, modify, log, updateStatus. rewrite !send_run.
  eexists. split; [reflexivity|].
  cbn [state mode isTrapping target actions world inventory goal sent pushSent
       withState withGoal pushAction setMode setIsTrapping b1].
  repeat apply conj; try reflexivity.
  rewrite !statuses_app. simpl. now rewrite ?app_nil_r, <- ?app_assoc.
Qed.

Lemma trap_without_material_goes_idle_witness :
  let b := mkBot (mkState (Some "Bob") (Some trap) 0 0%R false)
                 (Some "Alice") (Some (mkEntity (vec3q (5 # 2) 0 (1 # 2)))) false
                 None false seeingBob platformWorld [] false [] [] in
  exists b',
    physicsTick Overhaul2 (sampleEnv Overhaul2) 0 0 b = Done tt b' /\
    mode (state b') = None /\ isTrapping (state b') = false /\
    target (state b') = target (state b) /\
    actions b' = actions b ++ [act_stop] /\
    world b' = world b /\ inventory b' = inventory b /\ goal b' = None /\
    statuses (sent b') = statuses (sent b) ++ ["Idle"] /\
    forall now2 now2',
      physicsTick Overhaul2 (sampleEnv Overhaul2) now2 now2' b' = Done tt b'.
Proof.
  intros b.
  apply (trap_without_material_goes_idle Overhaul2 (sampleEnv Overhaul2) b bob
           (mkEntity (vec3q (5 # 2) 0 (1 # 2))) 0 0).
  - reflexivity.
  - reflexivity.
  - reflexivity.
  - reflexivity.
  - reflexivity.
  - reflexivity.
  - reflexivity.
  - reflexivity.
Defined.

(** X17.  A trap tick in range, guard clear, stop accepted and the material
    held, when the game client rejects the equip call: the error is caught by
    the tick and posted, nothing is placed, and the trap guard stays set with
    the mode still [trap].  From then on every trap tick with a visible target
    does nothing at all: no call, no message, no change of state. *)
Theorem rejected_equip_leaves_trap_guard_set :
  forall (rev : Revision) (env : Env) (b : Bot) (e me : Entity) (item : Item)
         (er : JsError) (now now' : Z),
    mode (state b) = Some trap ->
    resolveTarget b = Some e ->
    botEntity b = Some me ->
    isTrapping (state b) = false ->
    distanceExceeds (e_position me) (e_position e) (9 # 2) = false ->
    remote env (List.length (actions b)) act_stop = None ->
    findInventoryItem (itemsByName env (trapBlock (cfg env))) b = Some item ->
    remote env (S (List.length (actions b))) (act_equip item) = Some er ->
    exists b',
      physicsTick rev env now now' b = Done tt b' /\
      isTrapping (state b') = true /\ mode (state b') = Some trap /\
      target (state b') = target (state b) /\
      actions b' = actions b ++ [act_stop; act_equip item] /\
      world b' = world b /\
      sent b' = sent b ++ [workerMsg (error_msg (StackText er))
                                     (Some (senderName env b))] /\
      forall (b2 : Bot) (now2 now2' : Z),
        state b2 = state b' ->
        resolveTarget b2 <> None ->
        physicsTick rev env now2 now2' b2 = Done tt b2.
Proof.
  intros rev env b e me item er now now' Hmode Hres Hme Hg Hd Hstop Hitem Hequip.
  assert (Hbody : tickBody rev env now now' b = trapLogic rev env e b).
  { unfold tickBody, bind at 1, get. now rewrite Hmode, Hres. }
  set (b1 := withState (setIsTrapping true) (withGoal None (pushAction act_stop b))).
  destruct (getBlockInHand_run rev env (trapBlock (cfg env)) b1)
    as (r & b2 & Hget & _ & _ & _ & _ & _ & _ & _ & Hheld & _).
  destruct (Hheld item Hitem) as (Hr & Hb2). subst r b2.
  assert (Hlen : List.length (actions b1) = S (List.length (actions b))).
  { unfold b1. cbn [actions withState withGoal]. apply length_actions_push. }
  unfold physicsTick, tryCatch.
  rewrite Hbody, (trapLogic_in_range rev env e b me Hme Hg Hd Hstop). fold b1.
  unfold bind at 1. rewrite Hget.
  unfold bind at 1. rewrite call_run, Hlen, Hequip.
  unfold err. rewrite send_run.
  eexists. split; [reflexivity|].
  cbn [state mode isTrapping target actions world sent pushSent
       withState withGoal pushAction setMode setIsTrapping b1].
  repeat apply conj; try reflexivity.
  - exact Hmode.
  - now rewrite <- app_assoc.
  - intros b2 now2 now2' Hst Hsee.
    unfold physicsTick, tryCatch, tickBody, bind at 1, get. cbv beta iota.
    rewrite Hst.
    cbn [state mode isTrapping pushSent withState withGoal pushAction setIsTrapping
         b1].
    rewrite Hmode.
    destruct (resolveTarget b2) as [e2|]; [|contradiction].
    unfold trapLogic, bind at 1, get. cbv beta iota. rewrite Hst. reflexivity.
Qed.

Lemma rejected_equip_leaves_trap_guard_set_witness :
  let env := mkEnv "Alice" false (sharedConfig Overhaul2) (fun _ => None)
                   (fun n => if (n =? "dirt")%string then Some 3 else None)
                   (fun n a => match a with
                               | act_equip _ => Some (RemoteError n)
                               | _ => None
                               end) in
  exists b',
    physicsTick Overhaul2 env 0 0 trapBot = Done tt b' /\
    isTrapping (state b') = true /\ mode (state b') = Some trap /\
    target (state b') = target (state trapBot) /\
    actions b' = actions trapBot ++ [act_stop; act_equip (mkItem 3 64)] /\
    world b' = world trapBot /\
    sent b' = sent trapBot
              ++ [workerMsg (error_msg (StackText (RemoteError 1)))
                            (Some (senderName env trapBot))] /\
    forall (b2 : Bot) (now2 now2' : Z),
      state b2 = state b' ->
      resolveTarget b2 <> None ->
      physicsTick Overhaul2 env now2 now2' b2 = Done tt b2.
Proof.
  intros env.
  apply (rejected_equip_leaves_trap_guard_set Overhaul2 env trapBot bob
           (mkEntity (vec3q (5 # 2) 0 (1 # 2))) (mkItem 3 64) (RemoteError 1) 0 0).
  - reflexivity.
  - reflexivity.
  - reflexivity.
  - reflexivity.
  - reflexivity.
  - reflexivity.
  - reflexivity.
  - reflexivity.
Defined.

Lemma setHas_false_notIn ids t : setHas ids t = false -> ~ In t ids.
Proof.
  unfold setHas. intros H Hin.
  assert (E : existsb (Z.eqb t) ids = true).
  { apply existsb_exists. exists t. split; [exact Hin|apply Z.eqb_refl]. }
  rewrite E in H. discriminate.
Qed.

Lemma Qltb_false x y : Qltb x y = false -> (y <= x)%Q.
Proof.
  intros H. apply Qnot_lt_le. intros Hlt. apply Qltb_lt in Hlt.
  rewrite Hlt in H. discriminate.
Qed.

Lemma uptoQ_bounds r d : In d (uptoQ r) -> (- r <= d)%Q /\ (d <= r)%Q.
Proof.
  intros H. apply uptoQ_spec in H as (i & Hd & Hle). split; [|exact Hle].
  rewrite Hd. rewrite <- (Qplus_0_r (- r)) at 1.
  apply Qplus_le_r. change 0%Q with (inject_Z 0). rewrite <- Zle_Qle. lia.
Qed.

(** X18.  part_000, [griefLogic] of a bot that has an entity: either no call
    is issued, or the calls issued are one look, or one look and then one dig,
    at a single block.  That block is loaded in the world at the cell of a
    scanned point [targetPos + (dx, dy, dz)] with each of [dx], [dy], [dz]
    between [-scanRadius] and [scanRadius]; the point is no farther than
    [maxDig] from the bot; the block is not air and its type is not a
    protected id; the interval since the last dig is not shorter than
    [clickDelay], and the time of the last dig is set to the second clock
    reading. *)
Theorem part000_grief_acts_on_reachable_diggable_block :
  forall (env : Env) (b : Bot) (me : Entity) (now now' : Z) (targetPos : Vec3q),
    botEntity b = Some me ->
    let b' := finalBotOf (griefLogic Overhaul1 env now now' targetPos b) in
    let r := scanRadius (cfg env) in
    (actions b' = actions b /\ state b' = state b /\ world b' = world b) \/
    exists (blk : Block) (dx dy dz : Q),
      (actions b' = actions b ++ [lookAtBlock blk] \/
       actions b' = actions b ++ [lookAtBlock blk; act_dig blk]) /\
      position blk = floored (offsetQ targetPos dx dy dz) /\
      world b (position blk) = Some (data blk) /\
      name blk <> "air" /\
      ~ In (blockType blk) (protectedIds env) /\
      (- r <= dx)%Q /\ (dx <= r)%Q /\ (- r <= dy)%Q /\ (dy <= r)%Q /\
      (- r <= dz)%Q /\ (dz <= r)%Q /\
      (0 <= maxDig (cfg env))%Q /\
      (distSq (e_position me) (offsetQ targetPos dx dy dz)
       <= maxDig (cfg env) * maxDig (cfg env))%Q /\
      tooSoon env b now = false /\
      lastDig (state b') = now'.
Proof.
  intros env b me now now' targetPos Hme b' r. unfold b'.
  rewrite (griefLogic1_run env b me) by assumption.
  destruct (sortBy (nearerOrEqual (e_position me)) (found env b me targetPos))
    as [|blk rest] eqn:Hsort.
  { left. repeat split. }
  destruct (tooSoon env b now) eqn:Hsoon.
  { left. repeat split. }
  right.
  apply (sortBy_first _ (nearerOrEqual_total (e_position me))
                        (nearerOrEqual_trans (e_position me))) in Hsort
    as [Hin _].
  unfold found in Hin.
  destruct (proj1 (scanBlocks_spec _ _ _ _ _ _ _) Hin)
    as (dx & dy & dz & Hdx & Hdy & Hdz & Hdist & Hblk & Hair & Hprot).
  apply uptoQ_bounds in Hdx, Hdy, Hdz.
  destruct Hdx as (Hx1 & Hx2), Hdy as (Hy1 & Hy2), Hdz as (Hz1 & Hz2).
  unfold distanceExceeds in Hdist. apply orb_false_iff in Hdist as (Hneg & Hfar).
  apply Qltb_false in Hneg, Hfar.
  assert (Hpos : position blk = floored (offsetQ targetPos dx dy dz)
                 /\ world b (position blk) = Some (data blk)).
  { unfold blockAtq, blockAt in Hblk.
    destruct (world b (floored (offsetQ targetPos dx dy dz))) as [d|] eqn:Hw;
      [|discriminate].
    simpl in Hblk. inversion Hblk; subst. simpl. now split. }
  destruct Hpos as (Hp & Hw).
  exists blk, dx, dy, dz.
  assert (Hacts :
    let o := match remote env (List.length (actions b)) (lookAtBlock blk) with
             | Some _ => Done tt (pushAction (lookAtBlock blk)
                                    (withState (setLastDig now') b))
             | None =>
                 match remote env (S (List.length (actions b))) (act_dig blk) with
                 | Some _ =>
                     Done tt (pushAction (act_dig blk)
                                (pushAction (lookAtBlock blk)
                                   (withState (setLastDig now') b)))
                 | None =>
                     Done tt (effect env (act_dig blk)
                                (pushAction (act_dig blk)
                                   (pushAction (lookAtBlock blk)
                                      (withState (setLastDig now') b))))
                 end
             end in
    (actions (finalBotOf o) = actions b ++ [lookAtBlock blk] \/
     actions (finalBotOf o) = actions b ++ [lookAtBlock blk; act_dig blk]) /\
    lastDig (state (finalBotOf o)) = now').
  { cbv zeta.
    destruct (remote env (List.length (actions b)) (lookAtBlock blk)).
    - split; [left|]; reflexivity.
    - destruct (remote env (S (List.length (actions b))) (act_dig blk));
        (split; [right|reflexivity]);
        cbn [finalBotOf actions pushAction effect withWorld withState];
        now rewrite <- app_assoc. }
  cbv zeta in Hacts. destruct Hacts as (Hact & Hlast).
  split; [exact Hact|]. split; [exact Hp|]. split; [exact Hw|].
  split; [intros Hn; rewrite Hn in Hair; discriminate|].
  split; [now apply setHas_false_notIn|].
  repeat (split; [assumption|]). split; [reflexivity|exact Hlast].
Qed.

Lemma part000_grief_acts_on_reachable_diggable_block_witness :
  let env := sampleEnv Overhaul1 in
  let b := griefBot in
  let me := mkEntity (vec3q 0 0 0) in
  let targetPos := e_position bob in
  let b' := finalBotOf (griefLogic Overhaul1 env 1000 1000 targetPos b) in
  let r := scanRadius (cfg env) in
  (actions b' = actions b /\ state b' = state b /\ world b' = world b) \/
  exists (blk : Block) (dx dy dz : Q),
    (actions b' = actions b ++ [lookAtBlock blk] \/
     actions b' = actions b ++ [lookAtBlock blk; act_dig blk]) /\
    position blk = floored (offsetQ targetPos dx dy dz) /\
    world b (position blk) = Some (data blk) /\
    name blk <> "air" /\
    ~ In (blockType blk) (protectedIds env) /\
    (- r <= dx)%Q /\ (dx <= r)%Q /\ (- r <= dy)%Q /\ (dy <= r)%Q /\
    (- r <= dz)%Q /\ (dz <= r)%Q /\
    (0 <= maxDig (cfg env))%Q /\
    (distSq (e_position me) (offsetQ targetPos dx dy dz)
     <= maxDig (cfg env) * maxDig (cfg env))%Q /\
    tooSoon env b 1000 = false /\
    lastDig (state b') = 1000.
Proof.
  intros env b me targetPos.
  apply (part000_grief_acts_on_reachable_diggable_block env b me 1000 1000
           targetPos).
  reflexivity.
Defined.

(** X19.  The protected set holds exactly the ids, other than 0, that the
    game data gives for a protected name: a protected name the game data does
    not know protects nothing, and id 0 is never protected, even when a
    protected name maps to it. *)
Theorem protectedIds_are_nonzero_ids_of_protected_names :
  forall (env : Env) (t : Z),
    setHas (protectedIds env) t = true
    <-> (t <> 0 /\
         exists n, In n (protectedNames (cfg env)) /\ blocksByName env n = Some t).
Proof.
  intros env t. unfold setHas, protectedIds. rewrite existsb_exists. split.
  - intros (x & Hin & Heq). apply Z.eqb_eq in Heq. subst x.
    apply in_flat_map in Hin as (n & Hn & Hin).
    destruct (blocksByName env n) as [id|] eqn:Eid; [|contradiction].
    destruct (id =? 0) eqn:E0; [contradiction|].
    destruct Hin as [->|[]]. apply Z.eqb_neq in E0.
    split; [exact E0|]. now exists n.
  - intros (Hnz & n & Hn & Hid). exists t. split; [|apply Z.eqb_refl].
    apply in_flat_map. exists n. split; [exact Hn|]. rewrite Hid.
    apply Z.eqb_neq in Hnz. rewrite Hnz. now left.
Qed.

(** * Further properties across the two threads *)

Lemma senderName_named env b nickname :
  botUsername b = Some nickname -> truthyStr nickname = true ->
  senderName env b = nickname.
Proof. intros Hn Ht. unfold senderName. now rewrite Hn, Ht. Qed.

(** X20.  depster.js, from the worker's [spawn] handler to the dashboard: a
    unit registered under its initial handle that the server names with a
    non-empty final handle posts, in this order, its [authenticated] message,
    the line "Bot online." and the status "Idle", each tagged with the final
    handle (an authentication-flow unit first appends the handle to the
    accounts file).  Once the main thread has handled the three messages, the
    unit's entry records the final handle, under the final handle for an
    authentication-flow unit and under the initial handle otherwise, and the
    dashboard has been sent [bot-authenticated], the line and the status under
    the final handle, provided the unit is an authentication-flow unit, or the
    two handles are equal, or no other entry is keyed by the final handle. *)
Theorem spawn_messages_reach_the_dashboard :
  forall (env : Env) (u : Unit) (nickname : string) (b : Bot) (s : Main)
         (e : WorkerInfo),
    initialUsername env = username u ->
    isAuthWorkerW env = isAuthWorker u ->
    truthyStr nickname = true ->
    (isAuthWorker u = true ->
     remote env (List.length (actions b)) (act_appendAccount (nickname ++ newline))
     = None) ->
    map_get (username u) (activeWorkers s) = Some e ->
    isAuthWorker u = true \/ username u = nickname
    \/ map_get nickname (activeWorkers s) = None ->
    exists (b' : Bot) (line1 line2 : IoEvent),
      let new := [workerMsg (authenticated nickname (Some (username u)))
                            (Some nickname);
                  workerMsg (log_msg (Str "Bot online.")) (Some nickname);
                  workerMsg (status_update "Idle") (Some nickname)] in
      let s' := deliver Overhaul2 u new s in
      onSpawn Overhaul2 env nickname b = Done tt b' /\
      sent b' = sent b ++ new /\
      actions b' = actions b
                   ++ (if isAuthWorker u
                       then [act_appendAccount (nickname ++ newline)] else []) /\
      map_get (if isAuthWorker u then nickname else username u) (activeWorkers s')
      = Some (workerInfo (worker e) (Some nickname)) /\
      emitted s'
      = emitted s
        ++ [io_bot_authenticated (Some (username u)) nickname; line1; line2;
            io_log nickname (Str "Bot online.") "info";
            io_bot_status_update nickname "Idle"].
Proof.
  intros env u nickname b s e Hname Hauth Htruthy Hacc Hget Hcase.
  set (bn := mkBot (state b) (Some nickname) (botEntity b) (sprint b) (goal b)
                   (isMoving b) (players b) (world b) (inventory b) (creative b)
                   (sent b) (actions b)).
  assert (Hsn : forall x, botUsername x = Some nickname ->
                          senderName env x = nickname).
  { intros x Hx. now apply senderName_named. }
  assert (Hrun : exists b',
             onSpawn Overhaul2 env nickname b = Done tt b' /\
             sent b' = sent b
                       ++ [workerMsg (authenticated nickname (Some (username u)))
                                     (Some nickname);
                           workerMsg (log_msg (Str "Bot online.")) (Some nickname);
                           workerMsg (status_update "Idle") (Some nickname)] /\
             actions b' = actions b
                          ++ (if isAuthWorker u
                              then [act_appendAccount (nickname ++ newline)]
                              else [])).
  { unfold onSpawn, bind at 1, modify. fold bn. rewrite Hauth, Hname.
    destruct (isAuthWorker u).
    - unfold bind at 1. unfold bind at 1. rewrite call_run.
      change (actions bn) with (actions b). rewrite (Hacc eq_refl).
      unfold bind, log, updateStatus. rewrite !send_run.
      rewrite !Hsn by reflexivity.
      eexists. split; [reflexivity|].
      cbn [sent actions pushSent pushAction effect bn].
      split; [now rewrite <- !app_assoc|reflexivity].
    - unfold bind, ret, log, updateStatus. rewrite !send_run.
      rewrite !Hsn by reflexivity.
      eexists. split; [reflexivity|].
      cbn [sent actions pushSent bn].
      split; [now rewrite <- !app_assoc|now rewrite app_nil_r]. }
  destruct Hrun as (b' & Hrun & Hsent & Hact).
  set (m1 := workerMsg (authenticated nickname (Some (username u))) (Some nickname)).
  assert (Hm1 : m1 = authenticatedMsg Overhaul2 u nickname).
  { unfold m1, authenticatedMsg. now rewrite Htruthy. }
  set (s1 := onMessage Overhaul2 u (Some m1) s).
  set (s2 := onMessage Overhaul2 u
               (Some (workerMsg (log_msg (Str "Bot online.")) (Some nickname))) s1).
  assert (Hs2 : s2 = emit (io_log nickname (Str "Bot online.") "info") s1).
  { unfold s2, onMessage. simpl body. cbv iota beta zeta. simpl bot.
    now rewrite (orElse_truthy nickname _ Htruthy). }
  assert (Hs3 : onMessage Overhaul2 u
                  (Some (workerMsg (status_update "Idle") (Some nickname))) s2
                = emit (io_bot_status_update nickname "Idle") s2).
  { apply (status_after_authenticated s u nickname "Idle" e s2 Hget Htruthy Hcase).
    rewrite Hs2, <- Hm1. reflexivity. }
  assert (Hmap1 : map_get (if isAuthWorker u then nickname else username u)
                          (activeWorkers s1)
                  = Some (workerInfo (worker e) (Some nickname))).
  { unfold s1, m1, onMessage. simpl. rewrite Hget.
    destruct (isAuthWorker u); simpl; apply map_get_set_same. }
  assert (Hem1 : exists line1 line2,
             emitted s1 = emitted s
                          ++ [io_bot_authenticated (Some (username u)) nickname;
                              line1; line2]).
  { unfold s1, m1, onMessage. simpl. rewrite Hget.
    destruct (isAuthWorker u); simpl; do 2 eexists;
      rewrite <- !app_assoc; reflexivity. }
  destruct Hem1 as (line1 & line2 & Hem1).
  exists b', line1, line2. cbv zeta.
  split; [exact Hrun|]. split; [exact Hsent|]. split; [exact Hact|].
  unfold deliver. cbn [fold_left]. fold m1. fold s1. fold s2. rewrite Hs3, Hs2.
  split; [exact Hmap1|].
  cbn [emitted emit]. rewrite Hem1, <- !app_assoc. reflexivity.
Qed.

Lemma spawn_messages_reach_the_dashboard_witness :
  let env := mkEnv "AuthBot-7" true (sharedConfig Overhaul2) (fun _ => None)
                   (fun _ => None) quietRemote in
  let u := mkUnit 1%nat "AuthBot-7" true in
  let s := step Overhaul2 (startup Overhaul2 ["Steve"]) (in_spawn_auth_bot 7) in
  let b := sampleBot initialState noWorld [] in
  exists (b' : Bot) (line1 line2 : IoEvent),
    let new := [workerMsg (authenticated "Alex" (Some "AuthBot-7")) (Some "Alex");
                workerMsg (log_msg (Str "Bot online.")) (Some "Alex");
                workerMsg (status_update "Idle") (Some "Alex")] in
    let s' := deliver Overhaul2 u new s in
    onSpawn Overhaul2 env "Alex" b = Done tt b' /\
    sent b' = sent b ++ new /\
    actions b' = actions b ++ [act_appendAccount ("Alex" ++ newline)] /\
    map_get "Alex" (activeWorkers s') = Some (workerInfo 1%nat (Some "Alex")) /\
    emitted s'
    = emitted s
      ++ [io_bot_authenticated (Some "AuthBot-7") "Alex"; line1; line2;
          io_log "Alex" (Str "Bot online.") "info";
          io_bot_status_update "Alex" "Idle"].
Proof.
  intros env u s b.
  apply (spawn_messages_reach_the_dashboard env u "Alex" b s
           (workerInfo 1%nat None)).
  - reflexivity.
  - reflexivity.
  - reflexivity.
  - intros _. reflexivity.
  - reflexivity.
  - left. reflexivity.
Defined.

Lemma depster_grief_tick env b e now now' :
  mode (state b) = Some grief ->
  resolveTarget b = Some e ->
  exists er b1,
    physicsTick Overhaul2 env now now' b
    = Done tt (pushSent (workerMsg (error_msg (StackText er))
                           (Some (senderName env b))) b1) /\
    state b1 = state b /\ players b1 = players b /\
    botUsername b1 = botUsername b /\ world b1 = world b /\
    inventory b1 = inventory b /\ sent b1 = sent b /\
    digs (actions b1) = digs (actions b) /\
    looks (actions b1) = looks (actions b).
Proof.
  intros Hmode Hres.
  unfold physicsTick, tryCatch, tickBody, bind at 1, get. cbv beta iota.
  rewrite Hmode, Hres. unfold bind at 1, modify. rewrite griefLogic2_run.
  cbv zeta. cbn [actions withSprint].
  destruct (remote env (List.length (actions b))
              (act_setGoal (GoalBlock (qx (e_position e)) (qy (e_position e))
                                      (qz (e_position e))) true)) as [er|].
  - unfold err. rewrite send_run. do 2 eexists. split; [reflexivity|].
    cbn [state players botUsername world inventory sent actions pushAction
         withSprint].
    repeat apply conj; try reflexivity.
    + unfold digs. rewrite filter_app, length_app. simpl. lia.
    + unfold looks. rewrite filter_app, length_app. simpl. lia.
  - unfold err. rewrite send_run. do 2 eexists. split; [reflexivity|].
    cbn [state players botUsername world inventory sent actions pushAction
         withSprint effect withGoal].
    repeat apply conj; try reflexivity.
    + unfold digs. rewrite filter_app, length_app. simpl. lia.
    + unfold looks. rewrite filter_app, length_app. simpl. lia.
Qed.

Lemma deliver_errors u name errs s :
  truthyStr name = true ->
  let s' := deliver Overhaul2 u
              (map (fun er => workerMsg (error_msg (StackText er)) (Some name)) errs)
              s in
  emitted s'
  = emitted s
    ++ map (fun er => io_log name (Cat (Str "ERROR: ") (StackText er)) "error") errs
  /\ activeWorkers s' = activeWorkers s /\ timers s' = timers s.
Proof.
  intros Hname. revert s. induction errs as [|er errs IH]; intros s.
  - cbn. rewrite app_nil_r. repeat split.
  - cbv zeta in IH. unfold deliver in IH.
    set (s1 := onMessage Overhaul2 u
                 (Some (workerMsg (error_msg (StackText er)) (Some name))) s).
    destruct (IH s1) as (Hem & Hmap & Htim).
    cbv zeta. unfold deliver. cbn [fold_left map]. fold s1.
    rewrite Hem, Hmap, Htim.
    unfold s1, onMessage. simpl body. cbv iota beta zeta. simpl bot.
    rewrite (orElse_truthy name _ Hname). cbn [emitted emit activeWorkers timers].
    now rewrite <- app_assoc.
Qed.

(** X21.  depster.js, a unit in [grief] mode whose target stays visible: every
    tick ends normally, posts exactly one error message and digs nothing, and
    leaves mode and target as they are, so the same happens at the next tick:
    after [n] ticks the unit has posted [n] error messages and nothing else,
    has looked at and dug no block, and its world is unchanged.  Handled by the
    main thread, the messages give [n] lines of type "error" on the dashboard
    under the unit's name and change neither the identity map nor the
    timers. *)
Theorem depster_grief_posts_an_error_every_tick :
  forall (env : Env) (clock : list (Z * Z)) (b : Bot) (e : Entity),
    mode (state b) = Some grief ->
    resolveTarget b = Some e ->
    truthyStr (senderName env b) = true ->
    exists (b' : Bot) (errs : list JsError),
      runTicks Overhaul2 env clock b = Done tt b' /\
      state b' = state b /\ world b' = world b /\
      digs (actions b') = digs (actions b) /\
      looks (actions b') = looks (actions b) /\
      List.length errs = List.length clock /\
      let new := map (fun er => workerMsg (error_msg (StackText er))
                                          (Some (senderName env b))) errs in
      sent b' = sent b ++ new /\
      forall (u : Unit) (s : Main),
        let s' := deliver Overhaul2 u new s in
        emitted s'
        = emitted s
          ++ map (fun er => io_log (senderName env b)
                                   (Cat (Str "ERROR: ") (StackText er)) "error")
                 errs /\
        activeWorkers s' = activeWorkers s /\ timers s' = timers s.
Proof.
  intros env clock. induction clock as [|[now now'] clock IH];
    intros b e Hmode Hres Hname.
  - exists b, []. repeat apply conj; try reflexivity.
    + simpl. now rewrite app_nil_r.
    + intros u s. apply (deliver_errors u (senderName env b) [] s Hname).
  - destruct (depster_grief_tick env b e now now' Hmode Hres)
      as (er & b1 & Htick & Hs1 & Hp1 & Hu1 & Hw1 & _ & Hsent1 & Hd1 & Hl1).
    set (b2 := pushSent (workerMsg (error_msg (StackText er))
                           (Some (senderName env b))) b1) in *.
    assert (Hsn : senderName env b2 = senderName env b).
    { unfold senderName, b2. cbn [botUsername pushSent]. now rewrite Hu1. }
    assert (Hres2 : resolveTarget b2 = Some e).
    { unfold resolveTarget, b2 in *. cbn [state players pushSent].
      now rewrite Hs1, Hp1. }
    assert (Hmode2 : mode (state b2) = Some grief).
    { unfold b2. cbn [state pushSent]. now rewrite Hs1. }
    assert (Hname2 : truthyStr (senderName env b2) = true) by now rewrite Hsn.
    destruct (IH b2 e Hmode2 Hres2 Hname2)
      as (b' & errs & Hrun & Hs & Hw & Hd & Hl & Hlen & Hsent & Hmain).
    cbv zeta in Hsent, Hmain.
    exists b', (er :: errs).
    cbn [runTicks]. unfold bind at 1. rewrite Htick. fold b2.
    split; [exact Hrun|].
    split; [rewrite Hs; unfold b2; cbn [state pushSent]; exact Hs1|].
    split; [rewrite Hw; unfold b2; cbn [world pushSent]; exact Hw1|].
    split; [rewrite Hd; unfold b2; cbn [actions pushSent]; exact Hd1|].
    split; [rewrite Hl; unfold b2; cbn [actions pushSent]; exact Hl1|].
    split; [simpl; now rewrite Hlen|].
    cbv zeta. split.
    + rewrite Hsent, Hsn. unfold b2. cbn [sent pushSent map].
      rewrite Hsent1, <- app_assoc. reflexivity.
    + intros u s. apply (deliver_errors u (senderName env b) (er :: errs) s Hname).
Qed.

Lemma depster_grief_posts_an_error_every_tick_witness :
  let env := sampleEnv Overhaul2 in
  let clock := [(1000, 1000); (1050, 1050); (1100, 1100)] in
  exists (b' : Bot) (errs : list JsError),
    runTicks Overhaul2 env clock griefBot = Done tt b' /\
    state b' = state griefBot /\ world b' = world griefBot /\
    digs (actions b') = digs (actions griefBot) /\
    looks (actions b') = looks (actions griefBot) /\
    List.length errs = List.length clock /\
    let new := map (fun er => workerMsg (error_msg (StackText er))
                                        (Some (senderName env griefBot))) errs in
    sent b' = sent griefBot ++ new /\
    forall (u : Unit) (s : Main),
      let s' := deliver Overhaul2 u new s in
      emitted s'
      = emitted s
        ++ map (fun er => io_log (senderName env griefBot)
                                 (Cat (Str "ERROR: ") (StackText er)) "error")
               errs /\
      activeWorkers s' = activeWorkers s /\ timers s' = timers s.
Proof.
  intros env clock.
  apply (depster_grief_posts_an_error_every_tick env clock griefBot bob).
  - reflexivity.
  - reflexivity.
  - reflexivity.
Defined.

Lemma startup_no_final_handle rev accounts e :
  In e (map_values (activeWorkers (startup rev accounts))) ->
  finalUsername e = None.
Proof.
  unfold startup.
  assert (H : forall l s,
             (forall x, In x (map_values (activeWorkers s)) ->
                        finalUsername x = None) ->
             forall x,
               In x (map_values
                       (activeWorkers
                          (fold_left (fun s u => spawnWorkerFor rev u false s) l s))) ->
               finalUsername x = None).
  { induction l as [|a l IH]; intros s Hs x; simpl; [apply Hs|].
    apply IH. intros y Hy.
    destruct (spawn_fields rev a false s) as (_ & _ & _ & Hold & Hnew).
    destruct (map_has a (activeWorkers s)) eqn:Hhas.
    - destruct (Hold eq_refl) as (Hm & _). rewrite Hm in Hy. now apply Hs.
    - destruct (Hnew eq_refl) as (Hm & _). rewrite Hm in Hy.
      unfold map_values in Hy. rewrite map_app in Hy.
      apply in_app_or in Hy as [Hy|[<-|[]]]; [now apply Hs|reflexivity]. }
  apply H. intros x [].
Qed.

(** X22.  What a dashboard is sent when it connects.  part_000 lists the keys
    of the identity map, in map order.  depster.js lists the non-empty final
    handles recorded in the entries, so a unit whose [authenticated] message
    has not been handled yet is not listed although its worker runs: right
    after start-up the list is empty, whatever the accounts file holds.  The
    handler changes nothing but the events emitted. *)
Theorem connection_lists_known_handles :
  forall (s : Main),
    (exists line,
        emitted (onConnection Overhaul1 s)
        = emitted s ++ [line; io_initial_accounts (map_keys (activeWorkers s))]) /\
    (exists line l,
        emitted (onConnection Overhaul2 s)
        = emitted s ++ [line; io_initial_accounts l] /\
        forall n, In n l
                  <-> n <> "" /\
                      exists e, In e (map_values (activeWorkers s)) /\
                                finalUsername e = Some n) /\
    (forall accounts, exists line,
        emitted (onConnection Overhaul2 (startup Overhaul2 accounts))
        = emitted (startup Overhaul2 accounts) ++ [line; io_initial_accounts []]) /\
    (forall rev, activeWorkers (onConnection rev s) = activeWorkers s /\
                 spawned (onConnection rev s) = spawned s /\
                 posted (onConnection rev s) = posted s /\
                 timers (onConnection rev s) = timers s /\
                 terminated (onConnection rev s) = terminated s).
Proof.
  intros s. split; [|split; [|split]].
  - unfold onConnection. simpl. eexists. rewrite <- app_assoc. reflexivity.
  - unfold onConnection. simpl. do 2 eexists.
    split; [rewrite <- app_assoc; reflexivity|].
    intros n. rewrite in_flat_map. split.
    + intros (e & He & Hn). destruct (finalUsername e) as [f|] eqn:Ef; [|contradiction].
      destruct (truthyStr f) eqn:Et; [|contradiction].
      destruct Hn as [->|[]]. split; [|now exists e].
      intros ->. discriminate Et.
    + intros (Hne & e & He & Ef). exists e. split; [exact He|].
      rewrite Ef. apply truthyStr_true in Hne. rewrite Hne. now left.
  - intros accounts. unfold onConnection. cbn [emitted emit console_log console_logT
                                                activeWorkers].
    eexists. rewrite <- app_assoc. cbn [app].
    replace (flat_map _ (map_values (activeWorkers (startup Overhaul2 accounts))))
      with (@nil string); [reflexivity|].
    symmetry.
    assert (H : forall l : list WorkerInfo,
               (forall e, In e l -> finalUsername e = None) ->
               flat_map (fun w => match finalUsername w with
                                  | Some f => if truthyStr f then [f] else []
                                  | None => []
                                  end) l = []).
    { induction l as [|x l IH]; intros Hl; [reflexivity|]. simpl.
      rewrite (Hl x) by now left. simpl. apply IH.
      intros e He. apply Hl. now right. }
    apply H. intros e He. now apply (startup_no_final_handle Overhaul2 accounts).
  - intros rev. unfold onConnection. destruct rev; repeat split.
Qed.

Lemma authLink_name env u b :
  initialUsername env = username u ->
  orElse (Some (senderName env b)) (username u) = senderName env b.
Proof.
  intros Hname. unfold orElse.
  destruct (truthyStr (senderName env b)) eqn:Et; [reflexivity|].
  unfold senderName in *. rewrite <- Hname.
  destruct (botUsername b) as [n|]; [|reflexivity].
  destruct (truthyStr n) eqn:En; [|reflexivity].
  rewrite En in Et. discriminate.
Qed.

(** X23.  From the [microsoft-auth-required] event to the dashboard: the
    worker posts one [auth-link] message holding the verification link and
    the user code, tagged with the name [send] gives the unit; handled by the
    main thread of the unit, it reaches the dashboard as one [auth-link]
    event under that name followed by the line "Auth required. Code: " and
    the code, and nothing else changes. *)
Theorem auth_link_reaches_the_dashboard :
  forall (rev : Revision) (env : Env) (u : Unit) (verification_uri user_code : string)
         (b : Bot) (s : Main),
    initialUsername env = username u ->
    let m := workerMsg (auth_link verification_uri user_code)
                       (Some (senderName env b)) in
    let s' := deliver rev u [m] s in
    onAuthRequired env verification_uri user_code b = Done tt (pushSent m b) /\
    emitted s'
    = emitted s
      ++ [io_auth_link m (senderName env b);
          io_log (senderName env b) (Str ("Auth required. Code: " ++ user_code))
                 "info"] /\
    activeWorkers s' = activeWorkers s /\ spawned s' = spawned s /\
    posted s' = posted s /\ timers s' = timers s /\ terminated s' = terminated s.
Proof.
  intros rev env u verification_uri user_code b s Hname m s'.
  split; [unfold onAuthRequired; now rewrite send_run|].
  unfold s', deliver. cbn [fold_left]. unfold onMessage, m.
  simpl body. cbv iota beta zeta. simpl bot.
  rewrite (authLink_name env u b Hname).
  cbn [emitted emit activeWorkers spawned posted timers terminated].
  rewrite <- app_assoc. repeat split.
Qed.

Lemma auth_link_reaches_the_dashboard_witness :
  let env := mkEnv "AuthBot-7" true (sharedConfig Overhaul2) (fun _ => None)
                   (fun _ => None) quietRemote in
  let u := mkUnit 1%nat "AuthBot-7" true in
  let s := step Overhaul2 (startup Overhaul2 ["Steve"]) (in_spawn_auth_bot 7) in
  let b := mkBot initialState None None false None false (fun _ => None) noWorld
                 [] false [] [] in
  let m := workerMsg (auth_link "https://microsoft.com/link" "ABCD1234")
                     (Some (senderName env b)) in
  let s' := deliver Overhaul2 u [m] s in
  onAuthRequired env "https://microsoft.com/link" "ABCD1234" b
  = Done tt (pushSent m b) /\
  emitted s'
  = emitted s
    ++ [io_auth_link m (senderName env b);
        io_log (senderName env b) (Str ("Auth required. Code: " ++ "ABCD1234"))
               "info"] /\
  activeWorkers s' = activeWorkers s /\ spawned s' = spawned s /\
  posted s' = posted s /\ timers s' = timers s /\ terminated s' = terminated s.
Proof.
  intros env u s b.
  apply (auth_link_reaches_the_dashboard Overhaul2 env u
           "https://microsoft.com/link" "ABCD1234" b s).
  reflexivity.
Defined.

(** X24.  A chat line typed on the dashboard: the main thread posts one
    [chat] command holding the line to every worker of the identity map, in
    map order, and changes nothing else but its log.  A worker whose bot has
    an entity handles a [chat] command by the one call [bot.chat(message)]:
    behaviour state and goal are untouched and nothing is posted back; the
    handler throws exactly when the game client rejects the call.  A command
    the handler does not know is ignored. *)
Theorem chat_is_broadcast_and_spoken :
  forall (rev : Revision) (env : Env) (s : Main) (message : Value) (b : Bot)
         (me : Entity) (msg : CommandMsg),
    botEntity b = Some me ->
    c_type msg = "command" ->
    let s' := onSendChat message s in
    let chat := [("type", VStr "command"); ("command", VStr "chat");
                 ("message", message)] in
    let o := onCommand rev env (Some msg) b in
    posted s' = posted s ++ map (fun w => (w, chat)) (workersOf (activeWorkers s)) /\
    activeWorkers s' = activeWorkers s /\ spawned s' = spawned s /\
    timers s' = timers s /\ terminated s' = terminated s /\
    (command msg = "chat" ->
     actions (finalBotOf o) = actions b ++ [act_chat (c_message msg)] /\
     state (finalBotOf o) = state b /\ goal (finalBotOf o) = goal b /\
     sent (finalBotOf o) = sent b /\
     (remote env (List.length (actions b)) (act_chat (c_message msg)) = None
      <-> o = Done tt (finalBotOf o))) /\
    (~ In (command msg) ["follow"; "grief"; "trap"; "clearmap"; "stop"; "chat"] ->
     o = Done tt b).
Proof.
  intros rev env s message b me msg Hme Htype s' chat o.
  set (t := console_logT (Cat (Str "[main] Broadcasting chat from dashboard: ")
                              (ValueText message)) s).
  destruct (postAll_fields chat t) as (Hm & Hsp & _ & Hti & Hp).
  pose proof (postAll_terminated chat t) as Hte.
  split; [|split; [exact Hm|split; [exact Hsp|split; [exact Hti|split;
    [exact Hte|split]]]]].
  - unfold s', onSendChat. fold chat. fold t. rewrite Hp.
    change (posted t) with (posted s). change (activeWorkers t) with (activeWorkers s).
    f_equal. rewrite <- workersOf_values, map_map. reflexivity.
  - intros Hcmd.
    assert (Ho : o = call env (act_chat (c_message msg)) b).
    { unfold o, onCommand, bind at 1, get. cbv beta iota.
      rewrite Hme, Htype, Hcmd. reflexivity. }
    rewrite Ho, call_run.
    destruct (remote env (List.length (actions b)) (act_chat (c_message msg)))
      as [er|]; cbn [finalBotOf actions state goal sent pushAction effect];
      repeat apply conj; try reflexivity; try (intros H; discriminate H).
  - intros Hnot.
    unfold o, onCommand, bind at 1, get. cbv beta iota.
    rewrite Hme, Htype. cbn [negb]. rewrite String.eqb_refl. cbn [negb].
    unfold modeOfCommand.
    assert (Hneq : forall c, In c ["follow"; "grief"; "trap"; "clearmap"; "stop";
                                   "chat"] ->
                             (command msg =? c)%string = false).
    { intros c Hc. apply String.eqb_neq. intros Heq. apply Hnot. now rewrite Heq. }
    rewrite !Hneq by (simpl; tauto). reflexivity.
Qed.

Lemma chat_is_broadcast_and_spoken_witness :
  let env := sampleEnv Overhaul2 in
  let s := startup Overhaul2 ["Steve"; "Alex"] in
  let message := VStr "hello" in
  let b := idleBot in
  let msg := mkCommand "command" "chat" None None "hello" in
  let s' := onSendChat message s in
  let chat := [("type", VStr "command"); ("command", VStr "chat");
               ("message", message)] in
  let o := onCommand Overhaul2 env (Some msg) b in
  posted s' = posted s ++ map (fun w => (w, chat)) (workersOf (activeWorkers s)) /\
  activeWorkers s' = activeWorkers s /\ spawned s' = spawned s /\
  timers s' = timers s /\ terminated s' = terminated s /\
  (command msg = "chat" ->
   actions (finalBotOf o) = actions b ++ [act_chat (c_message msg)] /\
   state (finalBotOf o) = state b /\ goal (finalBotOf o) = goal b /\
   sent (finalBotOf o) = sent b /\
   (remote env (List.length (actions b)) (act_chat (c_message msg)) = None
    <-> o = Done tt (finalBotOf o))) /\
  (~ In (command msg) ["follow"; "grief"; "trap"; "clearmap"; "stop"; "chat"] ->
   o = Done tt b).
Proof.
  intros env s message b msg.
  apply (chat_is_broadcast_and_spoken Overhaul2 env s message b
           (mkEntity (vec3q 0 0 0)) msg).
  - reflexivity.
  - reflexivity.
Defined.
